(** * proccsv: validation and aggregation of ad-campaign report files

    A shallow embedding of [proccsv/__main__.py].  Python text is modelled
    by [string] (code points below 256), Python integers by [Z], Python
    floats by the IEEE 754 binary64 instance of the Standard Library's
    [spec_float], the dictionary built by [map_state_country] by a
    [gmap string string], and the [metrics] table of the in-memory SQLite
    database by the list of its rows in insertion order.  Exceptions are
    carried by the result type [res]; [try] / [except] blocks become
    [except]. *)

From Stdlib Require Import ZArith Lia Bool Ascii String List.
From Stdlib Require Import Permutation Sorted DecimalString SpecFloat.
From Stdlib Require Import DecimalZ DecimalPos.
From stdpp Require Import gmap strings.

Local Open Scope Z_scope.

(** ** Exceptions *)

Inductive exn : Type :=
  | ValueError
  | AssertionError
  | IndexError
  | OverflowError
  | UnicodeError
  | OperationalError.

Inductive res (A : Type) : Type :=
  | Ret (a : A)
  | Raise (e : exn).

Arguments Ret {A} a.
Arguments Raise {A} e.

Definition bind {A B : Type} (m : res A) (k : A -> res B) : res B :=
  match m with
  | Ret a => k a
  | Raise e => Raise e
  end.

Notation "'do' x <- m ; k" := (bind m (fun x => k))
  (at level 10, x name, m at level 100, k at level 200).

(** [try: body except e: handler e]; an exception the handler does not
    name propagates. *)
Definition except {A : Type} (body : res A) (handler : exn -> option A) : res A :=
  match body with
  | Ret a => Ret a
  | Raise e =>
      match handler e with
      | Some a => Ret a
      | None => Raise e
      end
  end.

Definition py_assert (b : bool) : res unit :=
  if b then Ret tt else Raise AssertionError.

(** ** Text *)

Definition code (c : ascii) : Z := Z.of_N (N_of_ascii c).

Definition is_digit (c : ascii) : bool := (48 <=? code c) && (code c <=? 57).

Definition digit_val (c : ascii) : Z := code c - 48.

Definition digit_char (n : Z) : ascii := ascii_of_N (Z.to_N (48 + n)).

(** White space that [int] and [float] strip: tab, line feed, vertical
    tab, form feed, carriage return, space, U+0085 and U+00A0. *)
Definition is_space (c : ascii) : bool :=
  ((9 <=? code c) && (code c <=? 13)) || (code c =? 32)
  || (code c =? 133) || (code c =? 160).

Fixpoint lstrip (s : string) : string :=
  match s with
  | String c s' => if is_space c then lstrip s' else s
  | EmptyString => EmptyString
  end.

Fixpoint rstrip (s : string) : string :=
  match s with
  | EmptyString => EmptyString
  | String c s' =>
      match rstrip s' with
      | EmptyString => if is_space c then EmptyString else String c EmptyString
      | t => String c t
      end
  end.

Definition strip (s : string) : string := rstrip (lstrip s).

(** [s.split(sep)] for a one-character separator: never the empty list. *)
Fixpoint split (sep : ascii) (s : string) : list string :=
  match s with
  | EmptyString => [EmptyString]
  | String c s' =>
      if Ascii.eqb c sep then EmptyString :: split sep s'
      else match split sep s' with
           | h :: t => String c h :: t
           | [] => [String c EmptyString]
           end
  end.

(** [raw_entry[i]]: [IndexError] past the end. *)
Definition item {A : Type} (l : list A) (i : nat) : res A :=
  match nth_error l i with
  | Some a => Ret a
  | None => Raise IndexError
  end.

Fixpoint rfind (c : ascii) (s : string) : option nat :=
  match s with
  | EmptyString => None
  | String a s' =>
      match rfind c s' with
      | Some i => Some (S i)
      | None => if Ascii.eqb a c then Some O else None
      end
  end.

(** [s.rindex(c)]: the last position of [c], [ValueError] when absent. *)
Definition rindex (s : string) (c : ascii) : res nat :=
  match rfind c s with
  | Some i => Ret i
  | None => Raise ValueError
  end.

(** [s[:i]] *)
Definition slice_to (s : string) (i : nat) : string := String.substring 0 i s.

(** [sep.join(l)] *)
Fixpoint join (sep : string) (l : list string) : string :=
  match l with
  | [] => EmptyString
  | [x] => x
  | x :: rest => x +:+ sep +:+ join sep rest
  end.

(** ['{}'.format(n)] and [str(n)] for an integer of 4300 digits at most
    (Python refuses to write a longer one); the integers written here
    are line numbers, counts of lines and 64-bit sums. *)
Definition str_of_Z (n : Z) : string := NilZero.string_of_int (Z.to_int n).

(** ** [int(str)]

    After stripping white space: an optional sign, then decimal digits in
    which single underscores may separate digits, [max_str_digits] digits
    at most. *)

Fixpoint digits_tail (acc : Z) (n : nat) (s : string) : Z * nat * string :=
  match s with
  | String c s' =>
      if is_digit c then digits_tail (10 * acc + digit_val c) (S n) s'
      else if Ascii.eqb c "_" then
        match s' with
        | String d s'' =>
            if is_digit d then digits_tail (10 * acc + digit_val d) (S n) s''
            else (acc, n, s)
        | EmptyString => (acc, n, s)
        end
      else (acc, n, s)
  | EmptyString => (acc, n, s)
  end.

(** A [digitpart] read onto the accumulator [acc]: the value, the number
    of digits read and the text that follows. *)
Definition digitpart (acc : Z) (s : string) : option (Z * nat * string) :=
  match s with
  | String c s' =>
      if is_digit c then Some (digits_tail (10 * acc + digit_val c) 1 s')
      else None
  | EmptyString => None
  end.

Definition sign_prefix (s : string) : bool * string :=
  match s with
  | String c s' =>
      if Ascii.eqb c "-" then (true, s')
      else if Ascii.eqb c "+" then (false, s')
      else (false, s)
  | EmptyString => (false, s)
  end.

(** The most digits that [int] reads from a text and that [str] writes:
    [sys.get_int_max_str_digits()], 4300 unless the interpreter is told
    otherwise.  Every digit counts, leading zeros too; the sign,
    underscores and white space do not. *)
Definition max_str_digits : Z := 4300.

Definition py_int (s : string) : res Z :=
  let '(neg, t) := sign_prefix (strip s) in
  match digitpart 0 t with
  | Some (v, n, EmptyString) =>
      if Z.of_nat n <=? max_str_digits then Ret (if neg then - v else v)
      else Raise ValueError
  | _ => Raise ValueError
  end.

(** ** Floats: IEEE 754 binary64 *)

Definition prec : Z := 53.
Definition emax : Z := 1024.

Definition float_zero : spec_float := S754_zero false.

(** The float nearest to an integer (ties to even), infinite past the
    largest float. *)
Definition float_of_Z (n : Z) : spec_float := binary_normalize prec emax n 0 false.

(** The conversion Python applies to an [int] operand of a float
    operation: [OverflowError] when the integer is too large. *)
Definition float_of_int (n : Z) : res spec_float :=
  match float_of_Z n with
  | S754_infinity _ => Raise OverflowError
  | f => Ret f
  end.

Definition float_div (x y : spec_float) : spec_float := SFdiv prec emax x y.
Definition float_mul (x y : spec_float) : spec_float := SFmul prec emax x y.
Definition float_le (x y : spec_float) : bool := SFleb x y.

(** [m * 10 ^ k] rounded once to the nearest float, for [0 <= m]. *)
Definition float_of_decimal (neg : bool) (m k : Z) : spec_float :=
  match m with
  | Zpos p =>
      if 0 <=? k then
        binary_normalize prec emax (if neg then - (m * 10 ^ k) else m * 10 ^ k) 0 neg
      else
        SFdiv prec emax (S754_finite neg p 0)
                        (S754_finite false (Z.to_pos (10 ^ (- k))) 0)
  | _ => S754_zero neg
  end.

Definition lower (c : ascii) : ascii :=
  if (65 <=? code c) && (code c <=? 90) then ascii_of_N (N_of_ascii c + 32) else c.

Fixpoint lowercase (s : string) : string :=
  match s with
  | EmptyString => EmptyString
  | String c s' => String (lower c) (lowercase s')
  end.

(** [number ::= [digitpart] "." digitpart | digitpart ["."]]: the digits
    read as one integer, the number of digits after the point, and the
    text that follows. *)
Definition float_number (s : string) : option (Z * nat * string) :=
  match s with
  | String c s' =>
      if Ascii.eqb c "." then digitpart 0 s'
      else
        match digitpart 0 s with
        | Some (ip, _, String c1 s1) =>
            if Ascii.eqb c1 "." then
              match digitpart ip s1 with
              | Some r => Some r
              | None => Some (ip, O, s1)
              end
            else Some (ip, O, String c1 s1)
        | Some (ip, _, EmptyString) => Some (ip, O, EmptyString)
        | None => None
        end
  | EmptyString => None
  end.

(** [exponent ::= ("e" | "E") [sign] digitpart], to the end of the text. *)
Definition float_exponent (s : string) : option Z :=
  match s with
  | EmptyString => Some 0
  | String c s' =>
      if Ascii.eqb (lower c) "e" then
        let '(neg, t) := sign_prefix s' in
        match digitpart 0 t with
        | Some (v, _, EmptyString) => Some (if neg then - v else v)
        | _ => None
        end
      else None
  end.

(** [float(str)] *)
Definition py_float (s : string) : res spec_float :=
  let '(neg, t) := sign_prefix (strip s) in
  let w := lowercase t in
  if String.eqb w "inf" || String.eqb w "infinity" then Ret (S754_infinity neg)
  else if String.eqb w "nan" then Ret S754_nan
  else
    match float_number t with
    | Some (m, nfrac, rest) =>
        match float_exponent rest with
        | Some e => Ret (float_of_decimal neg m (e - Z.of_nat nfrac))
        | None => Raise ValueError
        end
    | None => Raise ValueError
    end.

(** The integer nearest to [m * 2 ^ e], ties to the even one. *)
Definition round_half_even (m e : Z) : Z :=
  if 0 <=? e then m * 2 ^ e
  else
    let d := 2 ^ (- e) in
    let q := m / d in
    match 2 * (m mod d) ?= d with
    | Lt => q
    | Gt => q + 1
    | Eq => if Z.even q then q else q + 1
    end.

(** [round(x)] of a float, one argument: an [int]. *)
Definition py_round (x : spec_float) : res Z :=
  match x with
  | S754_zero _ => Ret 0
  | S754_finite s m e =>
      let n := round_half_even (Zpos m) e in
      Ret (if s then - n else n)
  | S754_infinity _ => Raise OverflowError
  | S754_nan => Raise ValueError
  end.

(** ** The Python runtime outside the repository

    What the run takes from its environment: the subdivisions of
    [pycountry], each with the alpha-3 code of its country; whether the C
    library's [strftime] pads [%Y] with zeros to four digits (glibc does
    not); and the codecs' decoding of a file into the lines that iterating
    the file object yields. *)

Record decoded : Type := {
  lines : list string;
  (** [false]: after these lines the iteration raised [UnicodeError] *)
  complete : bool
}.

Record runtime : Type := {
  subdivisions : list (string * string);
  strftime_pads_year : bool;
  utf8_decode : list Byte.byte -> decoded;
  (** the body of a UTF-16 file after its byte order mark; [true] for
      big endian *)
  utf16_decode : bool -> list Byte.byte -> decoded
}.

(** ** [time.strptime(raw, '%m/%d/%Y')] and [time.strftime('%Y-%m-%d', t)]

    The [\d] of [%d] and [%Y] matches every Unicode decimal digit; on
    the text of this development, code points below 256, these are the
    digits 0 to 9. *)

Definition in_range (lo hi c : ascii) : bool :=
  (code lo <=? code c) && (code c <=? code hi).

(** [%m]: [1[0-2]|0[1-9]|[1-9]] *)
Definition directive_m (s : string) : option (Z * string) :=
  match s with
  | String a (String b r) =>
      if Ascii.eqb a "1" && in_range "0" "2" b then Some (10 + digit_val b, r)
      else if Ascii.eqb a "0" && in_range "1" "9" b then Some (digit_val b, r)
      else if in_range "1" "9" a then Some (digit_val a, String b r)
      else None
  | String a r => if in_range "1" "9" a then Some (digit_val a, r) else None
  | EmptyString => None
  end.

(** [%d]: [3[0-1]|[1-2]\d|0[1-9]|[1-9]| [1-9]] *)
Definition directive_d (s : string) : option (Z * string) :=
  match s with
  | String a (String b r) =>
      if Ascii.eqb a "3" && in_range "0" "1" b then Some (30 + digit_val b, r)
      else if in_range "1" "2" a && is_digit b then Some (10 * digit_val a + digit_val b, r)
      else if Ascii.eqb a "0" && in_range "1" "9" b then Some (digit_val b, r)
      else if in_range "1" "9" a then Some (digit_val a, String b r)
      else if Ascii.eqb a " " && in_range "1" "9" b then Some (digit_val b, r)
      else None
  | String a r => if in_range "1" "9" a then Some (digit_val a, r) else None
  | EmptyString => None
  end.

(** [%Y]: four digits *)
Definition directive_Y (s : string) : option (Z * string) :=
  match s with
  | String a (String b (String c (String d r))) =>
      if is_digit a && is_digit b && is_digit c && is_digit d then
        Some (1000 * digit_val a + 100 * digit_val b + 10 * digit_val c + digit_val d, r)
      else None
  | _ => None
  end.

Definition literal (c : ascii) (s : string) : option string :=
  match s with
  | String a r => if Ascii.eqb a c then Some r else None
  | EmptyString => None
  end.

Definition is_leap (y : Z) : bool :=
  (y mod 4 =? 0) && (negb (y mod 100 =? 0) || (y mod 400 =? 0)).

Definition days_in_month (y m : Z) : Z :=
  if m =? 2 then (if is_leap y then 29 else 28)
  else if (m =? 4) || (m =? 6) || (m =? 9) || (m =? 11) then 30
  else 31.

(** The format's regular expression matched at the start of the text
    (none of its alternatives leaves a choice to come back to), nothing
    left over, then the date checked as [datetime.date] does: year,
    month and day of the result. *)
Definition strptime (s : string) : res (Z * Z * Z) :=
  let matched :=
    '(m, s1) ← directive_m s;
    s2 ← literal "/" s1;
    '(d, s3) ← directive_d s2;
    s4 ← literal "/" s3;
    '(y, rest) ← directive_Y s4;
    Some (y, m, d, rest) in
  match matched with
  | Some (y, m, d, EmptyString) =>
      if (1 <=? y) && (d <=? days_in_month y m) then Ret (y, m, d)
      else Raise ValueError
  | _ => Raise ValueError
  end.

Definition two_digits (n : Z) : string :=
  String (digit_char (n / 10)) (String (digit_char (n mod 10)) EmptyString).

Definition four_digits (n : Z) : string :=
  String (digit_char (n / 1000)) (String (digit_char (n / 100 mod 10))
    (two_digits (n mod 100))).

Definition strftime (rt : runtime) (t : Z * Z * Z) : string :=
  let '(y, m, d) := t in
  (if strftime_pads_year rt then four_digits y else str_of_Z y)
    +:+ "-" +:+ two_digits m +:+ "-" +:+ two_digits d.

(** ** Field normalizers *)

(** [Item = namedtuple('Item', ['val', 'msg'])]; [val] is [None] or a
    value of the field's type. *)
Record Item (A : Type) : Type := { val : option A; msg : string }.

Arguments Build_Item {A} val msg.
Arguments val {A} i.
Arguments msg {A} i.

Definition get_date (rt : runtime) (raw_date : string) : res (Item string) :=
  except
    (do structured_time <- strptime raw_date;
     Ret {| val := Some (strftime rt structured_time); msg := "OK" |})
    (fun e =>
       match e with
       | ValueError => Some {| val := None; msg := "invalid date format" |}
       | _ => None
       end).

Definition get_country (state : string) (state_country : gmap string string)
  : Item string :=
  {| val := Some (default "XXX" (state_country !! state)); msg := "OK" |}.

Definition get_impressions (raw_impress : string) : res (Item Z) :=
  except
    (do impress_count <- py_int raw_impress;
     do _ <- py_assert (0 <=? impress_count);
     Ret {| val := Some impress_count; msg := "OK" |})
    (fun e =>
       match e with
       | ValueError =>
           Some {| val := None;
                   msg := "value of number of impressions is not an integer" |}
       | AssertionError =>
           Some {| val := None;
                   msg := "value of number of impressions is negative" |}
       | _ => None
       end).

Definition get_clicks (raw_impress raw_ctr : string) : res (Item Z) :=
  except
    (do impress_count <- py_int raw_impress;
     do i <- rindex raw_ctr "%";
     do percentage <- py_float (slice_to raw_ctr i);
     let ctr := float_div percentage (float_of_Z 100) in
     do _ <- py_assert (float_le ctr (float_of_Z 1) && float_le float_zero ctr);
     do operand <- float_of_int impress_count;
     do click_count <- py_round (float_mul ctr operand);
     Ret {| val := Some click_count; msg := "OK" |})
    (fun e =>
       match e with
       | ValueError =>
           Some {| val := None;
                   msg := "unable to compute number of clicks due to invalid format of ctr and/or number of impressions" |}
       | AssertionError =>
           Some {| val := None;
                   msg := "ctr percentage is outside [0, 100] interval" |}
       | _ => None
       end).

(** [map_state_country]: a later subdivision of the same name replaces
    an earlier one. *)
Definition map_state_country (rt : runtime) : gmap string string :=
  fold_left (fun state_country '(name, alpha_3) => <[name := alpha_3]> state_country)
            (subdivisions rt) ∅.

(** ** The [metrics] table *)

Definition row : Type := string * string * Z * Z.

Definition int64 (n : Z) : bool := (- 2 ^ 63 <=? n) && (n <? 2 ^ 63).

(** [INSERT INTO metrics VALUES (?, ?, ?, ?)]: an integer parameter
    outside the 64-bit range raises [OverflowError]. *)
Definition insert (metrics : list row) (r : row) : res (list row) :=
  let '(_, _, impressions, clicks) := r in
  if int64 impressions && int64 clicks then Ret (metrics ++ [r])
  else Raise OverflowError.

(** The accumulator of SQLite's [SUM] over integers: [None] once an
    addition has left the 64-bit range; the query then fails. *)
Definition sum_state : Type := option Z.

Definition sum_step (p : sum_state) (v : Z) : sum_state :=
  match p with
  | Some i_sum => if int64 (i_sum + v) then Some (i_sum + v) else None
  | None => None
  end.

Definition sum_finalize (p : sum_state) : res Z :=
  match p with
  | Some i_sum => Ret i_sum
  | None => Raise OperationalError
  end.

Definition sum_init : sum_state := Some 0.

Definition key : Type := string * string.

(** [ORDER BY date, country]: text compared code point by code point. *)
Definition key_compare (k1 k2 : key) : comparison :=
  match String.compare (fst k1) (fst k2) with
  | Eq => String.compare (snd k1) (snd k2)
  | c => c
  end.

Record group : Type := {
  group_key : key;
  sum_impressions : sum_state;
  sum_clicks : sum_state
}.

Definition row_key (r : row) : key := let '(d, c, _, _) := r in (d, c).

Definition group_add (g : group) (r : row) : group :=
  let '(_, _, impressions, clicks) := r in
  {| group_key := group_key g;
     sum_impressions := sum_step (sum_impressions g) impressions;
     sum_clicks := sum_step (sum_clicks g) clicks |}.

Definition group_new (r : row) : group :=
  group_add {| group_key := row_key r;
               sum_impressions := sum_init; sum_clicks := sum_init |} r.

(** One row enters the groups, which are kept in key order. *)
Fixpoint group_by (r : row) (groups : list group) : list group :=
  match groups with
  | [] => [group_new r]
  | g :: rest =>
      match key_compare (row_key r) (group_key g) with
      | Lt => group_new r :: g :: rest
      | Eq => group_add g r :: rest
      | Gt => g :: group_by r rest
      end
  end.

Definition group_result (g : group) : res row :=
  do impressions <- sum_finalize (sum_impressions g);
  do clicks <- sum_finalize (sum_clicks g);
  Ret (fst (group_key g), snd (group_key g), impressions, clicks).

Fixpoint map_res {A B : Type} (f : A -> res B) (l : list A) : res (list B) :=
  match l with
  | [] => Ret []
  | a :: rest =>
      do b <- f a;
      do bs <- map_res f rest;
      Ret (b :: bs)
  end.

(** [SELECT date, country, SUM(impressions), SUM(clicks) FROM metrics
     GROUP BY date, country ORDER BY date, country] *)
Definition process_data (metrics : list row) : res (list row) :=
  map_res group_result (fold_left (fun groups r => group_by r groups) metrics []).

Definition write_data (data : list row) : list string :=
  map (fun '(d, c, impressions, clicks) =>
         d +:+ "," +:+ c +:+ "," +:+ str_of_Z impressions +:+ ","
           +:+ str_of_Z clicks +:+ String "010" EmptyString)
      data.

(** ** Row processing *)

(** The dictionary [entry], its four keys in insertion order. *)
Record entry : Type := {
  date : Item string;
  country : Item string;
  impressions : Item Z;
  clicks : Item Z
}.

(** Python's truth value of a field value: the empty text and zero are
    false. *)
Class Truth (A : Type) : Type := truth : A -> bool.

#[export] Instance str_truth : Truth string := fun s => negb (String.eqb s "").
#[export] Instance int_truth : Truth Z := fun n => negb (n =? 0).

(** [not v] *)
Definition py_not {A : Type} `{Truth A} (v : option A) : bool :=
  match v with
  | None => true
  | Some a => negb (truth a)
  end.

(** [entry.values()]: of each item, [not item.val] and [item.msg]. *)
Definition view {A : Type} `{Truth A} (i : Item A) : bool * string :=
  (py_not (val i), msg i).

Definition values (e : entry) : list (bool * string) :=
  [view (date e); view (country e); view (impressions e); view (clicks e)].

(** The normalizer calls a line makes, in the order they are made. *)
Inductive call : Type :=
  | Call_get_date (raw_date : string)
  | Call_get_country (state : string)
  | Call_get_impressions (raw_impress : string)
  | Call_get_clicks (raw_impress raw_ctr : string).

Definition traced (A : Type) : Type := list call * res A.

Definition tbind {A B : Type} (m : traced A) (k : A -> traced B) : traced B :=
  match m with
  | (t1, Ret a) => let '(t2, r) := k a in (t1 ++ t2, r)
  | (t1, Raise e) => (t1, Raise e)
  end.

Notation "'next' x <- m ; k" := (tbind m (fun x => k))
  (at level 10, x name, m at level 100, k at level 200).

Definition quiet {A : Type} (r : res A) : traced A := ([], r).
Definition invoke {A : Type} (c : call) (r : res A) : traced A := ([c], r).

(** The dictionary display of [read_data]: subscripts and calls are
    evaluated left to right, so a missing column is only met after the
    normalizers of the columns before it have run. *)
Definition build_entry (rt : runtime) (state_country : gmap string string)
    (raw_entry : list string) : traced entry :=
  next x0 <- quiet (item raw_entry 0);
  next d <- invoke (Call_get_date x0) (get_date rt x0);
  next x1 <- quiet (item raw_entry 1);
  next c <- invoke (Call_get_country x1) (Ret (get_country x1 state_country));
  next x2 <- quiet (item raw_entry 2);
  next i <- invoke (Call_get_impressions x2) (get_impressions x2);
  next y2 <- quiet (item raw_entry 2);
  next y3 <- quiet (item raw_entry 3);
  next k <- invoke (Call_get_clicks y2 y3) (get_clicks y2 y3);
  quiet (Ret {| date := d; country := c; impressions := i; clicks := k |}).

Inductive outcome : Type :=
  (** the row handed to [INSERT] *)
  | Valid (r : row)
  (** the line printed to the error stream *)
  | Invalid (diagnostic : string)
  (** an exception no handler of [read_data] names *)
  | Uncaught (e : exn).

Definition error_in_line (counter : Z) (reason : string) : string :=
  "Error in line " +:+ str_of_Z counter +:+ ": " +:+ reason.

(** The body of the loop of [read_data] up to the [INSERT]. *)
Definition process_row (rt : runtime) (state_country : gmap string string)
    (counter : Z) (line : string) : list call * outcome :=
  let raw_entry := split "," line in
  let '(calls, built) := build_entry rt state_country raw_entry in
  (calls,
   match built with
   | Raise IndexError => Invalid (error_in_line counter "missing column")
   | Raise e => Uncaught e
   | Ret e =>
       match val (date e), val (country e), val (impressions e), val (clicks e) with
       | Some d, Some c, Some i, Some k => Valid (d, c, i, k)
       | _, _, _, _ =>
           (* [None in [item.val for item in entry.values()]] *)
           let err_msg := join " & " (map snd (List.filter fst (values e))) in
           Invalid (error_in_line counter err_msg)
       end
   end).

(** What outlives a call of [read_data]: the table behind the cursor
    and the error stream. *)
Record world : Type := { metrics : list row; stderr : list string }.

(** One turn of the loop, on the world and [error_count]. *)
Definition step (rt : runtime) (state_country : gmap string string)
    (counter : Z) (st : world * Z) (line : string) : res (world * Z) :=
  let '(w, error_count) := st in
  match snd (process_row rt state_country counter line) with
  | Valid r =>
      do m <- insert (metrics w) r;
      Ret ({| metrics := m; stderr := stderr w |}, error_count)
  | Invalid diagnostic =>
      Ret ({| metrics := metrics w; stderr := stderr w ++ [diagnostic] |},
           error_count + 1)
  | Uncaught e => Raise e
  end.

(** The loop: an exception leaves the world as the lines before it made
    it. *)
Fixpoint read_lines (rt : runtime) (state_country : gmap string string)
    (ls : list string) (counter : Z) (st : world * Z) : world * res Z :=
  match ls with
  | [] => (fst st, Ret (snd st))
  | line :: rest =>
      match step rt state_country counter st line with
      | Ret st' => read_lines rt state_country rest (counter + 1) st'
      | Raise e => (fst st, Raise e)
      end
  end.

Definition read_data (rt : runtime) (f : decoded) (cur : world) : world * res string :=
  let state_country := map_state_country rt in
  match read_lines rt state_country (lines f) 1 (cur, 0) with
  | (w, Ret error_count) =>
      if complete f then
        (w, Ret ("Total number of invalid lines in the input file: "
                   +:+ str_of_Z error_count))
      else (w, Raise UnicodeError)
  | (w, Raise e) => (w, Raise e)
  end.

(** ** The run *)

Inductive encoding : Type := utf_8 | utf_16.

(** [open(file_path, 'r', encoding=encoding)] and the iteration over it.
    The UTF-8 decoder rejects a first byte [0xFE] or [0xFF] before any
    line is produced; the UTF-16 decoder demands a byte order mark. *)
Definition open_file (rt : runtime) (enc : encoding) (file : list Byte.byte) : decoded :=
  match enc with
  | utf_8 =>
      match file with
      | [] => {| lines := []; complete := true |}
      | b :: _ =>
          if Byte.eqb b Byte.xfe || Byte.eqb b Byte.xff then
            {| lines := []; complete := false |}
          else utf8_decode rt file
      end
  | utf_16 =>
      match file with
      | [] => {| lines := []; complete := true |}
      | [_] => {| lines := []; complete := false |}
      | b0 :: b1 :: body =>
          if Byte.eqb b0 Byte.xff && Byte.eqb b1 Byte.xfe then utf16_decode rt false body
          else if Byte.eqb b0 Byte.xfe && Byte.eqb b1 Byte.xff then utf16_decode rt true body
          else {| lines := []; complete := false |}
      end
  end.

Inductive run : Type :=
  (** the report, the lines written to the output file, the summary
      printed at the end and the error stream *)
  | Processed (data : list row) (output : list string) (error_msg : string)
              (diagnostics : list string)
  (** neither encoding fits: nothing is written *)
  | Invalid_encoding (diagnostics : list string)
  | Traceback (e : exn).

Definition create_db : world := {| metrics := []; stderr := [] |}.

Definition finish (w : world) (error_msg : string) : run :=
  match process_data (metrics w) with
  | Ret data => Processed data (write_data data) error_msg (stderr w)
  | Raise e => Traceback e
  end.

(** [main] from [create_db()] on (lines 247 to 270): what the run does
    with the content of the input file, once [get_file_paths()] has
    returned the two paths and when the files at these paths open.  The
    call of [get_file_paths] is the function of this name below; the
    errors of the operating system on the way ([OSError] of
    [os.listdir] and [open], [EOFError] of [input]) are not part of
    [run]. *)
Definition main (rt : runtime) (file : list Byte.byte) : run :=
  let cur := create_db in
  match read_data rt (open_file rt utf_8 file) cur with
  | (w, Ret error_msg) => finish w error_msg
  | (w, Raise UnicodeError) =>
      match read_data rt (open_file rt utf_16 file) w with
      | (w', Ret error_msg) => finish w' error_msg
      | (w', Raise UnicodeError) => Invalid_encoding (stderr w')
      | (_, Raise e) => Traceback e
      end
  | (_, Raise e) => Traceback e
  end.

(** ** A runtime to evaluate runs on

    Three subdivisions, glibc's unpadded year, and the decoders on files
    of ASCII text, in which a byte of 128 or more stands for bytes that
    do not decode.  A file is decoded in chunks of 8192 bytes, and a
    chunk that does not decode fails as a whole: the iteration yields
    the lines that the chunks before it have completed and then raises
    [UnicodeError]. *)

(** The lines of a text as a file opened with universal newlines yields
    them: a line ends at a line feed, at a carriage return or at a
    carriage return and a line feed, each read as one line feed. *)
Fixpoint split_lines (s : string) : list string :=
  match s with
  | EmptyString => []
  | String c s' =>
      if Ascii.eqb c "010" then String "010" EmptyString :: split_lines s'
      else if Ascii.eqb c "013" then
        match s' with
        | String "010" s'' => String "010" EmptyString :: split_lines s''
        | _ => String "010" EmptyString :: split_lines s'
        end
      else match split_lines s' with
           | h :: t => String c h :: t
           | [] => [String c EmptyString]
           end
  end.

Definition is_ascii_byte (b : Byte.byte) : bool := (Byte.to_N b <? 128)%N.

Definition chunk_size : nat := Z.to_nat 8192.

(** The chunks a file is read in: the first of [size] bytes, the others
    of [chunk_size] bytes, the last one as long as what is left. *)
Fixpoint chunks (fuel : nat) (size : nat) (file : list Byte.byte)
  : list (list Byte.byte) :=
  match fuel, file with
  | S fuel', _ :: _ => firstn size file :: chunks fuel' chunk_size (skipn size file)
  | _, _ => []
  end.

(** The text of the chunks before the first one that does not decode,
    and whether all of them have decoded. *)
Fixpoint decode_chunks (decode : list Byte.byte -> option (list Byte.byte))
    (cs : list (list Byte.byte)) : list Byte.byte * bool :=
  match cs with
  | [] => ([], true)
  | c :: rest =>
      match decode c with
      | Some text => let '(more, ok) := decode_chunks decode rest in (text ++ more, ok)
      | None => ([], false)
      end
  end.

Fixpoint ends_with_line_feed (s : string) : bool :=
  match s with
  | EmptyString => false
  | String c EmptyString => Ascii.eqb c "010"
  | String _ s' => ends_with_line_feed s'
  end.

(** The lines the iteration yields: all of them when the file has
    decoded to its end; otherwise those the decoded text has completed,
    a carriage return at its end still waiting for what follows. *)
Definition yielded (decoding : list Byte.byte * bool) : decoded :=
  let '(text, ok) := decoding in
  let ls := split_lines (string_of_list_byte text) in
  if ok then {| lines := ls; complete := true |}
  else {| lines := if ends_with_line_feed (string_of_list_byte text) then ls
                   else removelast ls;
          complete := false |}.

Definition ascii_chunk (c : list Byte.byte) : option (list Byte.byte) :=
  if forallb is_ascii_byte c then Some c else None.

Definition ascii_utf8_decode (file : list Byte.byte) : decoded :=
  yielded (decode_chunks ascii_chunk (chunks (length file) chunk_size file)).

Fixpoint utf16_units (big_endian : bool) (body : list Byte.byte) : option (list Byte.byte) :=
  match body with
  | [] => Some []
  | b0 :: b1 :: rest =>
      let '(high, low) := if big_endian then (b0, b1) else (b1, b0) in
      if (Byte.to_N high =? 0)%N && is_ascii_byte low then
        option_map (cons low) (utf16_units big_endian rest)
      else None
  | [_] => None
  end.

(** The first chunk held the two bytes of the byte order mark. *)
Definition ascii_utf16_decode (big_endian : bool) (body : list Byte.byte) : decoded :=
  yielded (decode_chunks (utf16_units big_endian)
             (chunks (length body) (chunk_size - 2) body)).

Definition sample_runtime : runtime :=
  {| subdivisions := [("California", "USA"); ("Texas", "USA"); ("Ontario", "CAN")];
     strftime_pads_year := false;
     utf8_decode := ascii_utf8_decode;
     utf16_decode := ascii_utf16_decode |}.

Definition utf8_bytes (text : string) : list Byte.byte := list_byte_of_string text.

(** The text in little-endian UTF-16 behind a byte order mark. *)
Definition utf16_bytes (text : string) : list Byte.byte :=
  Byte.xff :: Byte.xfe
    :: flat_map (fun b => [b; Byte.x00]) (list_byte_of_string text).

Definition line_feed : string := String "010" EmptyString.

(** ** Vocabulary of the properties *)

(** A normalizer returned an item with a value, or with [None]. *)
Definition has_value {A : Type} (r : res (Item A)) : Prop :=
  exists v m, r = Ret {| val := Some v; msg := m |}.

Definition no_value {A : Type} (r : res (Item A)) : Prop :=
  exists m, r = Ret {| val := None; msg := m |}.

(** The ctr text is well formed and in range: it has a [%], the text
    before the last one reads as a float, and that float over 100, [ctr],
    passes [1 >= ctr >= 0]. *)
Definition valid_ctr (raw_ctr : string) (ctr : spec_float) : Prop :=
  exists i percentage,
    rindex raw_ctr "%" = Ret i /\
    py_float (slice_to raw_ctr i) = Ret percentage /\
    ctr = float_div percentage (float_of_Z 100) /\
    float_le ctr (float_of_Z 1) = true /\
    float_le float_zero ctr = true.

(** A row as [read_data] inserts them: counts that are not negative and
    fit SQLite's integers. *)
Definition accepted (r : row) : Prop :=
  let '(_, _, i, k) := r in (0 <= i < 2 ^ 63) /\ (0 <= k < 2 ^ 63).

Definition key_lt (k1 k2 : key) : Prop := key_compare k1 k2 = Lt.

Definition impressions_of (r : row) : Z := let '(_, _, i, _) := r in i.
Definition clicks_of (r : row) : Z := let '(_, _, _, k) := r in k.

Definition sum_list (l : list Z) : Z := fold_right Z.add 0 l.

(** The rows of a key, and the exact sum of one of their columns. *)
Definition rows_of (k : key) (metrics : list row) : list row :=
  List.filter (fun r => bool_decide (row_key r = k)) metrics.

Definition group_total (column : row -> Z) (k : key) (metrics : list row) : Z :=
  sum_list (map column (rows_of k metrics)).

(** A running sum that has not overflowed is not negative. *)
Definition nonneg (p : sum_state) : Prop :=
  match p with
  | Some s => 0 <= s
  | None => True
  end.

Definition sound_group (g : group) : Prop :=
  nonneg (sum_impressions g) /\ nonneg (sum_clicks g).

(** SQLite's sum of a column, from the first value on. *)
Definition sum_of (l : list Z) : sum_state := fold_left sum_step l sum_init.

Definition groups_of (metrics : list row) : list group :=
  fold_left (fun groups r => group_by r groups) metrics [].

(** Date texts.  [is_mmddyyyy]: two digits, a slash,
    two digits, a slash, four digits, the month from 1 to 12 and the day
    one of that month in that year. *)
Definition is_mmddyyyy (raw : string) : bool :=
  match raw with
  | String m1 (String m2 (String s1 (String d1 (String d2 (String s2
      (String y1 (String y2 (String y3 (String y4 EmptyString))))))))) =>
      let m := 10 * digit_val m1 + digit_val m2 in
      let d := 10 * digit_val d1 + digit_val d2 in
      let y := 1000 * digit_val y1 + 100 * digit_val y2 + 10 * digit_val y3 + digit_val y4 in
      is_digit m1 && is_digit m2 && Ascii.eqb s1 "/" && is_digit d1 && is_digit d2
      && Ascii.eqb s2 "/" && is_digit y1 && is_digit y2 && is_digit y3 && is_digit y4
      && (1 <=? m) && (m <=? 12) && (1 <=? d) && (d <=? days_in_month y m)
  | _ => false
  end.

(** The month written with one or two digits. *)
Definition month_of (t : string) : option Z :=
  match t with
  | String a EmptyString => if is_digit a then Some (digit_val a) else None
  | String a (String b EmptyString) =>
      if is_digit a && is_digit b then Some (10 * digit_val a + digit_val b) else None
  | _ => None
  end.

(** The day written with one or two digits, or with a space and a digit. *)
Definition day_of (t : string) : option Z :=
  match t with
  | String a EmptyString => if is_digit a then Some (digit_val a) else None
  | String a (String b EmptyString) =>
      if is_digit a && is_digit b then Some (10 * digit_val a + digit_val b)
      else if Ascii.eqb a " " && is_digit b then Some (digit_val b)
      else None
  | _ => None
  end.

(** The year written with four digits. *)
Definition year_of (t : string) : option Z :=
  match t with
  | String a (String b (String c (String d EmptyString))) =>
      if is_digit a && is_digit b && is_digit c && is_digit d then
        Some (1000 * digit_val a + 100 * digit_val b + 10 * digit_val c + digit_val d)
      else None
  | _ => None
  end.

(** [raw] is month, slash, day, slash, year, and names a day of the
    calendar from the year 1 on. *)
Definition reads_as (raw : string) (y m d : Z) : Prop :=
  exists tm td ty,
    raw = tm +:+ "/" +:+ td +:+ "/" +:+ ty /\
    month_of tm = Some m /\ day_of td = Some d /\ year_of ty = Some y /\
    1 <= m <= 12 /\ 1 <= d <= days_in_month y m /\ 1 <= y.

(** [YYYY-MM-DD] made of the digits of a text [MM/DD/YYYY]. *)
Definition reformatted (raw : string) : string :=
  String.substring 6 4 raw +:+ "-" +:+ String.substring 0 2 raw +:+ "-"
    +:+ String.substring 3 2 raw.

(** The bits a right shift has dropped were not all zero. *)
Definition inexact (x : shr_record) : bool := shr_r x || shr_s x.

(** The float of mantissa [m] and exponent [e] is the integer [n]. *)
Definition represents (n : Z) (m : positive) (e : Z) : Prop :=
  (0 <= e /\ n = Zpos m * 2 ^ e) \/ (e < 0 /\ Zpos m = n * 2 ^ (- e)).

(** The item [get_clicks] returns when it cannot compute a count. *)
Definition unable : Item Z :=
  {| val := None;
     msg := "unable to compute number of clicks due to invalid format of ctr and/or number of impressions" |}.

(** A file of two valid lines. *)
Definition two_lines : string :=
  "01/01/2019,Texas,100,10%" +:+ line_feed +:+ "01/01/2019,California,50,20%" +:+ line_feed.

(** Each group holds the sums of SQLite over the rows of its key. *)
Definition sums_agree (groups : list group) (l : list row) : Prop :=
  forall g, In g groups ->
    sum_impressions g = sum_of (map impressions_of (rows_of (group_key g) l)) /\
    sum_clicks g = sum_of (map clicks_of (rows_of (group_key g) l)).

(** A table of four rows in three groups. *)
Definition sample_rows : list row :=
  [("2019-01-02", "USA", 5, 1); ("2019-01-01", "USA", 100, 10);
   ("2019-01-01", "CAN", 7, 0); ("2019-01-01", "USA", 50, 10)].

(** ** [get_file_paths]

    The paths of the input file and of the output file, from what the
    user types.  [settings] is the package's settings module; the two
    listings are what the two calls of [os.listdir] return; [inputs] are
    the lines that [input] reads, one for each turn of the loop. *)

Record settings : Type := {
  INPUT_DIR_PATH : string;
  OUTPUT_DIR_PATH : string;
  OUTPUT_FILE_NAME_SUFFIX : string
}.

Fixpoint ends_with (c : ascii) (s : string) : bool :=
  match s with
  | EmptyString => false
  | String a EmptyString => Ascii.eqb a c
  | String _ s' => ends_with c s'
  end.

(** [os.path.join(a, b)] of [posixpath]. *)
Definition path_join (a b : string) : string :=
  match b with
  | String "/" _ => b
  | _ =>
      if String.eqb a "" || ends_with "/" a then a +:+ b
      else a +:+ "/" +:+ b
  end.

(** [l[i]] for an integer [i]: a negative index counts from the end. *)
Definition subscript {A : Type} (l : list A) (i : Z) : res A :=
  let j := if i <? 0 then i + Z.of_nat (length l) else i in
  if j <? 0 then Raise IndexError else item l (Z.to_nat j).

(** [s[i:]] *)
Definition slice_from (s : string) (i : nat) : string :=
  String.substring i (String.length s - i)%nat s.

(** [[str(i) for i in range(len(files))]] *)
Definition file_nums (files : list string) : list string :=
  map (fun i => str_of_Z (Z.of_nat i)) (seq 0 (length files)).

(** [x in l] for texts. *)
Definition contains (l : list string) (x : string) : bool :=
  existsb (String.eqb x) l.

(** How a call that reads from the user ends: with a result, with
    [sys.exit()], with the [EOFError] of [input] when nothing is left to
    read, or with another exception. *)
Inductive prompt (A : Type) : Type :=
  | Answered (a : A)
  | Exited
  | End_of_input
  | Failed (e : exn).

Arguments Answered {A} a.
Arguments Exited {A}.
Arguments End_of_input {A}.
Arguments Failed {A} e.

(** The [while True] loop: one turn for each line read. *)
Fixpoint select (nums : list string) (inputs : list string) : prompt Z :=
  match inputs with
  | [] => End_of_input
  | user_input :: rest =>
      if contains nums user_input then
        match py_int user_input with
        | Ret file_no => Answered file_no
        | Raise e => Failed e
        end
      else if String.eqb user_input "q" then Exited
      else select nums rest
  end.

Definition out_filename (suffix in_filename : string) : string :=
  match rfind "." in_filename with
  | None => in_filename +:+ suffix
  | Some ext_pos =>
      slice_to in_filename ext_pos +:+ suffix +:+ slice_from in_filename ext_pos
  end.

Definition get_file_paths (st : settings) (files files_again : list string)
    (inputs : list string) : prompt (string * string) :=
  match select (file_nums files) inputs with
  | Answered file_no =>
      match subscript files_again file_no with
      | Ret in_filename =>
          Answered (path_join (INPUT_DIR_PATH st) in_filename,
                    path_join (OUTPUT_DIR_PATH st)
                      (out_filename (OUTPUT_FILE_NAME_SUFFIX st) in_filename))
      | Raise e => Failed e
      end
  | Exited => Exited
  | End_of_input => End_of_input
  | Failed e => Failed e
  end.

(** ** Vocabulary of further properties *)

(** No character of the text is [c]. *)
Fixpoint free_of (c : ascii) (s : string) : bool :=
  match s with
  | EmptyString => true
  | String a s' => negb (Ascii.eqb a c) && free_of c s'
  end.

(** An integer that [str] writes and [int] reads back: its decimal text
    has [max_str_digits] digits at most. *)
Definition fits_str_digits (n : Z) : Prop := Z.abs n < 10 ^ max_str_digits.

(** No character of the text is white space; all of them are. *)
Fixpoint spaceless (s : string) : bool :=
  match s with
  | EmptyString => true
  | String a s' => negb (is_space a) && spaceless s'
  end.

Fixpoint blank (s : string) : bool :=
  match s with
  | EmptyString => true
  | String a s' => is_space a && blank s'
  end.

(** The sum of one running sum over all groups, if none has overflowed. *)
Definition total_of (column : group -> sum_state) (groups : list group) : option Z :=
  fold_right (fun g acc =>
                match column g, acc with
                | Some v, Some t => Some (v + t)
                | _, _ => None
                end)
             (Some 0) groups.

(** A runtime in which one subdivision name is listed for two
    countries. *)
Definition listed_twice : runtime :=
  {| subdivisions := [("Punjab", "IND"); ("Texas", "USA"); ("Punjab", "PAK")];
     strftime_pads_year := false;
     utf8_decode := ascii_utf8_decode;
     utf16_decode := ascii_utf16_decode |}.

(** The order of the calendar on year, month and day. *)
Definition calendar_compare (t1 t2 : Z * Z * Z) : comparison :=
  let '(y1, m1, d1) := t1 in
  let '(y2, m2, d2) := t2 in
  match y1 ?= y2 with
  | Eq => match m1 ?= m2 with
          | Eq => d1 ?= d2
          | c => c
          end
  | c => c
  end.

(** Settings to evaluate [get_file_paths] on. *)
Definition sample_settings : settings :=
  {| INPUT_DIR_PATH := "input"; OUTPUT_DIR_PATH := "output";
     OUTPUT_FILE_NAME_SUFFIX := "_out" |}.

(** A text [n] times over. *)
Fixpoint repeated (n : nat) (s : string) : string :=
  match n with
  | O => EmptyString
  | S n' => s +:+ repeated n' s
  end.

(** A file of more than one chunk whose UTF-8 decoding fails in its
    second chunk: 400 times a valid line and a line of one column, then
    a byte that no UTF-8 text holds. *)
Definition interrupted_file : list Byte.byte :=
  utf8_bytes (repeated 400 ("01/01/2019,Texas,100,10%" +:+ line_feed
                              +:+ "x" +:+ line_feed))
    ++ [Byte.xff].

(** Two valid lines of one date and country whose impressions add up
    to 2 ^ 63. *)
Definition overflowing_lines : string :=
  "01/01/2019,Texas,4611686018427387904,0%" +:+ line_feed
    +:+ "01/01/2019,Texas,4611686018427387904,0%" +:+ line_feed.

(** * Properties *)

(** ** Which exceptions the built-ins and the normalizers raise *)

Lemma py_int_raises (s : string) (e : exn) : py_int s = Raise e -> e = ValueError.
Proof.
  unfold py_int. destruct (sign_prefix (strip s)) as [neg t].
  destruct (digitpart 0 t) as [[[v n] [|c r]]|]; try congruence.
  destruct (Z.of_nat n <=? max_str_digits); congruence.
Qed.

Lemma strptime_raises (s : string) (e : exn) : strptime s = Raise e -> e = ValueError.
Proof.
  unfold strptime.
  match goal with |- match ?m with _ => _ end = _ -> _ => destruct m as [[[[y m'] d] [|c r]]|] end;
    try congruence.
  destruct (_ && _); congruence.
Qed.

Lemma rindex_raises (s : string) (c : ascii) (e : exn) :
  rindex s c = Raise e -> e = ValueError.
Proof. unfold rindex. destruct (rfind c s); congruence. Qed.

Lemma py_float_raises (s : string) (e : exn) : py_float s = Raise e -> e = ValueError.
Proof.
  unfold py_float. destruct (sign_prefix (strip s)) as [neg t].
  destruct (_ || _); [congruence|].
  destruct (String.eqb _ _); [congruence|].
  destruct (float_number t) as [[[m n] r]|]; [|congruence].
  destruct (float_exponent r); congruence.
Qed.

(** [get_date] always returns an item. *)
Lemma get_date_returns (rt : runtime) (raw : string) :
  exists i, get_date rt raw = Ret i.
Proof.
  unfold get_date, except, bind.
  destruct (strptime raw) as [t|e] eqn:E; [eauto|].
  apply strptime_raises in E as ->. eauto.
Qed.

(** [get_impressions] always returns an item. *)
Lemma get_impressions_returns (raw : string) : exists i, get_impressions raw = Ret i.
Proof.
  unfold get_impressions, except, bind, py_assert.
  destruct (py_int raw) as [n|e] eqn:E.
  - destruct (0 <=? n); eauto.
  - apply py_int_raises in E as ->. eauto.
Qed.

Lemma get_impressions_spec (raw : string) :
  get_impressions raw =
    Ret match py_int raw with
        | Ret n =>
            if 0 <=? n then {| val := Some n; msg := "OK" |}
            else {| val := None; msg := "value of number of impressions is negative" |}
        | Raise _ =>
            {| val := None; msg := "value of number of impressions is not an integer" |}
        end.
Proof.
  unfold get_impressions, except, bind, py_assert.
  destruct (py_int raw) as [n|e] eqn:E.
  - destruct (0 <=? n); reflexivity.
  - apply py_int_raises in E as ->. reflexivity.
Qed.

(** [get_clicks] once the ctr text is known to be valid. *)
Lemma get_clicks_valid_ctr (raw_impress raw_ctr : string) (ctr : spec_float) :
  valid_ctr raw_ctr ctr ->
  get_clicks raw_impress raw_ctr =
    match py_int raw_impress with
    | Raise _ => Ret unable
    | Ret n =>
        match float_of_int n with
        | Raise _ => Raise OverflowError
        | Ret operand =>
            match py_round (float_mul ctr operand) with
            | Ret k => Ret {| val := Some k; msg := "OK" |}
            | Raise ValueError => Ret unable
            | Raise _ => Raise OverflowError
            end
        end
    end.
Proof.
  intros (i & f & Hi & Hf & -> & H1 & H0).
  unfold get_clicks, except, bind, py_assert.
  destruct (py_int raw_impress) as [n|e] eqn:E.
  - rewrite Hi, Hf, H1, H0. simpl.
    unfold float_of_int.
    destruct (float_of_Z n); simpl; try reflexivity;
      match goal with |- context [float_mul ?x ?y] => destruct (float_mul x y) end;
      reflexivity.
  - apply py_int_raises in E as ->. reflexivity.
Qed.

(** A valid rate is a zero or a positive finite float. *)
Lemma valid_ctr_shape (raw_ctr : string) (ctr : spec_float) :
  valid_ctr raw_ctr ctr ->
  (exists s, ctr = S754_zero s) \/ (exists m e, ctr = S754_finite false m e).
Proof.
  intros (i & f & _ & _ & _ & H1 & H0).
  destruct ctr as [s|s| |s m e]; eauto.
  - destruct s; discriminate.
  - discriminate.
  - destruct s; [discriminate|eauto].
Qed.

Lemma get_clicks_zero (raw_ctr : string) (ctr : spec_float) :
  valid_ctr raw_ctr ctr ->
  get_clicks "0" raw_ctr = Ret {| val := Some 0; msg := "OK" |}.
Proof.
  intros H. rewrite (get_clicks_valid_ctr _ _ _ H).
  destruct (valid_ctr_shape _ _ H) as [[s ->]|(m & e & ->)]; reflexivity.
Qed.

(** The entry of a line with four columns or more. *)
Lemma build_entry_four (rt : runtime) (sc : gmap string string)
    (x0 x1 x2 x3 : string) (rest : list string) :
  exists d i,
    get_date rt x0 = Ret d /\ get_impressions x2 = Ret i /\
    build_entry rt sc (x0 :: x1 :: x2 :: x3 :: rest) =
      ([Call_get_date x0; Call_get_country x1; Call_get_impressions x2;
        Call_get_clicks x2 x3],
       match get_clicks x2 x3 with
       | Ret k => Ret {| date := d; country := get_country x1 sc;
                         impressions := i; clicks := k |}
       | Raise e => Raise e
       end).
Proof.
  destruct (get_date_returns rt x0) as [d Hd].
  destruct (get_impressions_returns x2) as [i Hi].
  exists d, i. repeat split; try assumption.
  unfold build_entry, tbind, quiet, invoke, item. simpl.
  rewrite Hd, Hi. destruct (get_clicks x2 x3); reflexivity.
Qed.

(** C10. A line of four columns with a valid date, any subdivision, the
    impressions text "0" and a valid ctr in range is accepted: the row
    handed to the table has impressions 0 and clicks 0, and the loop
    inserts it without counting an error. *)
Theorem zero_metrics_accepted (rt : runtime) (sc : gmap string string)
    (counter : Z) (line x0 x1 x3 d : string) (ctr : spec_float)
    (w : world) (error_count : Z) :
  split "," line = [x0; x1; "0"; x3] ->
  get_date rt x0 = Ret {| val := Some d; msg := "OK" |} ->
  valid_ctr x3 ctr ->
  snd (process_row rt sc counter line) = Valid (d, default "XXX" (sc !! x1), 0, 0) /\
  step rt sc counter (w, error_count) line =
    Ret ({| metrics := metrics w ++ [(d, default "XXX" (sc !! x1), 0, 0)];
            stderr := stderr w |}, error_count).
Proof.
  intros Hsplit Hdate Hctr.
  assert (Hrow : snd (process_row rt sc counter line)
                 = Valid (d, default "XXX" (sc !! x1), 0, 0)).
  { unfold process_row. rewrite Hsplit.
    destruct (build_entry_four rt sc x0 x1 "0" x3 []) as (d' & i & Hd & Hi & ->).
    rewrite (get_clicks_zero _ _ Hctr).
    rewrite Hdate in Hd. injection Hd as <-.
    rewrite get_impressions_spec in Hi. injection Hi as <-.
    reflexivity. }
  split; [exact Hrow|].
  unfold step. rewrite Hrow. reflexivity.
Qed.

Lemma zero_metrics_accepted_witness :
  snd (process_row sample_runtime (map_state_country sample_runtime) 1
         "01/15/2019,Nowhere,0,12.5%")
    = Valid ("2019-01-15", "XXX", 0, 0).
Proof.
  refine (proj1 (zero_metrics_accepted sample_runtime (map_state_country sample_runtime)
           1 "01/15/2019,Nowhere,0,12.5%" "01/15/2019" "Nowhere" "12.5%" "2019-01-15"
           (float_div (float_of_decimal false 125 (-1)) (float_of_Z 100))
           create_db 0 _ _ _)).
  - reflexivity.
  - reflexivity.
  - exists 4%nat, (float_of_decimal false 125 (-1)).
    repeat split; reflexivity.
Defined.

Lemma get_clicks_raises (raw_impress raw_ctr : string) (e : exn) :
  get_clicks raw_impress raw_ctr = Raise e -> e = OverflowError.
Proof.
  unfold get_clicks, except, bind, py_assert.
  destruct (py_int raw_impress) as [n|e1] eqn:E1;
    [|apply py_int_raises in E1 as ->; discriminate].
  destruct (rindex raw_ctr "%") as [i|e2] eqn:E2;
    [|apply rindex_raises in E2 as ->; discriminate].
  destruct (py_float (slice_to raw_ctr i)) as [f|e3] eqn:E3;
    [|apply py_float_raises in E3 as ->; discriminate].
  destruct (_ && _); [|discriminate].
  unfold float_of_int. destruct (float_of_Z n); simpl; try congruence;
    match goal with |- context [float_mul ?x ?y] => destruct (float_mul x y) end;
    simpl; congruence.
Qed.

(** C9. The country normalizer always returns a value: the code the
    index maps the name to, "XXX" for a name the index lacks; and a line
    with four columns or more is only rejected when the date, the
    impressions or the clicks have no value. *)
Theorem country_never_rejects (rt : runtime) (sc : gmap string string) (state : string) :
  (forall code, sc !! state = Some code ->
     get_country state sc = {| val := Some code; msg := "OK" |}) /\
  (sc !! state = None ->
     get_country state sc = {| val := Some "XXX"; msg := "OK" |}) /\
  (forall counter line x0 x2 x3 rest diagnostic,
     split "," line = x0 :: state :: x2 :: x3 :: rest ->
     snd (process_row rt sc counter line) = Invalid diagnostic ->
     no_value (get_date rt x0) \/ no_value (get_impressions x2)
     \/ no_value (get_clicks x2 x3)).
Proof.
  split; [|split].
  - intros code H. unfold get_country. rewrite H. reflexivity.
  - intros H. unfold get_country. rewrite H. reflexivity.
  - intros counter line x0 x2 x3 rest diagnostic Hsplit.
    unfold process_row. rewrite Hsplit.
    destruct (build_entry_four rt sc x0 state x2 x3 rest) as (d & i & Hd & Hi & ->).
    rewrite Hd, Hi. simpl.
    destruct (get_clicks x2 x3) as [k|e] eqn:Hk.
    + simpl. destruct d as [[dv|] dm]; [|intros _; left; eexists; reflexivity].
      destruct i as [[iv|] im]; [|intros _; right; left; eexists; reflexivity].
      destruct k as [[kv|] km]; [|intros _; right; right; eexists; reflexivity].
      simpl. discriminate.
    + apply get_clicks_raises in Hk as ->. discriminate.
Qed.

Lemma country_never_rejects_witness :
  no_value (get_date sample_runtime "13/01/2019") \/ no_value (get_impressions "500")
  \/ no_value (get_clicks "500" "10%").
Proof.
  apply (proj2 (proj2 (country_never_rejects sample_runtime
                         (map_state_country sample_runtime) "Texas"))
           1 "13/01/2019,Texas,500,10%" "13/01/2019" "500" "10%" []
           "Error in line 1: invalid date format");
    reflexivity.
Defined.

(** C2. On the line [13/01/2019,Texas,0,10%] only the date fails, yet the
    diagnostic also carries the message "OK" of the impressions and of the
    clicks, whose values are zero. *)
Theorem zero_value_reported_as_failing :
  let line := "13/01/2019,Texas,0,10%" +:+ line_feed in
  let sc := map_state_country sample_runtime in
  snd (process_row sample_runtime sc 1 line)
    = Invalid "Error in line 1: invalid date format & OK & OK" /\
  get_date sample_runtime "13/01/2019"
    = Ret {| val := None; msg := "invalid date format" |} /\
  get_country "Texas" sc = {| val := Some "USA"; msg := "OK" |} /\
  get_impressions "0" = Ret {| val := Some 0; msg := "OK" |} /\
  get_clicks "0" ("10%" +:+ line_feed) = Ret {| val := Some 0; msg := "OK" |}.
Proof. repeat split; reflexivity. Qed.

(** C8, as stated, fails: a line of three columns runs the normalizers
    of the date, the country and the impressions before the missing column
    is met. *)
Lemma missing_column_invokes_normalizers :
  (length (split "," "a,b,c") < 4)%nat /\
  fst (process_row sample_runtime (map_state_country sample_runtime) 1 "a,b,c")
    = [Call_get_date "a"; Call_get_country "b"; Call_get_impressions "c"] /\
  fst (process_row sample_runtime (map_state_country sample_runtime) 1 "a,b,c") <> [].
Proof. repeat split; [cbn; lia | discriminate]. Qed.

(** C8, amended. A line with fewer than four columns is rejected with
    the diagnostic "missing column": the error count grows by one, the
    table is left as it was, no field message is printed and [get_clicks]
    is not called (the normalizers of the columns that are there run, and
    their results are dropped).  In a line with more than four columns
    the columns after the fourth are ignored. *)
Theorem missing_column (rt : runtime) (sc : gmap string string) (counter : Z)
    (line : string) (w : world) (error_count : Z) :
  ((length (split "," line) < 4)%nat ->
   snd (process_row rt sc counter line) = Invalid (error_in_line counter "missing column") /\
   fst (process_row rt sc counter line)
     = firstn (length (split "," line))
         [Call_get_date (nth 0 (split "," line) "");
          Call_get_country (nth 1 (split "," line) "");
          Call_get_impressions (nth 2 (split "," line) "")] /\
   step rt sc counter (w, error_count) line
     = Ret ({| metrics := metrics w;
               stderr := stderr w ++ [error_in_line counter "missing column"] |},
            error_count + 1)) /\
  (forall line',
     firstn 4 (split "," line) = firstn 4 (split "," line') ->
     (4 <= length (split "," line))%nat ->
     process_row rt sc counter line = process_row rt sc counter line').
Proof.
  split.
  - intros Hlen.
    assert (H : snd (process_row rt sc counter line)
                = Invalid (error_in_line counter "missing column") /\
                fst (process_row rt sc counter line)
                = firstn (length (split "," line))
                    [Call_get_date (nth 0 (split "," line) "");
                     Call_get_country (nth 1 (split "," line) "");
                     Call_get_impressions (nth 2 (split "," line) "")]).
    { unfold process_row, build_entry, tbind, quiet, invoke, item.
      destruct (split "," line) as [|x0 [|x1 [|x2 [|x3 rest]]]];
        simpl in Hlen |- *; try lia.
      - split; reflexivity.
      - destruct (get_date_returns rt x0) as [d ->]. split; reflexivity.
      - destruct (get_date_returns rt x0) as [d ->]. split; reflexivity.
      - destruct (get_date_returns rt x0) as [d ->].
        destruct (get_impressions_returns x2) as [i ->]. split; reflexivity. }
    destruct H as [H1 H2]. repeat split; try assumption.
    unfold step. rewrite H1. reflexivity.
  - intros line' Hfirst Hlen.
    unfold process_row.
    destruct (split "," line) as [|x0 [|x1 [|x2 [|x3 rest]]]];
      simpl in Hlen; try lia.
    destruct (split "," line') as [|y0 [|y1 [|y2 [|y3 rest']]]];
      simpl in Hfirst; try discriminate.
    injection Hfirst as -> -> -> ->.
    destruct (build_entry_four rt sc y0 y1 y2 y3 rest) as (d & i & Hd & Hi & ->).
    destruct (build_entry_four rt sc y0 y1 y2 y3 rest') as (d' & i' & Hd' & Hi' & ->).
    rewrite Hd in Hd'. injection Hd' as <-.
    rewrite Hi in Hi'. injection Hi' as <-.
    reflexivity.
Qed.

Lemma missing_column_witness :
  snd (process_row sample_runtime (map_state_country sample_runtime) 3 "01/15/2019,Texas,7")
    = Invalid (error_in_line 3 "missing column").
Proof.
  refine (proj1 (proj1 (missing_column sample_runtime (map_state_country sample_runtime)
                          3 "01/15/2019,Texas,7" create_db 0) _)).
  cbn. lia.
Defined.

(** What one turn of the loop can do: insert exactly the row of four
    present values, or print one diagnostic and count one error and leave
    the table alone, or let an [OverflowError] escape with the world
    unchanged. *)
Lemma step_outcomes (rt : runtime) (sc : gmap string string) (counter : Z)
    (w : world) (error_count : Z) (line : string) :
  (exists r,
     snd (process_row rt sc counter line) = Valid r /\
     step rt sc counter (w, error_count) line
       = Ret ({| metrics := metrics w ++ [r]; stderr := stderr w |}, error_count)) \/
  (exists diagnostic,
     step rt sc counter (w, error_count) line
       = Ret ({| metrics := metrics w; stderr := stderr w ++ [diagnostic] |},
              error_count + 1)) \/
  step rt sc counter (w, error_count) line = Raise OverflowError.
Proof.
  unfold step.
  destruct (snd (process_row rt sc counter line)) as [r|diagnostic|e] eqn:E.
  - unfold insert, bind. destruct r as [[[d c] i] k].
    destruct (int64 i && int64 k); [left; eauto | right; right; reflexivity].
  - right; left; eauto.
  - right; right. f_equal.
    revert E. unfold process_row.
    destruct (build_entry rt sc (split "," line)) as [calls built] eqn:B.
    simpl. destruct built as [en|e'].
    + destruct (val (date en)), (val (country en)), (val (impressions en)),
        (val (clicks en)); discriminate.
    + intros E.
      assert (e' = IndexError \/ e' = OverflowError) as [->| ->].
      { revert B. unfold build_entry, tbind, quiet, invoke, item.
        destruct (split "," line) as [|x0 [|x1 [|x2 [|x3 rest]]]]; simpl;
          try (intros [= _ <-]; left; reflexivity);
          destruct (get_date_returns rt x0) as [d ->];
          try (intros [= _ <-]; left; reflexivity);
          destruct (get_impressions_returns x2) as [i ->];
          try (intros [= _ <-]; left; reflexivity).
        destruct (get_clicks x2 x3) as [k|e''] eqn:K; [discriminate|].
        intros [= _ <-]. right. exact (get_clicks_raises _ _ _ K). }
      * discriminate.
      * congruence.
Qed.

(** C7. The line [01/15/2019,California,9223372036854775808,10%] has four
    present values, but its impressions do not fit SQLite's integers: the
    [INSERT] raises [OverflowError], no handler takes it, and the run ends
    in a traceback with the line neither committed nor counted. *)
Theorem insert_overflow_aborts :
  let line := "01/15/2019,California,9223372036854775808,10%" in
  let sc := map_state_country sample_runtime in
  snd (process_row sample_runtime sc 1 line)
    = Valid ("2019-01-15", "USA", 9223372036854775808, 922337203685477632) /\
  step sample_runtime sc 1 (create_db, 0) line = Raise OverflowError /\
  main sample_runtime (utf8_bytes line) = Traceback OverflowError.
Proof. repeat split; reflexivity. Qed.

(** ** The encoding fallback *)

Lemma read_lines_raises (rt : runtime) (sc : gmap string string) (ls : list string)
    (counter : Z) (st : world * Z) (w : world) (e : exn) :
  read_lines rt sc ls counter st = (w, Raise e) -> e = OverflowError.
Proof.
  revert counter st.
  induction ls as [|line rest IH]; intros counter [w0 n]; cbn [read_lines fst snd].
  - discriminate.
  - destruct (step_outcomes rt sc counter w0 n line)
      as [(r & _ & ->)|[(diagnostic & ->)| ->]]; eauto.
    intros [= _ <-]. reflexivity.
Qed.

(** A file that decodes to the end is read to the end or stopped by an
    [OverflowError]; a file that does not decode raises [UnicodeError]
    unless an [OverflowError] came first. *)
Lemma read_data_complete (rt : runtime) (f : decoded) (cur w : world) (e : exn) :
  complete f = true -> read_data rt f cur = (w, Raise e) -> e = OverflowError.
Proof.
  intros Hc. unfold read_data. rewrite Hc.
  destruct (read_lines _ _ _ _ _) as [w' [n|e']] eqn:R; [discriminate|].
  intros [= _ <-]. exact (read_lines_raises _ _ _ _ _ _ _ R).
Qed.

Lemma read_data_no_lines (rt : runtime) (cur : world) :
  read_data rt {| lines := []; complete := false |} cur = (cur, Raise UnicodeError).
Proof. reflexivity. Qed.

(** A file whose UTF-16 reading is complete starts with a byte order
    mark, at which its UTF-8 reading stops before the first line. *)
Lemma utf16_complete_utf8_empty (rt : runtime) (file : list Byte.byte) :
  complete (open_file rt utf_8 file) = false ->
  complete (open_file rt utf_16 file) = true ->
  open_file rt utf_8 file = {| lines := []; complete := false |}.
Proof.
  destruct file as [|b0 [|b1 body]]; simpl; try discriminate.
  destruct (Byte.eqb b0 Byte.xff), (Byte.eqb b0 Byte.xfe); simpl;
    try reflexivity; discriminate.
Qed.

(** The rows of a failed UTF-8 reading never reach a report: either the
    file starts with a byte order mark and no line was read, or the
    UTF-16 reading fails at once and nothing is written. *)
Lemma failed_reading_leaves_no_rows (rt : runtime) (file : list Byte.byte) (w : world) :
  read_data rt (open_file rt utf_8 file) create_db = (w, Raise UnicodeError) ->
  w = create_db \/ main rt file = Invalid_encoding (stderr w).
Proof.
  intros R. unfold main. rewrite R.
  destruct file as [|b0 [|b1 body]].
  - discriminate R.
  - right. reflexivity.
  - revert R. simpl.
    destruct (Byte.eqb b0 Byte.xff), (Byte.eqb b0 Byte.xfe); simpl;
      try (rewrite read_data_no_lines; intros [= <-]; left; reflexivity).
    intros _. right. reflexivity.
Qed.

(** ** Aggregation *)

Section KeyOrder.

Lemma string_compare_refl (s : string) : String.compare s s = Eq.
Proof.
  induction s as [|c s IH]; simpl; [reflexivity|].
  unfold Ascii.compare. rewrite N.compare_refl. exact IH.
Qed.

Lemma string_compare_trans (a b c : string) :
  String.compare a b = Lt -> String.compare b c = Lt -> String.compare a c = Lt.
Proof.
  intros Hab Hbc.
  assert (Lab : String.le a b) by (unfold String.le, String.leb; rewrite Hab; exact I).
  assert (Lbc : String.le b c) by (unfold String.le, String.leb; rewrite Hbc; exact I).
  assert (Lac : String.le a c) by (etrans; eassumption).
  destruct (String.compare a c) eqn:Hac.
  - apply String.compare_eq_iff in Hac as ->.
    assert (c = b) as -> by (apply (anti_symm String.le); assumption).
    rewrite string_compare_refl in Hab. discriminate.
  - reflexivity.
  - unfold String.le, String.leb in Lac. rewrite Hac in Lac. destruct Lac.
Qed.

Lemma key_compare_refl (k : key) : key_compare k k = Eq.
Proof. unfold key_compare. rewrite !string_compare_refl. reflexivity. Qed.

Lemma key_compare_eq (a b : key) : key_compare a b = Eq -> a = b.
Proof.
  destruct a as [a1 a2], b as [b1 b2]. unfold key_compare. simpl.
  destruct (String.compare a1 b1) eqn:H1; try discriminate.
  intros H2. apply String.compare_eq_iff in H1, H2. congruence.
Qed.

Lemma key_compare_antisym (a b : key) :
  key_compare b a = CompOpp (key_compare a b).
Proof.
  destruct a as [a1 a2], b as [b1 b2]. unfold key_compare. simpl.
  rewrite (String.compare_antisym a1 b1), (String.compare_antisym a2 b2).
  destruct (String.compare b1 a1), (String.compare b2 a2); reflexivity.
Qed.

Lemma key_compare_gt (a b : key) : key_compare a b = Gt -> key_compare b a = Lt.
Proof. intros H. rewrite key_compare_antisym, H. reflexivity. Qed.

Lemma key_compare_lt_gt (a b : key) : key_compare a b = Lt -> key_compare b a = Gt.
Proof. intros H. rewrite key_compare_antisym, H. reflexivity. Qed.

Lemma key_lt_trans (a b c : key) :
  key_compare a b = Lt -> key_compare b c = Lt -> key_compare a c = Lt.
Proof.
  destruct a as [a1 a2], b as [b1 b2], c as [c1 c2]. unfold key_compare. simpl.
  destruct (String.compare a1 b1) eqn:H1; try discriminate;
    destruct (String.compare b1 c1) eqn:H2; try discriminate; intros Ha Hb.
  - apply String.compare_eq_iff in H1, H2. subst.
    rewrite string_compare_refl. eapply string_compare_trans; eassumption.
  - apply String.compare_eq_iff in H1. subst. rewrite H2. reflexivity.
  - apply String.compare_eq_iff in H2. subst. rewrite H1. reflexivity.
  - rewrite (string_compare_trans _ _ _ H1 H2). reflexivity.
Qed.

Lemma key_lt_irrefl (k : key) : key_compare k k = Lt -> False.
Proof. rewrite key_compare_refl. discriminate. Qed.

End KeyOrder.

(** Comparisons between keys that cannot hold together. *)
Ltac key_order :=
  exfalso;
  repeat match goal with
         | H : key_compare ?a _ = _ |- _ =>
             tryif is_var a then fail
             else (let k := fresh "k" in set (k := a) in *; clearbody k)
         | H : key_compare _ ?b = _ |- _ =>
             tryif is_var b then fail
             else (let k := fresh "k" in set (k := b) in *; clearbody k)
         end;
  repeat match goal with
         | H : key_compare _ _ = Gt |- _ => apply key_compare_gt in H
         | H : key_compare ?a ?b = Eq |- _ => apply key_compare_eq in H; subst
         end;
  repeat match goal with
         | H : key_compare ?a ?a = Lt |- _ => exact (key_lt_irrefl _ H)
         | H1 : key_compare ?a ?b = Lt, H2 : key_compare ?b ?c = Lt |- _ =>
             lazymatch goal with
             | _ : key_compare a c = Lt |- _ => fail
             | _ => pose proof (key_lt_trans _ _ _ H1 H2)
             end
         end.

Lemma two_pow_63 : 2 ^ 63 = 9223372036854775808.
Proof. reflexivity. Qed.

Lemma sum_step_comm (p : sum_state) (a b : Z) :
  nonneg p -> 0 <= a -> 0 <= b ->
  sum_step (sum_step p a) b = sum_step (sum_step p b) a.
Proof.
  destruct p as [s|]; [|reflexivity]. simpl. intros Hs Ha Hb.
  unfold sum_step, int64. rewrite !two_pow_63.
  repeat (match goal with
          | |- context [?x <=? ?y] => destruct (Z.leb_spec x y)
          | |- context [?x <? ?y] => destruct (Z.ltb_spec x y)
          end; simpl);
    try reflexivity; try lia; f_equal; lia.
Qed.

Lemma sum_step_nonneg (p : sum_state) (v : Z) :
  nonneg p -> 0 <= v -> nonneg (sum_step p v).
Proof.
  destruct p as [s|]; simpl; [|trivial]. intros Hs Hv.
  destruct (int64 (s + v)); simpl; [lia|trivial].
Qed.

Lemma group_add_sound (g : group) (r : row) :
  accepted r -> sound_group g -> sound_group (group_add g r).
Proof.
  destruct r as [[[d c] i] k]. intros [Hi Hk] [H1 H2].
  split; apply sum_step_nonneg; tauto || lia.
Qed.

Lemma group_new_sound (r : row) : accepted r -> sound_group (group_new r).
Proof.
  intros H. apply group_add_sound; [exact H|]. split; simpl; lia.
Qed.

Lemma group_by_sound (r : row) (groups : list group) :
  accepted r -> Forall sound_group groups -> Forall sound_group (group_by r groups).
Proof.
  intros Hr. induction 1 as [|g rest Hg Hrest IH]; simpl.
  - constructor; [apply group_new_sound; exact Hr|constructor].
  - destruct (key_compare (row_key r) (group_key g)).
    + constructor; [apply group_add_sound; assumption|assumption].
    + constructor; [apply group_new_sound; exact Hr|]. constructor; assumption.
    + constructor; assumption.
Qed.

Lemma group_add_key (g : group) (r : row) : group_key (group_add g r) = group_key g.
Proof. destruct r as [[[d c] i] k]. reflexivity. Qed.

Lemma group_new_key (r : row) : group_key (group_new r) = row_key r.
Proof. unfold group_new. rewrite group_add_key. reflexivity. Qed.

Lemma group_add_comm (g : group) (r1 r2 : row) :
  accepted r1 -> accepted r2 -> sound_group g ->
  group_add (group_add g r1) r2 = group_add (group_add g r2) r1.
Proof.
  destruct r1 as [[[d1 c1] i1] k1], r2 as [[[d2 c2] i2] k2].
  intros [Hi1 Hk1] [Hi2 Hk2] [H1 H2]. unfold group_add. simpl.
  f_equal; apply sum_step_comm; tauto || lia.
Qed.

Lemma group_new_add (r1 r2 : row) :
  accepted r1 -> accepted r2 -> row_key r1 = row_key r2 ->
  group_add (group_new r1) r2 = group_add (group_new r2) r1.
Proof.
  intros H1 H2 Hk. unfold group_new. rewrite Hk.
  apply group_add_comm; [assumption..|]. split; simpl; lia.
Qed.

(** Two rows enter the groups in either order. *)
Lemma group_by_comm (r1 r2 : row) (groups : list group) :
  accepted r1 -> accepted r2 -> Forall sound_group groups ->
  group_by r1 (group_by r2 groups) = group_by r2 (group_by r1 groups).
Proof.
  intros H1 H2. induction 1 as [|g rest Hg Hrest IH].
  - simpl. rewrite !group_new_key.
    destruct (key_compare (row_key r1) (row_key r2)) eqn:E12.
    + rewrite (key_compare_eq _ _ E12), key_compare_refl.
      f_equal. apply group_new_add; [assumption..|].
      symmetry. exact (key_compare_eq _ _ E12).
    + rewrite (key_compare_lt_gt _ _ E12). reflexivity.
    + rewrite (key_compare_gt _ _ E12). reflexivity.
  - simpl.
    destruct (key_compare (row_key r1) (group_key g)) eqn:E1;
      destruct (key_compare (row_key r2) (group_key g)) eqn:E2;
      simpl; rewrite ?group_add_key, ?group_new_key, ?E1, ?E2; simpl;
      try (f_equal; first [apply group_add_comm; assumption | exact IH]);
      destruct (key_compare (row_key r1) (row_key r2)) eqn:E12;
      destruct (key_compare (row_key r2) (row_key r1)) eqn:E21;
      try solve [key_order];
      rewrite ?E1, ?E2; try reflexivity.
    f_equal. apply group_new_add; [assumption..|].
    exact (key_compare_eq _ _ E21).
Qed.

Lemma groups_of_sound (metrics : list row) (groups : list group) :
  Forall accepted metrics -> Forall sound_group groups ->
  Forall sound_group (fold_left (fun gs r => group_by r gs) metrics groups).
Proof.
  intros H. revert groups. induction H as [|r rest Hr Hrest IH]; intros groups Hg; simpl.
  - exact Hg.
  - apply IH. apply group_by_sound; assumption.
Qed.

(** The groups do not depend on the order of the rows. *)
Lemma fold_group_by_perm (metrics metrics' : list row) :
  Permutation metrics metrics' -> Forall accepted metrics ->
  forall groups, Forall sound_group groups ->
    fold_left (fun gs r => group_by r gs) metrics groups
    = fold_left (fun gs r => group_by r gs) metrics' groups.
Proof.
  induction 1 as [|x l l' Hperm IH|x y l|l l' l'' H1 IH1 H2 IH2];
    intros Hacc groups Hg; simpl.
  - reflexivity.
  - inversion Hacc; subst. apply IH; [assumption|].
    apply group_by_sound; assumption.
  - inversion Hacc as [|? ? Hy Hacc']; subst.
    inversion Hacc' as [|? ? Hx ?]; subst.
    rewrite (group_by_comm x y); [reflexivity|assumption..].
  - rewrite IH1 by assumption. apply IH2; [|assumption].
    eapply Permutation_Forall; eassumption.
Qed.

Lemma group_by_keys (r : row) (groups : list group) (k : key) :
  In k (map group_key (group_by r groups))
  <-> k = row_key r \/ In k (map group_key groups).
Proof.
  induction groups as [|g rest IH]; simpl.
  - rewrite group_new_key. intuition congruence.
  - destruct (key_compare (row_key r) (group_key g)) eqn:E; simpl.
    + rewrite group_add_key. apply key_compare_eq in E. intuition congruence.
    + rewrite group_new_key. intuition congruence.
    + rewrite IH. intuition congruence.
Qed.

Lemma group_by_sorted (r : row) (groups : list group) :
  StronglySorted key_lt (map group_key groups) ->
  StronglySorted key_lt (map group_key (group_by r groups)).
Proof.
  induction groups as [|g rest IH]; simpl; intros Hs.
  - repeat constructor.
  - inversion Hs as [|? ? Hrest Hall]; subst.
    destruct (key_compare (row_key r) (group_key g)) eqn:E; simpl.
    + rewrite group_add_key. exact Hs.
    + rewrite group_new_key. constructor; [exact Hs|].
      constructor; [exact E|].
      eapply List.Forall_impl; [|exact Hall].
      intros k Hk. exact (key_lt_trans _ _ _ E Hk).
    + constructor; [apply IH; exact Hrest|].
      apply List.Forall_forall. intros k Hk.
      apply group_by_keys in Hk as [->|Hk].
      * exact (key_compare_gt _ _ E).
      * revert k Hk. apply List.Forall_forall. exact Hall.
Qed.

(** Where a group of the new list comes from. *)
Lemma group_by_In (r : row) (groups : list group) (g' : group) :
  StronglySorted key_lt (map group_key groups) ->
  In g' (group_by r groups) ->
  (In g' groups /\ group_key g' <> row_key r) \/
  (exists g, In g groups /\ group_key g = row_key r /\ g' = group_add g r) \/
  (g' = group_new r /\ ~ In (row_key r) (map group_key groups)).
Proof.
  induction groups as [|g rest IH]; simpl; intros Hs Hin.
  - destruct Hin as [<-|[]]. right; right. split; [reflexivity|tauto].
  - inversion Hs as [|? ? Hrest Hall]; subst.
    assert (Hlater : forall x, In x rest -> key_lt (group_key g) (group_key x)).
    { intros x Hx. rewrite List.Forall_forall in Hall. apply Hall.
      apply List.in_map. exact Hx. }
    destruct (key_compare (row_key r) (group_key g)) eqn:E; simpl in Hin.
    + apply key_compare_eq in E.
      destruct Hin as [<-|Hin].
      * right; left. exists g. auto.
      * left. split; [auto|]. intros Heq. specialize (Hlater _ Hin).
        unfold key_lt in Hlater. rewrite Heq, E in Hlater.
        exact (key_lt_irrefl _ Hlater).
    + destruct Hin as [<-|Hin].
      * right; right. split; [reflexivity|].
        intros [Heq|Hk].
        -- rewrite Heq in E. exact (key_lt_irrefl _ E).
        -- apply List.in_map_iff in Hk as (x & Hx & Hin).
           specialize (Hlater _ Hin). unfold key_lt in Hlater. rewrite Hx in Hlater.
           exact (key_lt_irrefl _ (key_lt_trans _ _ _ E Hlater)).
      * left. split; [exact Hin|]. intros Heq.
        destruct Hin as [<-|Hin].
        -- rewrite Heq in E. exact (key_lt_irrefl _ E).
        -- specialize (Hlater _ Hin). unfold key_lt in Hlater. rewrite Heq in Hlater.
           exact (key_lt_irrefl _ (key_lt_trans _ _ _ E Hlater)).
    + destruct Hin as [<-|Hin].
      * left. split; [auto|]. intros Heq. rewrite Heq in E.
        rewrite key_compare_refl in E. discriminate.
      * destruct (IH Hrest Hin) as [[H1 H2]|[(x & H1 & H2 & H3)|[H1 H2]]].
        -- left. auto.
        -- right; left. exists x. auto.
        -- right; right. split; [exact H1|].
           intros [Heq|Hk]; [|tauto]. rewrite Heq in E.
           rewrite key_compare_refl in E. discriminate.
Qed.

Lemma rows_of_app (k : key) (l1 l2 : list row) :
  rows_of k (l1 ++ l2) = rows_of k l1 ++ rows_of k l2.
Proof. apply List.filter_app. Qed.

Lemma rows_of_absent (k : key) (l : list row) :
  ~ In k (map row_key l) -> rows_of k l = [].
Proof.
  induction l as [|r rest IH]; simpl; intros H; [reflexivity|].
  destruct (bool_decide_reflect (row_key r = k)) as [E|E]; [tauto|].
  apply IH. tauto.
Qed.

Lemma sum_of_snoc (l : list Z) (v : Z) : sum_of (l ++ [v]) = sum_step (sum_of l) v.
Proof. unfold sum_of. rewrite fold_left_app. reflexivity. Qed.

(** The groups of a table: in key order, one for each key of the table,
    each holding SQLite's sums over the rows of its key. *)
Lemma groups_of_spec (l : list row) :
  StronglySorted key_lt (map group_key (groups_of l)) /\
  (forall k, In k (map group_key (groups_of l)) <-> In k (map row_key l)) /\
  sums_agree (groups_of l) l.
Proof.
  induction l as [|r l (Hsorted & Hkeys & Hsums)] using rev_ind.
  - split; [constructor|]. split; [reflexivity|]. intros g [].
  - unfold groups_of in *. rewrite fold_left_app. simpl.
    set (groups := fold_left (fun gs r0 => group_by r0 gs) l []) in *.
    split; [apply group_by_sorted; exact Hsorted|]. split.
    + intros k. rewrite group_by_keys, Hkeys, map_app, in_app_iff. simpl. intuition congruence.
    + intros g' Hin.
      rewrite rows_of_app, !map_app.
      destruct (group_by_In r groups g' Hsorted Hin)
        as [[H1 H2]|[(g & H1 & H2 & ->)|[-> H2]]].
      * simpl. destruct (bool_decide_reflect (row_key r = group_key g')) as [E|E];
          [congruence|].
        simpl. rewrite !app_nil_r. apply Hsums. exact H1.
      * rewrite group_add_key. simpl.
        destruct (bool_decide_reflect (row_key r = group_key g)) as [E|E];
          [|congruence].
        simpl. rewrite !sum_of_snoc.
        destruct (Hsums g H1) as [<- <-]. destruct r as [[[d c] i] k]. split; reflexivity.
      * rewrite group_new_key.
        assert (Hnone : rows_of (row_key r) l = []).
        { apply rows_of_absent. rewrite <- Hkeys. exact H2. }
        rewrite Hnone. simpl.
        destruct (bool_decide_reflect (row_key r = row_key r)) as [E|E]; [|congruence].
        destruct r as [[[d c] i] k]. split; reflexivity.
Qed.

Lemma sum_step_None (l : list Z) : fold_left sum_step l None = None.
Proof. induction l as [|v l IH]; simpl; [reflexivity|exact IH]. Qed.

Lemma sum_list_nonneg (l : list Z) :
  Forall (fun v => 0 <= v < 2 ^ 63) l -> 0 <= sum_list l.
Proof. induction 1 as [|v l Hv Hl IH]; simpl; lia. Qed.

(** On values that are not negative, SQLite's sum is the exact sum, or
    is lost when the exact sum leaves the 64-bit range. *)
Lemma sum_from_accepted (l : list Z) (a : Z) :
  Forall (fun v => 0 <= v < 2 ^ 63) l -> 0 <= a < 2 ^ 63 ->
  fold_left sum_step l (Some a)
  = if a + sum_list l <? 2 ^ 63 then Some (a + sum_list l) else None.
Proof.
  intros H. revert a. induction H as [|v l Hv Hl IH]; intros a Ha; simpl.
  - rewrite Z.add_0_r. destruct (Z.ltb_spec a (2 ^ 63)); [reflexivity|lia].
  - pose proof (sum_list_nonneg l Hl) as Hsum.
    unfold int64. rewrite two_pow_63 in *.
    match goal with |- context [?x <=? ?y] => destruct (Z.leb_spec x y) end; [|lia].
    match goal with |- context [?x <? ?y] => destruct (Z.ltb_spec x y) end; simpl.
    + rewrite IH by lia. rewrite Z.add_assoc. reflexivity.
    + rewrite sum_step_None.
      match goal with |- context [?x <? ?y] => destruct (Z.ltb_spec x y) end;
        [lia|reflexivity].
Qed.

Lemma sum_of_accepted (l : list Z) :
  Forall (fun v => 0 <= v < 2 ^ 63) l ->
  sum_of l = if sum_list l <? 2 ^ 63 then Some (sum_list l) else None.
Proof.
  intros H. unfold sum_of, sum_init.
  rewrite (sum_from_accepted l 0 H); [reflexivity|]. rewrite two_pow_63. lia.
Qed.

Lemma accepted_columns (k : key) (l : list row) :
  Forall accepted l ->
  Forall (fun v => 0 <= v < 2 ^ 63) (map impressions_of (rows_of k l)) /\
  Forall (fun v => 0 <= v < 2 ^ 63) (map clicks_of (rows_of k l)).
Proof.
  induction 1 as [|r l Hr Hl [IH1 IH2]]; simpl; [split; constructor|].
  destruct (bool_decide (row_key r = k)); simpl; [|split; assumption].
  destruct r as [[[d c] i] n]. destruct Hr. split; constructor; assumption.
Qed.

Lemma map_res_Ret {A B : Type} (f : A -> res B) (l : list A) (out : list B) :
  map_res f l = Ret out -> Forall2 (fun a b => f a = Ret b) l out.
Proof.
  revert out. induction l as [|a l IH]; simpl; intros out.
  - intros [= <-]. constructor.
  - unfold bind. destruct (f a) as [b|e] eqn:E; [|discriminate].
    destruct (map_res f l) as [bs|e]; [|discriminate].
    intros [= <-]. constructor; [exact E|apply IH; reflexivity].
Qed.

Lemma map_res_returns {A B : Type} (f : A -> res B) (l : list A) :
  (forall a, In a l -> exists b, f a = Ret b) -> exists out, map_res f l = Ret out.
Proof.
  induction l as [|a l IH]; simpl; intros H; [eauto|].
  destruct (H a (or_introl eq_refl)) as [b ->].
  destruct IH as [bs ->]; [intros x Hx; apply H; auto|]. simpl. eauto.
Qed.

Lemma group_result_Ret (g : group) (r : row) :
  group_result g = Ret r ->
  row_key r = group_key g /\
  sum_impressions g = Some (impressions_of r) /\ sum_clicks g = Some (clicks_of r).
Proof.
  unfold group_result, sum_finalize, bind.
  destruct (sum_impressions g) as [i|]; [|discriminate].
  destruct (sum_clicks g) as [k|]; [|discriminate].
  intros [= <-]. simpl. destruct (group_key g). auto.
Qed.

(** X19. On a table of accepted rows the result of [process_data]
    does not depend on the order of the rows.  Its keys are in ascending order of date, then of
    country code, each key of the table once, and each row of the report
    holds the sums of the impressions and of the clicks over the rows of
    its key; the report exists whenever these sums fit SQLite's
    integers. *)
Theorem aggregation_order_independent (metrics metrics' : list row) :
  Forall accepted metrics ->
  Permutation metrics metrics' ->
  process_data metrics = process_data metrics' /\
  (forall data, process_data metrics = Ret data ->
     StronglySorted key_lt (map row_key data) /\
     (forall k, In k (map row_key data) <-> In k (map row_key metrics)) /\
     (forall r, In r data ->
        impressions_of r = group_total impressions_of (row_key r) metrics /\
        clicks_of r = group_total clicks_of (row_key r) metrics)) /\
  ((forall k, group_total impressions_of k metrics < 2 ^ 63 /\
              group_total clicks_of k metrics < 2 ^ 63) ->
   exists data, process_data metrics = Ret data).
Proof.
  intros Hacc Hperm.
  destruct (groups_of_spec metrics) as (Hsorted & Hkeys & Hsums).
  split; [|split].
  - unfold process_data. f_equal.
    apply fold_group_by_perm; [assumption..|constructor].
  - intros data Hdata. unfold process_data in Hdata. fold (groups_of metrics) in Hdata.
    apply map_res_Ret in Hdata.
    assert (Hk : map row_key data = map group_key (groups_of metrics)).
    { clear -Hdata. induction Hdata as [|g r gs rs Hg _ IH]; simpl; [reflexivity|].
      apply group_result_Ret in Hg as [-> _]. f_equal. exact IH. }
    rewrite Hk. split; [exact Hsorted|]. split; [exact Hkeys|].
    intros r Hr.
    assert (exists g, In g (groups_of metrics) /\ group_result g = Ret r) as (g & Hg & Hres).
    { clear -Hdata Hr. induction Hdata as [|g r' gs rs Hg _ IH]; [destruct Hr|].
      destruct Hr as [<-|Hr].
      - exists g. split; [left; reflexivity|exact Hg].
      - destruct (IH Hr) as (g0 & H1 & H2). exists g0. split; [right; exact H1|exact H2]. }
    apply group_result_Ret in Hres as (Hkey & Hi & Hc).
    destruct (Hsums g Hg) as [Si Sc]. rewrite <- Hkey in Si, Sc.
    destruct (accepted_columns (row_key r) metrics Hacc) as [Ai Ac].
    rewrite (sum_of_accepted _ Ai) in Si. rewrite (sum_of_accepted _ Ac) in Sc.
    rewrite Hi in Si. rewrite Hc in Sc. unfold group_total.
    split.
    + destruct (_ <? _) in Si; congruence.
    + destruct (_ <? _) in Sc; congruence.
  - intros Hfit. unfold process_data. fold (groups_of metrics).
    apply map_res_returns. intros g Hg.
    destruct (Hsums g Hg) as [Si Sc].
    destruct (accepted_columns (group_key g) metrics Hacc) as [Ai Ac].
    rewrite (sum_of_accepted _ Ai) in Si. rewrite (sum_of_accepted _ Ac) in Sc.
    destruct (Hfit (group_key g)) as [Fi Fc]. unfold group_total in Fi, Fc.
    apply Z.ltb_lt in Fi, Fc. rewrite Fi in Si. rewrite Fc in Sc.
    unfold group_result, bind. rewrite Si, Sc. simpl. eauto.
Qed.

Lemma aggregation_order_independent_witness :
  process_data sample_rows = process_data (rev sample_rows).
Proof.
  refine (proj1 (aggregation_order_independent sample_rows (rev sample_rows) _ _)).
  - repeat constructor; cbn; lia.
  - apply Permutation_rev.
Defined.

(** ** Dates *)

(** A character known by a test on it is split into its 256 cases, of
    which the test keeps a few. *)
Ltac char_cases c H :=
  destruct c as [[] [] [] [] [] [] [] []]; vm_compute in H; try discriminate H; clear H.

Lemma app_cons (a : ascii) (s t : string) : String a s +:+ t = String a (s +:+ t).
Proof. reflexivity. Qed.

Lemma app_nil (t : string) : EmptyString +:+ t = t.
Proof. reflexivity. Qed.

Lemma directive_m_complete (tm : string) (m : Z) (rest : string) :
  month_of tm = Some m -> 1 <= m <= 12 ->
  directive_m (tm +:+ String "/" rest) = Some (m, String "/" rest).
Proof.
  destruct tm as [|a [|b [|c t]]]; simpl; try discriminate.
  - destruct (is_digit a) eqn:Ha; [|discriminate]. intros [= <-] Hm.
    rewrite ?app_cons, ?app_nil.
    char_cases a Ha; unfold digit_val, code in Hm; simpl in Hm; try lia; reflexivity.
  - destruct (is_digit a) eqn:Ha; [|discriminate].
    destruct (is_digit b) eqn:Hb; [|discriminate]. simpl. intros [= <-] Hm.
    rewrite ?app_cons, ?app_nil.
    char_cases a Ha; char_cases b Hb;
      unfold digit_val, code in Hm; simpl in Hm; try lia; reflexivity.
Qed.

Lemma directive_m_sound (s : string) (m : Z) (rest : string) :
  directive_m s = Some (m, String "/" rest) ->
  exists tm, s = tm +:+ String "/" rest /\ month_of tm = Some m /\ 1 <= m <= 12.
Proof.
  destruct s as [|a [|b r]]; simpl; try discriminate.
  - destruct (in_range "1" "9" a); discriminate.
  - destruct (Ascii.eqb a "1" && in_range "0" "2" b) eqn:T1.
    { apply andb_prop in T1 as [Ta Tb]. apply Ascii.eqb_eq in Ta as ->.
      intros [= <- ->]. exists (String "1" (String b EmptyString)).
      char_cases b Tb; (split; [reflexivity|split; [reflexivity|unfold digit_val, code; simpl; lia]]). }
    destruct (Ascii.eqb a "0" && in_range "1" "9" b) eqn:T2.
    { apply andb_prop in T2 as [Ta Tb]. apply Ascii.eqb_eq in Ta as ->.
      intros [= <- ->]. exists (String "0" (String b EmptyString)).
      char_cases b Tb; (split; [reflexivity|split; [reflexivity|unfold digit_val, code; simpl; lia]]). }
    destruct (in_range "1" "9" a) eqn:T3; [|discriminate].
    intros [= <- -> ->]. exists (String a EmptyString).
    char_cases a T3; (split; [reflexivity|split; [reflexivity|unfold digit_val, code; simpl; lia]]).
Qed.

Lemma directive_d_complete (td : string) (d : Z) (rest : string) :
  day_of td = Some d -> 1 <= d <= 31 ->
  directive_d (td +:+ String "/" rest) = Some (d, String "/" rest).
Proof.
  destruct td as [|a [|b [|c t]]]; simpl; try discriminate.
  - destruct (is_digit a) eqn:Ha; [|discriminate]. intros [= <-] Hd.
    rewrite ?app_cons, ?app_nil.
    char_cases a Ha; unfold digit_val, code in Hd; simpl in Hd; try lia; reflexivity.
  - rewrite ?app_cons, ?app_nil.
    destruct (is_digit b) eqn:Hb; [|rewrite !andb_false_r; discriminate].
    destruct (is_digit a) eqn:Ha; simpl.
    + intros [= <-] Hd.
      char_cases a Ha; char_cases b Hb;
        unfold digit_val, code in Hd; simpl in Hd; try lia; reflexivity.
    + destruct (Ascii.eqb a " ") eqn:Hs; [|discriminate].
      apply Ascii.eqb_eq in Hs as ->. intros [= <-] Hd.
      char_cases b Hb; unfold digit_val, code in Hd; simpl in Hd; try lia; reflexivity.
Qed.

Lemma directive_d_sound (s : string) (d : Z) (rest : string) :
  directive_d s = Some (d, String "/" rest) ->
  exists td, s = td +:+ String "/" rest /\ day_of td = Some d /\ 1 <= d <= 31.
Proof.
  destruct s as [|a [|b r]]; simpl; try discriminate.
  - destruct (in_range "1" "9" a); discriminate.
  - destruct (Ascii.eqb a "3" && in_range "0" "1" b) eqn:T1.
    { apply andb_prop in T1 as [Ta Tb]. apply Ascii.eqb_eq in Ta as ->.
      intros [= <- ->]. exists (String "3" (String b EmptyString)).
      char_cases b Tb; (split; [reflexivity|split; [reflexivity|unfold digit_val, code; simpl; lia]]). }
    destruct (in_range "1" "2" a && is_digit b) eqn:T2.
    { apply andb_prop in T2 as [Ta Tb].
      intros [= <- ->]. exists (String a (String b EmptyString)).
      char_cases a Ta; char_cases b Tb;
        (split; [reflexivity|split; [reflexivity|unfold digit_val, code; simpl; lia]]). }
    destruct (Ascii.eqb a "0" && in_range "1" "9" b) eqn:T3.
    { apply andb_prop in T3 as [Ta Tb]. apply Ascii.eqb_eq in Ta as ->.
      intros [= <- ->]. exists (String "0" (String b EmptyString)).
      char_cases b Tb; (split; [reflexivity|split; [reflexivity|unfold digit_val, code; simpl; lia]]). }
    destruct (in_range "1" "9" a) eqn:T4.
    { intros [= <- -> ->]. exists (String a EmptyString).
      char_cases a T4; (split; [reflexivity|split; [reflexivity|unfold digit_val, code; simpl; lia]]). }
    destruct (Ascii.eqb a " " && in_range "1" "9" b) eqn:T5; [|discriminate].
    apply andb_prop in T5 as [Ta Tb]. apply Ascii.eqb_eq in Ta as ->.
    intros [= <- ->]. exists (String " " (String b EmptyString)).
    char_cases b Tb; (split; [reflexivity|split; [reflexivity|unfold digit_val, code; simpl; lia]]).
Qed.

Lemma directive_Y_year (s : string) (y : Z) :
  directive_Y s = Some (y, EmptyString) <-> year_of s = Some y.
Proof.
  destruct s as [|a [|b [|c [|d [|e r]]]]]; simpl; try (split; discriminate);
    destruct (is_digit a && is_digit b && is_digit c && is_digit d);
    split; congruence.
Qed.

Lemma days_in_month_le (y m : Z) : days_in_month y m <= 31.
Proof.
  unfold days_in_month.
  destruct (m =? 2); [destruct (is_leap y); lia|].
  destruct (_ || _); lia.
Qed.

Lemma strptime_complete (raw : string) (y m d : Z) :
  reads_as raw y m d -> strptime raw = Ret (y, m, d).
Proof.
  intros (tm & td & ty & -> & Hm & Hd & Hy & Bm & Bd & By).
  pose proof (days_in_month_le y m) as Hle.
  unfold strptime.
  change ("/" +:+ td +:+ "/" +:+ ty) with (String "/" (td +:+ String "/" ty)).
  rewrite (directive_m_complete tm m _ Hm Bm). simpl.
  rewrite (directive_d_complete td d _ Hd) by lia. simpl.
  apply directive_Y_year in Hy. rewrite Hy. simpl.
  destruct (Z.leb_spec 1 y); [|lia].
  destruct (Z.leb_spec d (days_in_month y m)); [|lia]. reflexivity.
Qed.

Lemma strptime_sound (raw : string) (y m d : Z) :
  strptime raw = Ret (y, m, d) -> reads_as raw y m d.
Proof.
  unfold strptime.
  destruct (directive_m raw) as [[m' s1]|] eqn:Em; simpl; [|discriminate].
  destruct s1 as [|c1 s2]; simpl; [discriminate|].
  destruct (Ascii.eqb c1 "/") eqn:E1; simpl; [|discriminate].
  apply Ascii.eqb_eq in E1 as ->.
  destruct (directive_d s2) as [[d' s3]|] eqn:Ed; simpl; [|discriminate].
  destruct s3 as [|c2 s4]; simpl; [discriminate|].
  destruct (Ascii.eqb c2 "/") eqn:E2; simpl; [|discriminate].
  apply Ascii.eqb_eq in E2 as ->.
  destruct (directive_Y s4) as [[y' [|c3 s5]]|] eqn:Ey; simpl; try discriminate.
  destruct (Z.leb_spec 1 y'); simpl; [|discriminate].
  destruct (Z.leb_spec d' (days_in_month y' m')); simpl; [|discriminate].
  intros [= -> -> ->].
  apply directive_m_sound in Em as (tm & -> & Hm & Bm).
  apply directive_d_sound in Ed as (td & -> & Hd & Bd).
  apply directive_Y_year in Ey.
  exists tm, td, s4. repeat split; try assumption; try lia.
Qed.

(** What [get_date] returns, by what [strptime] does. *)
Lemma get_date_spec (rt : runtime) (raw : string) :
  get_date rt raw =
    Ret match strptime raw with
        | Ret t => {| val := Some (strftime rt t); msg := "OK" |}
        | Raise _ => {| val := None; msg := "invalid date format" |}
        end.
Proof.
  unfold get_date, except, bind.
  destruct (strptime raw) as [t|e] eqn:E; [reflexivity|].
  apply strptime_raises in E as ->. reflexivity.
Qed.

Lemma digit_char_val (a : ascii) : is_digit a = true -> digit_char (digit_val a) = a.
Proof. intros H. char_cases a H; reflexivity. Qed.

Lemma digit_val_range (a : ascii) : is_digit a = true -> 0 <= digit_val a <= 9.
Proof.
  unfold is_digit, digit_val. intros H. apply andb_prop in H as [H1 H2].
  apply Z.leb_le in H1, H2. lia.
Qed.

Lemma two_digits_text (a b : ascii) :
  is_digit a = true -> is_digit b = true ->
  two_digits (10 * digit_val a + digit_val b) = String a (String b EmptyString).
Proof.
  intros Ha Hb. unfold two_digits.
  pose proof (digit_val_range a Ha). pose proof (digit_val_range b Hb).
  replace ((10 * digit_val a + digit_val b) / 10) with (digit_val a)
    by (apply (Z.div_unique _ 10 _ (digit_val b)); lia).
  replace ((10 * digit_val a + digit_val b) mod 10) with (digit_val b)
    by (apply (Z.mod_unique _ 10 (digit_val a)); lia).
  rewrite !digit_char_val by assumption. reflexivity.
Qed.

Lemma four_digits_text (a b c d : ascii) :
  is_digit a = true -> is_digit b = true -> is_digit c = true -> is_digit d = true ->
  four_digits (1000 * digit_val a + 100 * digit_val b + 10 * digit_val c + digit_val d)
  = String a (String b (String c (String d EmptyString))).
Proof.
  intros Ha Hb Hc Hd. unfold four_digits.
  pose proof (digit_val_range a Ha). pose proof (digit_val_range b Hb).
  pose proof (digit_val_range c Hc). pose proof (digit_val_range d Hd).
  set (n := 1000 * digit_val a + 100 * digit_val b + 10 * digit_val c + digit_val d).
  replace (n / 1000) with (digit_val a)
    by (apply (Z.div_unique _ 1000 _ (100 * digit_val b + 10 * digit_val c + digit_val d));
        unfold n; lia).
  replace (n / 100) with (10 * digit_val a + digit_val b)
    by (apply (Z.div_unique _ 100 _ (10 * digit_val c + digit_val d)); unfold n; lia).
  replace ((10 * digit_val a + digit_val b) mod 10) with (digit_val b)
    by (apply (Z.mod_unique _ 10 (digit_val a)); lia).
  replace (n mod 100) with (10 * digit_val c + digit_val d)
    by (apply (Z.mod_unique _ 100 (10 * digit_val a + digit_val b)); unfold n; lia).
  rewrite two_digits_text by assumption.
  rewrite !digit_char_val by assumption. reflexivity.
Qed.

(** From 1000 to 9999 the year needs no padding. *)
Lemma year_needs_no_padding (y : Z) : 1000 <= y <= 9999 -> str_of_Z y = four_digits y.
Proof.
  intros Hy.
  assert (H : forallb (fun n => String.eqb (str_of_Z (Z.of_nat n)) (four_digits (Z.of_nat n)))
                      (seq (Z.to_nat 1000) (Z.to_nat 9000)) = true)
    by (vm_compute; reflexivity).
  rewrite forallb_forall in H.
  specialize (H (Z.to_nat y)). rewrite Z2Nat.id in H by lia.
  apply String.eqb_eq, H, in_seq. lia.
Qed.

(** [get_date] is not strict about the form [MM/DD/YYYY]: a month and a
    day of one digit, or a day written as a space and a digit, are no
    such texts, yet it returns a date for them; and [01/01/0000] is such
    a text, for which it returns none. *)
Lemma lenient_dates_accepted :
  is_mmddyyyy "1/5/2019" = false /\
  get_date sample_runtime "1/5/2019" = Ret {| val := Some "2019-01-05"; msg := "OK" |} /\
  is_mmddyyyy "01/ 5/2019" = false /\
  get_date sample_runtime "01/ 5/2019" = Ret {| val := Some "2019-01-05"; msg := "OK" |} /\
  is_mmddyyyy "01/01/0000" = true /\
  get_date sample_runtime "01/01/0000"
    = Ret {| val := None; msg := "invalid date format" |}.
Proof. repeat split; reflexivity. Qed.

(** A text [MM/DD/YYYY] whose year does not start with 0 is reformatted
    digit by digit. *)
Lemma get_date_reformatted (rt : runtime) (raw : string) :
  is_mmddyyyy raw = true -> String.get 6 raw <> Some "0"%char ->
  get_date rt raw = Ret {| val := Some (reformatted raw); msg := "OK" |}.
Proof.
  destruct raw as [|m1 [|m2 [|s1 [|d1 [|d2 [|s2 [|y1 [|y2 [|y3 [|y4 [|c r]]]]]]]]]]];
    try discriminate.
  cbn [is_mmddyyyy String.get]. intros H Hy1.
  do 13 (apply andb_prop in H as [H ?]).
  repeat match goal with
         | E : Ascii.eqb _ _ = true |- _ => apply Ascii.eqb_eq in E; subst
         | E : (_ <=? _) = true |- _ => apply Z.leb_le in E
         end.
  set (y := 1000 * digit_val y1 + 100 * digit_val y2 + 10 * digit_val y3 + digit_val y4) in *.
  set (m := 10 * digit_val m1 + digit_val m2) in *.
  set (d := 10 * digit_val d1 + digit_val d2) in *.
  assert (Hy : 1000 <= y <= 9999).
  { pose proof (digit_val_range y1 ltac:(assumption)).
    pose proof (digit_val_range y2 ltac:(assumption)).
    pose proof (digit_val_range y3 ltac:(assumption)).
    pose proof (digit_val_range y4 ltac:(assumption)).
    assert (digit_val y1 <> 0).
    { intros E. apply Hy1. f_equal.
      rewrite <- (digit_char_val y1) by assumption. rewrite E. reflexivity. }
    unfold y. lia. }
  assert (Hreads : reads_as
    (String m1 (String m2 (String "/" (String d1 (String d2 (String "/"
       (String y1 (String y2 (String y3 (String y4 EmptyString)))))))))) y m d).
  { exists (String m1 (String m2 EmptyString)), (String d1 (String d2 EmptyString)),
      (String y1 (String y2 (String y3 (String y4 EmptyString)))).
    split; [reflexivity|]. simpl.
    repeat match goal with E : is_digit _ = true |- _ => rewrite E; clear E end.
    simpl. repeat split; try reflexivity; lia. }
  rewrite get_date_spec, (strptime_complete _ _ _ _ Hreads).
  do 3 f_equal. unfold strftime, reformatted. simpl.
  replace (if strftime_pads_year rt then four_digits y else str_of_Z y)
    with (four_digits y)
    by (destruct (strftime_pads_year rt);
        [reflexivity|symmetry; apply year_needs_no_padding; exact Hy]).
  unfold y, m, d.
  rewrite four_digits_text, !two_digits_text by assumption. reflexivity.
Qed.

(** X18. On text of code points below 256, where the decimal digits
    are 0 to 9, [get_date] returns a date exactly for the texts that
    are a month of one or two digits, a slash, a day of one or two digits
    or of a space and a digit, a slash and a year of four digits, naming a
    day of the calendar from the year 1 on; the date is the year, the
    month in two digits and the day in two digits.  For a text
    [MM/DD/YYYY] whose year does not start with 0 it is [YYYY-MM-DD] with
    the digits of the text.  For every other text there is no value and
    the diagnostic is "invalid date format". *)
Theorem normalize_date (rt : runtime) (raw : string) :
  (forall y m d, reads_as raw y m d ->
     get_date rt raw = Ret {| val := Some (strftime rt (y, m, d)); msg := "OK" |}) /\
  ((forall y m d, ~ reads_as raw y m d) ->
     get_date rt raw = Ret {| val := None; msg := "invalid date format" |}) /\
  (is_mmddyyyy raw = true -> String.get 6 raw <> Some "0"%char ->
     get_date rt raw = Ret {| val := Some (reformatted raw); msg := "OK" |}).
Proof.
  split; [|split].
  - intros y m d H. rewrite get_date_spec, (strptime_complete _ _ _ _ H). reflexivity.
  - intros H. rewrite get_date_spec.
    destruct (strptime raw) as [[[y m] d]|e] eqn:E; [|reflexivity].
    destruct (H y m d). apply strptime_sound. exact E.
  - apply get_date_reformatted.
Qed.

Lemma normalize_date_witness :
  get_date sample_runtime "01/15/2019" = Ret {| val := Some "2019-01-15"; msg := "OK" |}.
Proof.
  refine (proj2 (proj2 (normalize_date sample_runtime "01/15/2019")) _ _).
  - reflexivity.
  - discriminate.
Defined.

(** ** Floats: the rounding of [binary_round_aux] *)


(** ** Floats: the rounding of [binary_round_aux] *)

Section Digits.

(** A positive number lies between the powers of two its number of
    binary digits names. *)
Lemma digits2_pos_bounds (p : positive) :
  2 ^ (Zpos (digits2_pos p) - 1) <= Zpos p < 2 ^ Zpos (digits2_pos p).
Proof.
  induction p as [p IH|p IH|]; simpl digits2_pos.
  - rewrite Pos2Z.inj_succ.
    replace (Z.succ (Zpos (digits2_pos p)) - 1) with (Z.succ (Zpos (digits2_pos p) - 1)) by lia.
    rewrite !Z.pow_succ_r by lia. lia.
  - rewrite Pos2Z.inj_succ.
    replace (Z.succ (Zpos (digits2_pos p)) - 1) with (Z.succ (Zpos (digits2_pos p) - 1)) by lia.
    rewrite !Z.pow_succ_r by lia. lia.
  - simpl. lia.
Qed.

Lemma Zdigits2_bounds (m : Z) :
  0 < m -> 2 ^ (Zdigits2 m - 1) <= m < 2 ^ Zdigits2 m.
Proof. destruct m as [|p|p]; try lia. intros _. apply digits2_pos_bounds. Qed.

Lemma Zdigits2_pos (m : Z) : 0 < m -> 0 < Zdigits2 m.
Proof. destruct m; simpl; lia. Qed.

Lemma Zdigits2_nonneg (m : Z) : 0 <= Zdigits2 m.
Proof. destruct m; simpl; lia. Qed.

Lemma Zdigits2_le (m k : Z) : 0 <= k -> 0 <= m < 2 ^ k -> Zdigits2 m <= k.
Proof.
  intros Hk [H0 Hm]. destruct (Z.eq_dec m 0) as [->|Hne]; [simpl; lia|].
  pose proof (Zdigits2_bounds m ltac:(lia)) as [Hlo _].
  pose proof (Zdigits2_pos m ltac:(lia)).
  destruct (Z.le_gt_cases (Zdigits2 m) k) as [|Hgt]; [assumption|exfalso].
  assert (2 ^ k <= 2 ^ (Zdigits2 m - 1)) by (apply Z.pow_le_mono_r; lia). lia.
Qed.

Lemma Zdigits2_gt (m k : Z) : 0 <= k -> 2 ^ k <= m -> k < Zdigits2 m.
Proof.
  intros Hk Hm.
  assert (0 < 2 ^ k) by (apply Z.pow_pos_nonneg; lia).
  pose proof (Zdigits2_bounds m ltac:(lia)) as [_ Hhi].
  pose proof (Zdigits2_pos m ltac:(lia)).
  destruct (Z.lt_ge_cases k (Zdigits2 m)) as [|Hge]; [assumption|exfalso].
  assert (2 ^ Zdigits2 m <= 2 ^ k) by (apply Z.pow_le_mono_r; lia). lia.
Qed.

End Digits.

Section Shift.

Lemma pow2_xO (p : positive) : 2 ^ Zpos p~0 = 2 ^ Zpos p * 2 ^ Zpos p.
Proof.
  replace (Zpos p~0) with (Zpos p + Zpos p) by lia.
  apply Z.pow_add_r; lia.
Qed.

Lemma pow2_xI (p : positive) : 2 ^ Zpos p~1 = 2 * (2 ^ Zpos p * 2 ^ Zpos p).
Proof.
  replace (Zpos p~1) with (1 + (Zpos p + Zpos p)) by lia.
  rewrite !Z.pow_add_r by lia. reflexivity.
Qed.

Lemma shr_1_m (x : shr_record) : 0 <= shr_m x -> shr_m (shr_1 x) = shr_m x / 2.
Proof.
  destruct x as [m r s]. cbn [shr_m]. intros Hm.
  destruct m as [|[p|p|]|p]; cbn [shr_1 shr_m]; try lia; try reflexivity.
  - apply (Z.div_unique _ 2 _ 1); lia.
  - apply (Z.div_unique _ 2 _ 0); lia.
Qed.

Lemma shr_1_exact (x : shr_record) (k : Z) :
  inexact x = false -> shr_m x = 2 * k -> inexact (shr_1 x) = false.
Proof.
  destruct x as [m r s]. unfold inexact. simpl. intros Hx Hm.
  destruct m as [|[p|p|]|[p|p|]]; simpl; try exact Hx; lia.
Qed.

Lemma iter_shr_m (p : positive) (x : shr_record) :
  0 <= shr_m x -> shr_m (SpecFloat.iter_pos shr_1 p x) = shr_m x / 2 ^ Zpos p.
Proof.
  revert x. induction p as [p IH|p IH|]; intros x Hx; cbn [SpecFloat.iter_pos].
  - assert (H1 : 0 <= shr_m (shr_1 x)) by (rewrite shr_1_m by lia; apply Z.div_pos; lia).
    assert (0 < 2 ^ Zpos p) by (apply Z.pow_pos_nonneg; lia).
    assert (H2 : 0 <= shr_m (SpecFloat.iter_pos shr_1 p (shr_1 x)))
      by (rewrite IH by lia; apply Z.div_pos; lia).
    rewrite IH, IH, shr_1_m by lia.
    rewrite !Z.div_div by lia. f_equal. rewrite pow2_xI. lia.
  - assert (0 < 2 ^ Zpos p) by (apply Z.pow_pos_nonneg; lia).
    assert (H2 : 0 <= shr_m (SpecFloat.iter_pos shr_1 p x))
      by (rewrite IH by lia; apply Z.div_pos; lia).
    rewrite IH, IH by lia.
    rewrite !Z.div_div by lia. f_equal. rewrite pow2_xO. lia.
  - rewrite shr_1_m by lia. reflexivity.
Qed.

Lemma iter_shr_exact (p : positive) (x : shr_record) (k : Z) :
  0 <= k -> inexact x = false -> shr_m x = 2 ^ Zpos p * k ->
  inexact (SpecFloat.iter_pos shr_1 p x) = false.
Proof.
  revert x k. induction p as [p IH|p IH|]; intros x k Hk Hx Hm; cbn [SpecFloat.iter_pos].
  - assert (0 < 2 ^ Zpos p) by (apply Z.pow_pos_nonneg; lia).
    rewrite pow2_xI in Hm.
    assert (H1 : shr_m (shr_1 x) = 2 ^ Zpos p * (2 ^ Zpos p * k)).
    { rewrite shr_1_m by nia. rewrite Hm.
      replace (2 * (2 ^ Zpos p * 2 ^ Zpos p) * k)
        with ((2 ^ Zpos p * (2 ^ Zpos p * k)) * 2) by lia.
      apply Z.div_mul. lia. }
    assert (X1 : inexact (shr_1 x) = false).
    { apply (shr_1_exact x (2 ^ Zpos p * 2 ^ Zpos p * k)); [exact Hx|lia]. }
    apply (IH _ k); [lia| |].
    + apply (IH _ (2 ^ Zpos p * k)); [nia|exact X1|exact H1].
    + rewrite iter_shr_m by nia. rewrite H1.
      rewrite Z.mul_comm. apply Z.div_mul. lia.
  - assert (0 < 2 ^ Zpos p) by (apply Z.pow_pos_nonneg; lia).
    rewrite pow2_xO in Hm.
    apply (IH _ k); [lia| |].
    + apply (IH _ (2 ^ Zpos p * k)); [nia|exact Hx|lia].
    + rewrite iter_shr_m by nia. rewrite Hm.
      replace (2 ^ Zpos p * 2 ^ Zpos p * k) with ((2 ^ Zpos p * k) * 2 ^ Zpos p) by lia.
      rewrite Z.div_mul by lia. lia.
  - apply (shr_1_exact x k); [exact Hx|]. rewrite Hm. reflexivity.
Qed.

End Shift.

Section Rounding.

Lemma fexp_eq (e : Z) : fexp prec emax e = Z.max (e - 53) (-1074).
Proof. reflexivity. Qed.

Lemma shr_record_of_loc_m (m : Z) (l : location) : shr_m (shr_record_of_loc m l) = m.
Proof. destruct l as [|[]]; reflexivity. Qed.

Lemma exact_location (x : shr_record) :
  inexact x = false -> loc_of_shr_record x = loc_Exact.
Proof. destruct x as [m [] []]; simpl; intros H; try discriminate; reflexivity. Qed.

(** The first step of the rounding: the mantissa shifted down to the
    exponent the format gives its magnitude. *)
Lemma shr_fexp_spec (m e : Z) (l : location) :
  0 <= m ->
  let n := Z.max (fexp prec emax (Zdigits2 m + e) - e) 0 in
  snd (shr_fexp prec emax m e l) = e + n /\
  shr_m (fst (shr_fexp prec emax m e l)) = m / 2 ^ n /\
  (l = loc_Exact -> (exists k, 0 <= k /\ m = 2 ^ n * k) ->
   loc_of_shr_record (fst (shr_fexp prec emax m e l)) = loc_Exact).
Proof.
  intros Hm n. unfold shr_fexp, shr. subst n.
  destruct (fexp prec emax (Zdigits2 m + e) - e) as [|p|p] eqn:E; simpl fst; simpl snd.
  - rewrite Z.max_id. simpl (2 ^ 0). rewrite Z.div_1_r, shr_record_of_loc_m.
    repeat split; [lia|]. intros -> _. reflexivity.
  - rewrite Z.max_l by lia.
    rewrite iter_shr_m by (rewrite shr_record_of_loc_m; exact Hm).
    rewrite shr_record_of_loc_m. repeat split.
    intros -> (k & Hk & Hmk). apply exact_location.
    apply (iter_shr_exact p _ k); [exact Hk|reflexivity|exact Hmk].
  - rewrite Z.max_r by lia. simpl (2 ^ 0). rewrite Z.div_1_r, shr_record_of_loc_m.
    repeat split; [lia|]. intros -> _. reflexivity.
Qed.

Lemma round_nearest_even_bounds (m : Z) (l : location) :
  m <= round_nearest_even m l <= m + 1.
Proof.
  destruct l as [|[]]; simpl; try lia. destruct (Z.even m); lia.
Qed.

Lemma two_pow_53 : 2 ^ 53 = 9007199254740992.
Proof. reflexivity. Qed.

Lemma shifted_below_2_53 (m e : Z) :
  0 <= m ->
  m / 2 ^ Z.max (fexp prec emax (Zdigits2 m + e) - e) 0 < 2 ^ 53.
Proof.
  intros Hm. set (n := Z.max _ 0).
  assert (Hn : 0 <= n) by (unfold n; lia).
  assert (0 < 2 ^ n) by (apply Z.pow_pos_nonneg; lia).
  destruct (Z.eq_dec m 0) as [->|Hne].
  { rewrite Z.div_0_l by lia. rewrite two_pow_53. lia. }
  apply Z.div_lt_upper_bound; [lia|].
  rewrite <- Z.pow_add_r by lia.
  pose proof (Zdigits2_bounds m ltac:(lia)) as [_ Hhi].
  eapply Z.lt_le_trans; [exact Hhi|].
  apply Z.pow_le_mono_r; [lia|].
  unfold n. rewrite fexp_eq. lia.
Qed.

(** What [binary_round_aux] returns, by the mantissa [m'] it rounds to
    at the exponent [ex + n]. *)
Lemma binary_round_aux_cases (sx : bool) (mx ex : Z) (lx : location) :
  0 <= mx ->
  let n := Z.max (fexp prec emax (Zdigits2 mx + ex) - ex) 0 in
  exists m',
    mx / 2 ^ n <= m' <= mx / 2 ^ n + 1 /\
    (lx = loc_Exact -> (exists k, 0 <= k /\ mx = 2 ^ n * k) -> m' = mx / 2 ^ n) /\
    -1074 <= ex + n /\
    ((m' = 0 /\ binary_round_aux prec emax sx mx ex lx = S754_zero sx) \/
     (0 < m' < 2 ^ 53 /\
      binary_round_aux prec emax sx mx ex lx
      = if ex + n <=? 971 then S754_finite sx (Z.to_pos m') (ex + n)
        else S754_infinity sx) \/
     (m' = 2 ^ 53 /\
      binary_round_aux prec emax sx mx ex lx
      = if ex + n + 1 <=? 971 then S754_finite sx (Z.to_pos (2 ^ 52)) (ex + n + 1)
        else S754_infinity sx)).
Proof.
  intros Hmx n.
  destruct (shr_fexp_spec mx ex lx Hmx) as (He & Hm1 & Hexact). fold n in He, Hm1, Hexact.
  pose proof (shifted_below_2_53 mx ex Hmx) as Hlt. fold n in Hlt.
  assert (Hn : 0 <= n) by (unfold n; lia).
  assert (H2n : 0 < 2 ^ n) by (apply Z.pow_pos_nonneg; lia).
  assert (Hm1pos : 0 <= mx / 2 ^ n) by (apply Z.div_pos; lia).
  assert (Hemin : -1074 <= ex + n) by (unfold n; rewrite fexp_eq; lia).
  unfold binary_round_aux.
  destruct (shr_fexp prec emax mx ex lx) as [mrs' e'] eqn:S1.
  simpl in He, Hm1, Hexact. subst e'.
  set (m' := round_nearest_even (shr_m mrs') (loc_of_shr_record mrs')).
  pose proof (round_nearest_even_bounds (shr_m mrs') (loc_of_shr_record mrs')) as Hr.
  fold m' in Hr. rewrite Hm1 in Hr.
  exists m'. split; [exact Hr|]. split.
  { intros Hl Hk. unfold m'. rewrite (Hexact Hl Hk). simpl. exact Hm1. }
  split; [exact Hemin|].
  assert (Hm' : 0 <= m') by lia.
  destruct (shr_fexp_spec m' (ex + n) loc_Exact Hm') as (He2 & Hm2 & _).
  destruct (shr_fexp prec emax m' (ex + n) loc_Exact) as [mrs'' e''] eqn:S2.
  simpl in He2, Hm2. rewrite two_pow_53 in *.
  assert (Hcase : m' = 0 \/ 0 < m' < 9007199254740992 \/ m' = 9007199254740992) by lia.
  destruct Hcase as [H0|[Hmid|Htop]].
  - left. split; [exact H0|].
    rewrite H0 in Hm2. rewrite Z.div_0_l in Hm2
      by (apply Z.pow_nonzero; lia).
    rewrite Hm2. reflexivity.
  - right; left. split; [exact Hmid|].
    assert (Hd : Zdigits2 m' <= 53).
    { apply Zdigits2_le; [lia|]. rewrite two_pow_53. lia. }
    assert (Hn2 : Z.max (fexp prec emax (Zdigits2 m' + (ex + n)) - (ex + n)) 0 = 0)
      by (rewrite fexp_eq; lia).
    rewrite Hn2 in He2, Hm2. simpl (2 ^ 0) in Hm2. rewrite Z.div_1_r in Hm2.
    rewrite Hm2, He2, Z.add_0_r.
    destruct m' as [|p|p]; try lia. reflexivity.
  - right; right. split; [exact Htop|].
    assert (Hd : Zdigits2 m' = 54) by (rewrite Htop; reflexivity).
    assert (Hn2 : Z.max (fexp prec emax (Zdigits2 m' + (ex + n)) - (ex + n)) 0 = 1)
      by (rewrite fexp_eq, Hd; lia).
    rewrite Hn2 in He2, Hm2. rewrite Htop in Hm2.
    rewrite Hm2, He2. reflexivity.
Qed.

(** A finite result of [binary_round_aux] is a float of the format. *)
Lemma binary_round_aux_finite (sx s : bool) (mx ex : Z) (lx : location)
    (m : positive) (e : Z) :
  0 <= mx ->
  binary_round_aux prec emax sx mx ex lx = S754_finite s m e ->
  s = sx /\ Zpos m < 2 ^ 53 /\ -1074 <= e <= 971.
Proof.
  intros Hmx.
  destruct (binary_round_aux_cases sx mx ex lx Hmx)
    as (m' & _ & _ & Hemin & [[_ ->]|[[Hm' ->]|[Hm' ->]]]).
  - discriminate.
  - destruct (Z.leb_spec (ex + Z.max (fexp prec emax (Zdigits2 mx + ex) - ex) 0) 971);
      [|discriminate].
    intros [= <- <- <-]. rewrite Z2Pos.id by lia. repeat split; lia.
  - destruct (Z.leb_spec (ex + Z.max (fexp prec emax (Zdigits2 mx + ex) - ex) 0 + 1) 971);
      [|discriminate].
    intros [= <- <- <-]. rewrite two_pow_53. repeat split; simpl; lia.
Qed.

Lemma binary_round_aux_not_nan (sx : bool) (mx ex : Z) (lx : location) :
  0 <= mx -> binary_round_aux prec emax sx mx ex lx <> S754_nan.
Proof.
  intros Hmx.
  destruct (binary_round_aux_cases sx mx ex lx Hmx)
    as (m' & _ & _ & _ & [[_ ->]|[[_ ->]|[_ ->]]]);
    try discriminate; destruct (_ <=? _); discriminate.
Qed.

End Rounding.

Section Operations.

(** A float made from an integer is a zero or a float of the format. *)
Lemma float_of_int_shape (n : Z) (operand : spec_float) :
  float_of_int n = Ret operand ->
  (exists s, operand = S754_zero s) \/
  (exists m e, operand = S754_finite (n <? 0) m e /\
               Zpos m < 2 ^ 53 /\ -1074 <= e <= 971).
Proof.
  unfold float_of_int, float_of_Z, binary_normalize.
  destruct n as [|p|p]; simpl.
  - intros [= <-]. left. eauto.
  - unfold binary_round.
    destruct (shl_align p 0 (fexp prec emax (Zpos (digits2_pos p) + 0))) as [mz ez].
    destruct (binary_round_aux prec emax false (Zpos mz) ez loc_Exact) as [s|s| |s m e] eqn:E;
      try discriminate; intros [= <-].
    + left. eauto.
    + exfalso. apply (binary_round_aux_not_nan false (Zpos mz) ez loc_Exact); [lia|exact E].
    + right. apply binary_round_aux_finite in E as (-> & Hm & He); [|lia]. eauto.
  - unfold binary_round.
    destruct (shl_align p 0 (fexp prec emax (Zpos (digits2_pos p) + 0))) as [mz ez].
    destruct (binary_round_aux prec emax true (Zpos mz) ez loc_Exact) as [s|s| |s m e] eqn:E;
      try discriminate; intros [= <-].
    + left. eauto.
    + exfalso. apply (binary_round_aux_not_nan true (Zpos mz) ez loc_Exact); [lia|exact E].
    + right. apply binary_round_aux_finite in E as (-> & Hm & He); [|lia]. eauto.
Qed.

(** A finite quotient is a float of the format. *)
Lemma float_div_finite (x y : spec_float) (s : bool) (m : positive) (e : Z) :
  float_div x y = S754_finite s m e -> Zpos m < 2 ^ 53 /\ -1074 <= e <= 971.
Proof.
  unfold float_div, SFdiv.
  destruct x as [sx|sx| |sx mx ex], y as [sy|sy| |sy my ey]; try discriminate.
  unfold SFdiv_core_binary.
  set (s' := ex - ey - Z.min _ _).
  set (m' := match s' with Z0 => Zpos mx | Zpos _ => Z.shiftl (Zpos mx) s' | Zneg _ => 0 end).
  assert (Hm' : 0 <= m').
  { unfold m'. destruct s'; try lia. apply Z.shiftl_nonneg. lia. }
  pose proof (Z.div_pos m' (Zpos my) Hm' ltac:(lia)) as Hq.
  unfold Z.div in Hq.
  destruct (Z.div_eucl m' (Zpos my)) as [q r].
  intros E. apply binary_round_aux_finite in E as (_ & H1 & H2); [tauto|exact Hq].
Qed.

Lemma float_one : float_of_Z 1 = S754_finite false 4503599627370496 (-52).
Proof. reflexivity. Qed.

(** A valid rate is a zero, or a positive float that is at most 1. *)
Lemma valid_ctr_bounds (raw_ctr : string) (ctr : spec_float) :
  valid_ctr raw_ctr ctr ->
  (exists s, ctr = S754_zero s) \/
  (exists m e, ctr = S754_finite false m e /\ e <= -52 /\ Zpos m <= 2 ^ (- e)).
Proof.
  intros H. destruct (valid_ctr_shape _ _ H) as [|(m & e & ->)]; [left; assumption|].
  right. exists m, e. split; [reflexivity|].
  destruct H as (i & f & _ & _ & Hdiv & H1 & _).
  symmetry in Hdiv. apply float_div_finite in Hdiv as [Hm _].
  revert H1. rewrite float_one. unfold float_le, SFleb, SFcompare.
  destruct (Z.compare_spec e (-52)) as [->|Hlt|Hgt]; [| |discriminate].
  - rewrite Pos.compare_cont_spec. simpl Pos.switch_Eq.
    change (2 ^ (- (-52))) with 4503599627370496. clear Hm.
    destruct (Pos.compare_spec m 4503599627370496) as [->|Hl|Hg];
      try discriminate; intros _.
    + split; lia.
    + apply Pos2Z.pos_lt_pos in Hl. split; lia.
  - intros _. split; [lia|].
    apply Z.lt_le_incl. eapply Z.lt_le_trans; [exact Hm|].
    clear Hm. apply Z.pow_le_mono_r; lia.
Qed.

(** The product of a positive rate that is at most 1 and a float of the
    format is a zero or a float of the format that is, in magnitude,
    at most the float. *)
Lemma mul_by_rate (mc : positive) (ec : Z) (sI : bool) (mI : positive) (eI : Z) :
  Zpos mc <= 2 ^ (- ec) -> ec <= -52 -> Zpos mI < 2 ^ 53 -> -1074 <= eI <= 971 ->
  float_mul (S754_finite false mc ec) (S754_finite sI mI eI) = S754_zero sI \/
  exists m e,
    float_mul (S754_finite false mc ec) (S754_finite sI mI eI) = S754_finite sI m e /\
    e <= eI /\ Zpos m <= Zpos mI * 2 ^ (eI - e).
Proof.
  intros Hmc Hec HmI HeI. unfold float_mul, SFmul. simpl xorb.
  rewrite Pos2Z.inj_mul.
  set (mx := Zpos mc * Zpos mI). set (ex := ec + eI).
  assert (Hmx : 0 < mx) by (unfold mx; lia).
  assert (Hpc : 0 < 2 ^ (- ec)) by (apply Z.pow_pos_nonneg; lia).
  assert (Hbound : mx <= Zpos mI * 2 ^ (- ec)) by (unfold mx; nia).
  assert (HD : Zdigits2 mx <= 53 - ec).
  { apply Zdigits2_le; [lia|]. split; [lia|].
    replace (53 - ec) with (53 + - ec) by lia. rewrite Z.pow_add_r by lia. nia. }
  destruct (binary_round_aux_cases sI mx ex loc_Exact ltac:(lia))
    as (m' & Hm' & Hexact & Hemin & Hres).
  set (n := Z.max (fexp prec emax (Zdigits2 mx + ex) - ex) 0) in *.
  assert (Hn : 0 <= n) by (unfold n; lia).
  assert (He1 : ex + n <= eI) by (unfold n, ex; rewrite fexp_eq; lia).
  assert (H2n : 0 < 2 ^ n) by (apply Z.pow_pos_nonneg; lia).
  set (K := Zpos mI * 2 ^ (eI - (ex + n))).
  assert (HK : Zpos mI * 2 ^ (- ec) = K * 2 ^ n).
  { unfold K. rewrite <- Z.mul_assoc, <- Z.pow_add_r by lia.
    do 2 f_equal. unfold ex. lia. }
  assert (Hle : m' <= K).
  { destruct (Z.eq_dec (mx mod 2 ^ n) 0) as [Hdiv|Hndiv].
    - rewrite Hexact; [|reflexivity|].
      + apply Z.div_le_upper_bound; lia.
      + exists (mx / 2 ^ n). split; [apply Z.div_pos; lia|].
        apply Z_div_exact_2; lia.
    - assert (mx / 2 ^ n < K); [|lia].
      apply Z.div_lt_upper_bound; [lia|].
      assert (mx <> K * 2 ^ n); [|lia].
      intros Heq. apply Hndiv. rewrite Heq. apply Z.mod_mul. lia. }
  destruct Hres as [[_ ->]|[[Hmid ->]|[Htop ->]]].
  - left. reflexivity.
  - right. destruct (Z.leb_spec (ex + n) 971); [|lia].
    exists (Z.to_pos m'), (ex + n). split; [reflexivity|]. split; [exact He1|].
    rewrite Z2Pos.id by lia. exact Hle.
  - right.
    assert (Hgap : 1 <= eI - (ex + n)).
    { destruct (Z.eq_dec (eI - (ex + n)) 0) as [E0|]; [|lia].
      unfold K in Hle. rewrite E0 in Hle. simpl (2 ^ 0) in Hle. lia. }
    destruct (Z.leb_spec (ex + n + 1) 971); [|lia].
    exists (Z.to_pos (2 ^ 52)), (ex + n + 1). split; [reflexivity|]. split; [lia|].
    unfold K in Hle.
    replace (eI - (ex + n)) with (1 + (eI - (ex + n + 1))) in Hle by lia.
    rewrite Z.pow_add_r in Hle by lia.
    rewrite Htop, two_pow_53 in Hle. change (2 ^ 1) with 2 in Hle.
    change (Zpos (Z.to_pos (2 ^ 52))) with 4503599627370496. lia.
Qed.

End Operations.

Section Round.

Lemma round_half_even_nonneg (m e : Z) : 0 <= m -> 0 <= round_half_even m e.
Proof.
  intros Hm. unfold round_half_even.
  destruct (Z.leb_spec 0 e).
  - assert (0 < 2 ^ e) by (apply Z.pow_pos_nonneg; lia). nia.
  - assert (0 < 2 ^ (- e)) by (apply Z.pow_pos_nonneg; lia).
    assert (0 <= m / 2 ^ (- e)) by (apply Z.div_pos; lia).
    destruct (_ ?= _); [destruct (Z.even _)| |]; lia.
Qed.

(** Rounding a value that is at most an integer gives at most that
    integer. *)
Lemma round_half_even_le (m e n : Z) :
  0 <= m ->
  (0 <= e -> m * 2 ^ e <= n) ->
  (e < 0 -> m <= n * 2 ^ (- e)) ->
  round_half_even m e <= n.
Proof.
  intros Hm Hpos Hneg. unfold round_half_even.
  destruct (Z.leb_spec 0 e) as [He|He]; [auto|].
  specialize (Hneg He).
  set (d := 2 ^ (- e)) in *.
  assert (Hd : 0 < d) by (apply Z.pow_pos_nonneg; lia).
  pose proof (Z.div_mod m d ltac:(lia)) as Hdm.
  pose proof (Z.mod_pos_bound m d Hd) as Hr.
  assert (Hq : m / d <= n) by (apply Z.div_le_upper_bound; lia).
  assert (Hup : 0 < m mod d -> m / d + 1 <= n) by (intros; nia).
  destruct (Z.compare_spec (2 * (m mod d)) d) as [E|L|G].
  - destruct (Z.even (m / d)); [exact Hq|apply Hup; lia].
  - exact Hq.
  - apply Hup. lia.
Qed.

End Round.

Section Exact.

Lemma iter_xO (p d : positive) : Zpos (Pos.iter xO p d) = Zpos p * 2 ^ Zpos d.
Proof.
  induction d as [|d IH] using Pos.peano_ind.
  - simpl. lia.
  - rewrite Pos.iter_succ, Pos2Z.inj_xO, IH, Pos2Z.inj_succ, Z.pow_succ_r by lia. lia.
Qed.

Lemma two_pow_52 : 2 ^ 52 = 4503599627370496.
Proof. reflexivity. Qed.

(** Up to 2 ^ 53 the float of an integer is that integer. *)
Lemma float_of_Z_exact (n : Z) :
  0 < n <= 2 ^ 53 ->
  exists m e,
    float_of_Z n = S754_finite false m e /\ represents n m e /\
    Zpos m < 2 ^ 53 /\ -1074 <= e <= 971.
Proof.
  intros [Hpos Hle]. rewrite two_pow_53 in Hle.
  destruct (Z.eq_dec n 9007199254740992) as [->|Hne].
  { exists 4503599627370496%positive, 1. split; [reflexivity|].
    split; [left; split; [lia|reflexivity]|]. rewrite two_pow_53. split; lia. }
  destruct n as [|p|p]; try lia. clear Hpos.
  assert (Hp : Zpos p < 2 ^ 53) by (rewrite two_pow_53; lia).
  pose proof (digits2_pos_bounds p) as [Hlo Hhi].
  set (D := Zpos (digits2_pos p)) in *.
  assert (HD : 1 <= D <= 53).
  { split; [unfold D; lia|].
    apply (Zdigits2_le (Zpos p) 53); [lia|split; [lia|exact Hp]]. }
  unfold float_of_Z, binary_normalize, binary_round, shl_align. fold D.
  rewrite fexp_eq.
  replace (Z.max (D + 0 - 53) (-1074) - 0) with (D - 53) by lia.
  replace (Z.max (D + 0 - 53) (-1074)) with (D - 53) by lia.
  destruct (D - 53) as [|q|q] eqn:Eq; try lia.
  - (* 53 digits: nothing to shift *)
    destruct (binary_round_aux_cases false (Zpos p) 0 loc_Exact ltac:(lia))
      as (m' & Hm' & Hexact & _ & Hres).
    assert (Hdig : Zdigits2 (Zpos p) = 53) by (change (Zdigits2 (Zpos p)) with D; lia).
    rewrite Hdig, fexp_eq in *.
    replace (Z.max (Z.max (53 + 0 - 53) (-1074) - 0) 0) with 0 in * by lia.
    change (2 ^ 0) with 1 in *. rewrite Z.div_1_r in *.
    assert (m' = Zpos p) as ->.
    { apply Hexact; [reflexivity|]. exists (Zpos p). split; lia. }
    destruct Hres as [[H0 _]|[[Hmid ->]|[Htop _]]]; try lia.
    exists p, 0. split; [reflexivity|]. split; [left; split; [lia|simpl; lia]|].
    split; [exact Hp|lia].
  - (* fewer digits: the mantissa is shifted up to 53 digits *)
    set (mz := Pos.iter xO p q).
    assert (Hmz : Zpos mz = Zpos p * 2 ^ Zpos q) by apply iter_xO.
    assert (Hq : Zpos q = 53 - D) by lia.
    assert (H2q : 0 < 2 ^ Zpos q) by (apply Z.pow_pos_nonneg; lia).
    assert (Hmz_hi : Zpos mz < 2 ^ 53).
    { rewrite Hmz. replace 53 with (D + Zpos q) by lia.
      rewrite Z.pow_add_r by lia. nia. }
    assert (Hmz_lo : 2 ^ 52 <= Zpos mz).
    { rewrite Hmz. replace 52 with ((D - 1) + Zpos q) by lia.
      rewrite Z.pow_add_r by lia. nia. }
    assert (Hdig : Zdigits2 (Zpos mz) = 53).
    { apply Z.le_antisymm.
      - apply Zdigits2_le; [lia|split; [lia|exact Hmz_hi]].
      - pose proof (Zdigits2_gt (Zpos mz) 52 ltac:(lia) Hmz_lo). lia. }
    destruct (binary_round_aux_cases false (Zpos mz) (Zneg q) loc_Exact ltac:(lia))
      as (m' & Hm' & Hexact & _ & Hres).
    rewrite Hdig, fexp_eq in *.
    replace (Z.max (Z.max (53 + Z.neg q - 53) (-1074) - Z.neg q) 0) with 0 in * by lia.
    change (2 ^ 0) with 1 in *. rewrite Z.div_1_r in *.
    assert (m' = Zpos mz) as ->.
    { apply Hexact; [reflexivity|]. exists (Zpos mz). split; lia. }
    destruct Hres as [[H0 _]|[[Hmid ->]|[Htop _]]]; try lia.
    destruct (Z.leb_spec (Z.neg q + 0) 971); [|lia].
    exists mz, (Z.neg q). rewrite Z.add_0_r. split; [reflexivity|].
    split; [right; split; [lia|]|].
    + rewrite Hmz. reflexivity.
    + split; [exact Hmz_hi|lia].
Qed.

End Exact.

(** ** Clicks *)

(** With a valid rate the product is a zero or a finite float, so that
    [round] returns. *)
Lemma product_rounds (raw_ctr : string) (ctr operand : spec_float) (n : Z) :
  valid_ctr raw_ctr ctr -> float_of_int n = Ret operand ->
  exists k, py_round (float_mul ctr operand) = Ret k.
Proof.
  intros Hctr Hop.
  destruct (valid_ctr_bounds _ _ Hctr) as [[s ->]|(mc & ec & -> & Hec & Hmc)];
    destruct (float_of_int_shape _ _ Hop) as [[s' ->]|(mI & eI & -> & HmI & HeI)];
    try (simpl; eauto; fail).
  destruct (mul_by_rate mc ec (n <? 0) mI eI Hmc Hec HmI HeI) as [->|(m & e & -> & _)];
    simpl; eauto.
Qed.

(** The two normalizers disagree on a negative count: the impressions
    text [-1] has no value for [get_impressions] and a value, -1 clicks,
    for [get_clicks]. *)
Lemma negative_impressions_disagree :
  get_impressions "-1"
    = Ret {| val := None; msg := "value of number of impressions is negative" |} /\
  get_clicks "-1" "100%" = Ret {| val := Some (-1); msg := "OK" |}.
Proof. split; reflexivity. Qed.

(** X16. With a valid ctr in range, the two normalizers agree on
    every impressions text that is no integer (neither has a value), and
    on every text that is an integer Python converts to a float
    [get_clicks] has a value, whatever the sign, while [get_impressions]
    has one exactly when the integer is not negative. *)
Theorem impressions_parsed_twice (raw_impress raw_ctr : string) (ctr : spec_float) :
  valid_ctr raw_ctr ctr ->
  (forall e, py_int raw_impress = Raise e ->
     no_value (get_impressions raw_impress) /\
     no_value (get_clicks raw_impress raw_ctr)) /\
  (forall n operand,
     py_int raw_impress = Ret n -> float_of_int n = Ret operand ->
     has_value (get_clicks raw_impress raw_ctr) /\
     (has_value (get_impressions raw_impress) <-> 0 <= n)).
Proof.
  intros Hctr. split.
  - intros e He. rewrite get_impressions_spec, (get_clicks_valid_ctr _ _ _ Hctr), He.
    split; eexists; reflexivity.
  - intros n operand Hn Hop.
    rewrite get_impressions_spec, (get_clicks_valid_ctr _ _ _ Hctr), Hn, Hop.
    destruct (product_rounds _ _ _ _ Hctr Hop) as [k ->].
    split; [do 2 eexists; reflexivity|].
    destruct (Z.leb_spec 0 n); split; intros H'; try lia.
    + do 2 eexists; reflexivity.
    + destruct H' as (v & m & [=]).
Qed.

Lemma impressions_parsed_twice_witness :
  has_value (get_clicks "-1" "100%") /\ (has_value (get_impressions "-1") <-> 0 <= -1).
Proof.
  refine (proj2 (impressions_parsed_twice "-1" "100%"
                   (float_div (float_of_Z 100) (float_of_Z 100)) _)
            (-1) (float_of_Z (-1)) _ _).
  - exists 3%nat, (float_of_Z 100). repeat split; reflexivity.
  - reflexivity.
  - reflexivity.
Defined.

(** Past 2 ^ 53 the clicks can exceed the impressions: for
    9007199254740995 impressions at 100% the row is accepted with
    9007199254740996 clicks, one more than the impressions. *)
Lemma clicks_exceed_impressions :
  snd (process_row sample_runtime (map_state_country sample_runtime) 1
         "01/15/2019,California,9007199254740995,100%")
    = Valid ("2019-01-15", "USA", 9007199254740995, 9007199254740996) /\
  ~ (9007199254740996 <= 9007199254740995).
Proof. split; [reflexivity|lia]. Qed.

(** X17. For impressions [I] that [get_impressions] accepts, up
    to 2 ^ 53, and a valid ctr in range, the click count is [round] of the
    float product of the rate and [I], and lies between 0 and [I]; and the
    line [01/15/2019,California,1000,25.5%] is accepted as
    (2019-01-15, USA, 1000, 255). *)
Theorem clicks_within_impressions :
  (forall (raw_impress raw_ctr : string) (ctr : spec_float) (I : Z),
     get_impressions raw_impress = Ret {| val := Some I; msg := "OK" |} ->
     valid_ctr raw_ctr ctr ->
     I <= 2 ^ 53 ->
     exists operand click_count,
       float_of_int I = Ret operand /\
       py_round (float_mul ctr operand) = Ret click_count /\
       get_clicks raw_impress raw_ctr = Ret {| val := Some click_count; msg := "OK" |} /\
       0 <= click_count <= I) /\
  (forall (rt : runtime) (sc : gmap string string) (counter : Z),
     sc !! "California" = Some "USA" ->
     snd (process_row rt sc counter "01/15/2019,California,1000,25.5%")
       = Valid ("2019-01-15", "USA", 1000, 255)).
Proof.
  split.
  - intros raw_impress raw_ctr ctr I Himp Hctr Hle.
    rewrite get_impressions_spec in Himp.
    destruct (py_int raw_impress) as [n|e] eqn:Hn; [|discriminate].
    destruct (Z.leb_spec 0 n) as [Hn0|]; [|discriminate].
    injection Himp as <-.
    rewrite (get_clicks_valid_ctr _ _ _ Hctr), Hn.
    destruct (Z.eq_dec n 0) as [->|Hne].
    { (* no impressions: the product is a zero *)
      exists (S754_zero false), 0. split; [reflexivity|].
      assert (Hp : py_round (float_mul ctr (S754_zero false)) = Ret 0)
        by (destruct (valid_ctr_shape _ _ Hctr) as [[s ->]|(m & e & ->)]; reflexivity).
      change (float_of_int 0) with (@Ret spec_float (S754_zero false)).
      rewrite !Hp. repeat split; try reflexivity; lia. }
    destruct (float_of_Z_exact n ltac:(lia)) as (mI & eI & HfI & Hrep & HmI & HeI).
    assert (Hop : float_of_int n = Ret (S754_finite false mI eI))
      by (unfold float_of_int; rewrite HfI; reflexivity).
    rewrite Hop. exists (S754_finite false mI eI).
    destruct (valid_ctr_bounds _ _ Hctr) as [[s ->]|(mc & ec & -> & Hec & Hmc)].
    { exists 0. repeat split; try reflexivity; lia. }
    destruct (mul_by_rate mc ec false mI eI Hmc Hec HmI HeI)
      as [->|(m & e & -> & Hee & Hm)].
    { exists 0. repeat split; try reflexivity; lia. }
    exists (round_half_even (Zpos m) e). simpl py_round. cbv iota.
    repeat split.
    + apply round_half_even_nonneg. lia.
    + assert (H2 : 0 < 2 ^ (eI - e)) by (apply Z.pow_pos_nonneg; lia).
      apply round_half_even_le; [lia| |].
      * intros He.
        destruct Hrep as [[HeI0 ->]|[HeI0 _]]; [|lia].
        assert (0 < 2 ^ e) by (apply Z.pow_pos_nonneg; lia).
        assert (E : 2 ^ eI = 2 ^ (eI - e) * 2 ^ e)
          by (rewrite <- Z.pow_add_r by lia; f_equal; lia).
        rewrite E. nia.
      * intros He.
        assert (0 < 2 ^ (- e)) by (apply Z.pow_pos_nonneg; lia).
        destruct Hrep as [[HeI0 ->]|[HeI0 HmIn]].
        -- assert (0 < 2 ^ eI) by (apply Z.pow_pos_nonneg; lia).
           assert (E : 2 ^ (eI - e) = 2 ^ eI * 2 ^ (- e))
             by (rewrite <- Z.pow_add_r by lia; f_equal; lia).
           rewrite E in Hm. lia.
        -- assert (0 < 2 ^ (- eI)) by (apply Z.pow_pos_nonneg; lia).
           assert (E : 2 ^ (- e) = 2 ^ (- eI) * 2 ^ (eI - e))
             by (rewrite <- Z.pow_add_r by lia; f_equal; lia).
           rewrite E. rewrite HmIn in Hm. lia.
  - intros rt sc counter Hsc. unfold process_row.
    change (split "," "01/15/2019,California,1000,25.5%")
      with ["01/15/2019"; "California"; "1000"; "25.5%"].
    destruct (build_entry_four rt sc "01/15/2019" "California" "1000" "25.5%" [])
      as (d & i & Hd & Hi & ->).
    rewrite (get_date_reformatted rt "01/15/2019" eq_refl ltac:(discriminate)) in Hd.
    injection Hd as <-.
    rewrite get_impressions_spec in Hi. injection Hi as <-.
    change (get_clicks "1000" "25.5%") with (@Ret (Item Z) {| val := Some 255; msg := "OK" |}).
    unfold get_country. rewrite Hsc. reflexivity.
Qed.

Lemma clicks_within_impressions_witness :
  exists operand click_count,
    float_of_int 70 = Ret operand /\
    py_round (float_mul (float_div (float_of_Z 15) (float_of_Z 100)) operand)
      = Ret click_count /\
    get_clicks "70" "15%" = Ret {| val := Some click_count; msg := "OK" |} /\
    0 <= click_count <= 70.
Proof.
  refine (proj1 clicks_within_impressions "70" "15%"
            (float_div (float_of_Z 15) (float_of_Z 100)) 70 _ _ _).
  - reflexivity.
  - exists 2%nat, (float_of_Z 15). repeat split; reflexivity.
  - rewrite two_pow_53. lia.
Defined.
(** ** Decimal texts: [int(str(n))] *)

Lemma digits_tail_acc (d : Decimal.uint) (a : positive) (k : nat) :
  digits_tail (Zpos a) k (NilEmpty.string_of_uint d)
  = (Zpos (Pos.of_uint_acc d a), (k + Decimal.nb_digits d)%nat, EmptyString).
Proof.
  revert a k.
  induction d; intros a k; cbn [NilEmpty.string_of_uint Pos.of_uint_acc Decimal.nb_digits];
    [rewrite Nat.add_0_r; reflexivity|..];
    cbn [digits_tail]; match goal with |- context [is_digit ?c] => change (is_digit c) with true end; cbv iota;
    rewrite <- Nat.add_succ_comm;
    match goal with
    | |- context [digits_tail ?acc ?n _] =>
        match goal with
        | |- context [Pos.of_uint_acc _ ?p] =>
            replace acc with (Zpos p) by (unfold digit_val, code; simpl; lia)
        end
    end; apply IHd.
Qed.

Lemma digits_tail_zero (d : Decimal.uint) (k : nat) :
  digits_tail 0 k (NilEmpty.string_of_uint d)
  = (Z.of_uint d, (k + Decimal.nb_digits d)%nat, EmptyString).
Proof.
  unfold Z.of_uint. revert k.
  induction d; intros k; cbn [NilEmpty.string_of_uint Pos.of_uint Decimal.nb_digits];
    [rewrite Nat.add_0_r; reflexivity|..];
    cbn [digits_tail]; match goal with |- context [is_digit ?c] => change (is_digit c) with true end; cbv iota;
    rewrite <- Nat.add_succ_comm;
    try (change (10 * 0 + digit_val "0") with 0; apply IHd);
    match goal with
    | |- context [digits_tail ?acc ?n _] =>
        match goal with
        | |- context [Pos.of_uint_acc _ ?p] => change acc with (Zpos p)
        end
    end; cbn [Z.of_N]; apply digits_tail_acc.
Qed.

Lemma digitpart_uint (d : Decimal.uint) :
  d <> Decimal.Nil ->
  digitpart 0 (NilEmpty.string_of_uint d)
  = Some (Z.of_uint d, Decimal.nb_digits d, EmptyString).
Proof.
  intros Hd. pose proof (digits_tail_zero d O) as H. cbn [Nat.add] in H.
  rewrite <- H. destruct d; [congruence|..]; reflexivity.
Qed.

(** A decimal numeral is at least its first digit followed by zeros. *)
Lemma of_uint_acc_lower (d : Decimal.uint) (a : positive) :
  Zpos a * 10 ^ Z.of_nat (Decimal.nb_digits d) <= Zpos (Pos.of_uint_acc d a).
Proof.
  revert a.
  induction d; intros a; cbn [Pos.of_uint_acc Decimal.nb_digits];
    [change (10 ^ Z.of_nat 0) with 1; lia|..];
    rewrite Nat2Z.inj_succ, Z.pow_succ_r by lia;
    match goal with
    | |- _ <= Zpos (Pos.of_uint_acc _ ?p) =>
        specialize (IHd p);
        assert (0 < 10 ^ Z.of_nat (Decimal.nb_digits d)) by (apply Z.pow_pos_nonneg; lia);
        assert (Zpos a * 10 <= Zpos p) by lia
    end; nia.
Qed.

(** What [str] writes does not start with a zero. *)
Lemma to_uint_head (p : positive) (d : Decimal.uint) : Pos.to_uint p <> Decimal.D0 d.
Proof.
  intros E.
  pose proof (DecimalN.Unsigned.to_of (Pos.to_uint p)) as U.
  change (N.of_uint (Pos.to_uint p)) with (Pos.of_uint (Pos.to_uint p)) in U.
  rewrite DecimalPos.Unsigned.of_to in U. cbn [N.to_uint] in U.
  destruct (Decimal.nzhead (Pos.to_uint p)) eqn:Z0.
  - apply DecimalFacts.unorm_0 in Z0. rewrite Z0 in U.
    exact (DecimalPos.Unsigned.to_uint_nonzero p U).
  - rewrite U in E. rewrite DecimalFacts.unorm_nzhead in E by congruence.
    exact (DecimalFacts.nzhead_nonzero _ _ E).
  - rewrite U in E. rewrite DecimalFacts.unorm_nzhead in E by congruence.
    exact (DecimalFacts.nzhead_nonzero _ _ E).
  - rewrite U in E. rewrite DecimalFacts.unorm_nzhead in E by congruence.
    exact (DecimalFacts.nzhead_nonzero _ _ E).
  - rewrite U in E. rewrite DecimalFacts.unorm_nzhead in E by congruence.
    exact (DecimalFacts.nzhead_nonzero _ _ E).
  - rewrite U in E. rewrite DecimalFacts.unorm_nzhead in E by congruence.
    exact (DecimalFacts.nzhead_nonzero _ _ E).
  - rewrite U in E. rewrite DecimalFacts.unorm_nzhead in E by congruence.
    exact (DecimalFacts.nzhead_nonzero _ _ E).
  - rewrite U in E. rewrite DecimalFacts.unorm_nzhead in E by congruence.
    exact (DecimalFacts.nzhead_nonzero _ _ E).
  - rewrite U in E. rewrite DecimalFacts.unorm_nzhead in E by congruence.
    exact (DecimalFacts.nzhead_nonzero _ _ E).
  - rewrite U in E. rewrite DecimalFacts.unorm_nzhead in E by congruence.
    exact (DecimalFacts.nzhead_nonzero _ _ E).
  - rewrite U in E. rewrite DecimalFacts.unorm_nzhead in E by congruence.
    exact (DecimalFacts.nzhead_nonzero _ _ E).
Qed.

(** A positive integer below [10 ^ k] is written with [k] digits at
    most. *)
Lemma to_uint_digits (p : positive) (k : Z) :
  0 <= k -> Zpos p < 10 ^ k -> Z.of_nat (Decimal.nb_digits (Pos.to_uint p)) <= k.
Proof.
  intros Hk Hp.
  pose proof (DecimalPos.Unsigned.of_to p) as V.
  pose proof (DecimalPos.Unsigned.to_uint_nonnil p) as Hnil.
  pose proof (to_uint_head p) as Hhead.
  destruct (Pos.to_uint p) as [|d|d|d|d|d|d|d|d|d|d];
    [congruence|destruct (Hhead d eq_refl)|..];
    cbn [Pos.of_uint] in V; injection V as V;
    cbn [Decimal.nb_digits]; rewrite Nat2Z.inj_succ;
    match type of V with
    | Pos.of_uint_acc _ ?a = _ => pose proof (of_uint_acc_lower d a) as L
    end;
    rewrite V in L;
    assert (0 < 10 ^ Z.of_nat (Decimal.nb_digits d)) by (apply Z.pow_pos_nonneg; lia);
    assert (10 ^ Z.of_nat (Decimal.nb_digits d) < 10 ^ k) by nia;
    apply Z.pow_lt_mono_r_iff in H0; lia.
Qed.

Lemma lstrip_spaceless (s t : string) :
  s <> EmptyString -> spaceless s = true -> lstrip (s +:+ t) = s +:+ t.
Proof.
  destruct s as [|c s]; [congruence|]. intros _ H. simpl in *.
  apply andb_prop in H as [H _]. apply negb_true_iff in H. rewrite H. reflexivity.
Qed.

Lemma rstrip_blank (w : string) : blank w = true -> rstrip w = EmptyString.
Proof.
  induction w as [|c w IH]; [reflexivity|]. simpl. intros H.
  apply andb_prop in H as [Hc Hw]. rewrite (IH Hw), Hc. reflexivity.
Qed.

Lemma rstrip_spaceless (s w : string) :
  spaceless s = true -> blank w = true -> rstrip (s +:+ w) = s.
Proof.
  intros Hs Hw. induction s as [|c s IH]; [exact (rstrip_blank w Hw)|].
  simpl in *. apply andb_prop in Hs as [Hc Hs]. apply negb_true_iff in Hc.
  change (rstrip (String c (s +:+ w))) with
    (match rstrip (s +:+ w) with
     | EmptyString => if is_space c then EmptyString else String c EmptyString
     | t => String c t
     end).
  rewrite (IH Hs), Hc. destruct s; reflexivity.
Qed.

Lemma strip_spaceless (s w : string) :
  s <> EmptyString -> spaceless s = true -> blank w = true -> strip (s +:+ w) = s.
Proof.
  intros H0 Hs Hw. unfold strip.
  rewrite lstrip_spaceless by assumption. apply rstrip_spaceless; assumption.
Qed.

Lemma uint_spaceless (d : Decimal.uint) : spaceless (NilEmpty.string_of_uint d) = true.
Proof. induction d; simpl; try rewrite IHd; reflexivity. Qed.

Lemma uint_text (p : positive) :
  NilZero.string_of_uint (Pos.to_uint p) = NilEmpty.string_of_uint (Pos.to_uint p) /\
  exists c s, NilEmpty.string_of_uint (Pos.to_uint p) = String c s /\ is_digit c = true.
Proof.
  pose proof (DecimalPos.Unsigned.to_uint_nonnil p) as H.
  destruct (Pos.to_uint p); [congruence|..]; (split; [reflexivity|]);
    simpl; eexists _, _; (split; [reflexivity|reflexivity]).
Qed.

Lemma sign_prefix_digit (c : ascii) (s : string) :
  is_digit c = true -> sign_prefix (String c s) = (false, String c s).
Proof. intros H. char_cases c H; reflexivity. Qed.

Lemma uint_value (p : positive) : Z.of_uint (Pos.to_uint p) = Zpos p.
Proof. unfold Z.of_uint. rewrite DecimalPos.Unsigned.of_to. reflexivity. Qed.

(** [int] reads back what [str] writes, whatever white space follows,
    of integers of [max_str_digits] digits at most. *)
Lemma py_int_str (n : Z) (w : string) :
  blank w = true -> fits_str_digits n -> py_int (str_of_Z n +:+ w) = Ret n.
Proof.
  intros Hw Hn. unfold fits_str_digits in Hn.
  unfold py_int, str_of_Z. destruct n as [|p|p]; cbn [Z.to_int NilZero.string_of_int].
  - change (NilZero.string_of_uint _) with "0"%string.
    rewrite (strip_spaceless "0" w) by (auto; discriminate). reflexivity.
  - destruct (uint_text p) as [-> (c & s & E & Hc)].
    rewrite strip_spaceless by (auto using uint_spaceless; rewrite E; discriminate).
    rewrite E, sign_prefix_digit by exact Hc. rewrite <- E.
    rewrite digitpart_uint by apply DecimalPos.Unsigned.to_uint_nonnil.
    rewrite uint_value.
    assert (L : Z.of_nat (Decimal.nb_digits (Pos.to_uint p)) <= max_str_digits)
      by (apply to_uint_digits; [discriminate|exact Hn]).
    apply Z.leb_le in L. rewrite L. reflexivity.
  - destruct (uint_text p) as [-> (c & s & E & Hc)].
    rewrite (strip_spaceless (String "-" _) w);
      [|discriminate|simpl; apply uint_spaceless|exact Hw].
    cbn [sign_prefix]. change (Ascii.eqb "-" "-") with true. cbv iota.
    rewrite digitpart_uint by apply DecimalPos.Unsigned.to_uint_nonnil.
    rewrite uint_value.
    assert (L : Z.of_nat (Decimal.nb_digits (Pos.to_uint p)) <= max_str_digits)
      by (apply to_uint_digits; [discriminate|exact Hn]).
    apply Z.leb_le in L. rewrite L. reflexivity.
Qed.

(** A count that SQLite holds has far fewer digits. *)
Lemma int64_fits_str_digits (n : Z) : int64 n = true -> fits_str_digits n.
Proof.
  unfold int64, fits_str_digits. intros H. apply andb_prop in H as [H1 H2].
  apply Z.leb_le in H1. apply Z.ltb_lt in H2. rewrite two_pow_63 in H1, H2.
  apply Z.lt_le_trans with (10 ^ 19).
  - change (10 ^ 19) with 10000000000000000000. lia.
  - apply Z.pow_le_mono_r; [lia|discriminate].
Qed.

(** ** The ctr text of [get_clicks] *)

Lemma rfind_free_of (c : ascii) (s : string) : free_of c s = true -> rfind c s = None.
Proof.
  induction s as [|a s IH]; [reflexivity|]. simpl. intros H.
  apply andb_prop in H as [Ha Hs]. apply negb_true_iff in Ha.
  rewrite (IH Hs), Ha. reflexivity.
Qed.

Lemma rfind_last (c : ascii) (s t : string) :
  free_of c t = true -> rfind c (s +:+ String c t) = Some (String.length s).
Proof.
  intros Ht. induction s as [|a s IH]; simpl.
  - rewrite (rfind_free_of c t Ht), Ascii.eqb_refl. reflexivity.
  - change (rfind c (s +:+ String c t) = Some (String.length s)) in IH.
    rewrite IH. reflexivity.
Qed.

Lemma slice_to_app (s t : string) : slice_to (s +:+ t) (String.length s) = s.
Proof.
  unfold slice_to. induction s as [|a s IH]; simpl.
  - destruct t; reflexivity.
  - f_equal. exact IH.
Qed.

Lemma rindex_last (s t : string) :
  free_of "%" t = true ->
  rindex (s +:+ String "%" t) "%" = Ret (String.length s).
Proof. intros H. unfold rindex. rewrite (rfind_last _ _ _ H). reflexivity. Qed.

(** X1. [get_clicks] reads the ctr up to its last [%]: text after it
    that holds no [%], such as the line feed that ends every line, does
    not change the result. *)
Theorem text_after_percent_ignored (raw_impress s t : string) :
  free_of "%" t = true ->
  get_clicks raw_impress (s +:+ String "%" t) = get_clicks raw_impress (s +:+ "%").
Proof.
  intros Ht. unfold get_clicks.
  rewrite (rindex_last s t Ht), (rindex_last s "" eq_refl).
  unfold bind. rewrite !slice_to_app. reflexivity.
Qed.

Lemma text_after_percent_ignored_witness :
  get_clicks "1000" ("25.5" +:+ String "%" line_feed) = get_clicks "1000" ("25.5" +:+ "%").
Proof. apply (text_after_percent_ignored "1000" "25.5" line_feed). reflexivity. Defined.

(** X2. A ctr text without [%] gives no click count, whatever the
    impressions: the diagnostic is the one of an invalid format. *)
Theorem ctr_without_percent (raw_impress raw_ctr : string) :
  free_of "%" raw_ctr = true ->
  get_clicks raw_impress raw_ctr = Ret unable.
Proof.
  intros H. unfold get_clicks, except, bind, rindex.
  rewrite (rfind_free_of _ _ H).
  destruct (py_int raw_impress) as [n|e] eqn:E; [reflexivity|].
  apply py_int_raises in E as ->. reflexivity.
Qed.

Lemma ctr_without_percent_witness : get_clicks "1000" "0.25" = Ret unable.
Proof. apply (ctr_without_percent "1000" "0.25"). reflexivity. Defined.

(** X3. [get_clicks] lets one exception escape, and in one case only:
    [OverflowError], when the ctr is valid and the impressions are an
    integer too large to convert to a float.  Everything else comes back
    as an item. *)
Theorem get_clicks_escapes (raw_impress raw_ctr : string) (e : exn) :
  get_clicks raw_impress raw_ctr = Raise e <->
  e = OverflowError /\
  exists n ctr,
    py_int raw_impress = Ret n /\ valid_ctr raw_ctr ctr /\
    float_of_int n = Raise OverflowError.
Proof.
  split.
  - intros H. split; [exact (get_clicks_raises _ _ _ H)|].
    revert H. unfold get_clicks, except, bind, py_assert.
    destruct (py_int raw_impress) as [n|e1] eqn:E1;
      [|apply py_int_raises in E1 as ->; discriminate].
    destruct (rindex raw_ctr "%") as [i|e2] eqn:E2;
      [|apply rindex_raises in E2 as ->; discriminate].
    destruct (py_float (slice_to raw_ctr i)) as [f|e3] eqn:E3;
      [|apply py_float_raises in E3 as ->; discriminate].
    destruct (float_le _ _ && float_le _ _) eqn:A; [|discriminate].
    apply andb_prop in A as [A1 A2].
    assert (V : valid_ctr raw_ctr (float_div f (float_of_Z 100)))
      by (exists i, f; auto).
    destruct (float_of_int n) as [operand|e4] eqn:E4.
    + destruct (product_rounds _ _ _ _ V E4) as [k ->]. discriminate.
    + intros _. exists n, (float_div f (float_of_Z 100)).
      repeat split; try assumption.
      revert E4. unfold float_of_int. destruct (float_of_Z n); congruence.
  - intros [-> (n & ctr & E1 & V & E4)].
    rewrite (get_clicks_valid_ctr _ _ _ V), E1, E4. reflexivity.
Qed.

(** ** The rows that [read_data] inserts *)

(** Clicks computed from impressions that are not negative are not
    negative. *)
Lemma clicks_sign (raw_ctr : string) (ctr operand : spec_float) (n k : Z) :
  valid_ctr raw_ctr ctr -> float_of_int n = Ret operand -> 0 <= n ->
  py_round (float_mul ctr operand) = Ret k -> 0 <= k.
Proof.
  intros Hctr Hop Hn.
  assert (Hs : (n <? 0) = false) by (apply Z.ltb_ge; exact Hn).
  destruct (valid_ctr_bounds _ _ Hctr) as [[s ->]|(mc & ec & -> & Hec & Hmc)];
    destruct (float_of_int_shape _ _ Hop) as [[s' ->]|(mI & eI & -> & HmI & HeI)];
    try (simpl; intros [= <-]; lia).
  rewrite Hs.
  destruct (mul_by_rate mc ec false mI eI Hmc Hec HmI HeI) as [->|(m & e & -> & _)];
    simpl; intros [= <-]; [lia|].
  apply round_half_even_nonneg. lia.
Qed.

(** What a click count tells about the two texts it was computed from. *)
Lemma get_clicks_value (raw_impress raw_ctr : string) (k : Z) (m : string) :
  get_clicks raw_impress raw_ctr = Ret {| val := Some k; msg := m |} ->
  m = "OK"%string /\
  exists n ctr operand,
    py_int raw_impress = Ret n /\ valid_ctr raw_ctr ctr /\
    float_of_int n = Ret operand /\ py_round (float_mul ctr operand) = Ret k.
Proof.
  unfold get_clicks, except, bind, py_assert.
  destruct (py_int raw_impress) as [n|e1] eqn:E1;
    [|apply py_int_raises in E1 as ->; discriminate].
  destruct (rindex raw_ctr "%") as [i|e2] eqn:E2;
    [|apply rindex_raises in E2 as ->; discriminate].
  destruct (py_float (slice_to raw_ctr i)) as [f|e3] eqn:E3;
    [|apply py_float_raises in E3 as ->; discriminate].
  destruct (float_le _ _ && float_le _ _) eqn:A; [|discriminate].
  apply andb_prop in A as [A1 A2].
  assert (V : valid_ctr raw_ctr (float_div f (float_of_Z 100)))
    by (exists i, f; auto).
  destruct (float_of_int n) as [operand|e4] eqn:E4.
  - destruct (product_rounds _ _ _ _ V E4) as [k' Hk]. rewrite Hk.
    intros [= <- <-]. split; [reflexivity|].
    exists n, (float_div f (float_of_Z 100)), operand. auto.
  - revert E4. unfold float_of_int. destruct (float_of_Z n); try discriminate.
    intros [= <-]. discriminate.
Qed.

(** A line that passes has four columns or more, and its row is made of
    the values of the four normalizers on the first four. *)
Lemma process_row_valid (rt : runtime) (sc : gmap string string) (counter : Z)
    (line : string) (d c : string) (i k : Z) :
  snd (process_row rt sc counter line) = Valid (d, c, i, k) ->
  exists x0 x1 x2 x3 rest,
    split "," line = x0 :: x1 :: x2 :: x3 :: rest /\
    get_date rt x0 = Ret {| val := Some d; msg := "OK" |} /\
    c = default "XXX" (sc !! x1) /\
    py_int x2 = Ret i /\ 0 <= i /\
    get_clicks x2 x3 = Ret {| val := Some k; msg := "OK" |}.
Proof.
  unfold process_row.
  destruct (split "," line) as [|x0 [|x1 [|x2 [|x3 rest]]]] eqn:S.
  - discriminate.
  - unfold build_entry, tbind, quiet, invoke, item. cbn [nth_error].
    destruct (get_date_returns rt x0) as [it ->]. discriminate.
  - unfold build_entry, tbind, quiet, invoke, item. cbn [nth_error].
    destruct (get_date_returns rt x0) as [it ->]. discriminate.
  - unfold build_entry, tbind, quiet, invoke, item. cbn [nth_error].
    destruct (get_date_returns rt x0) as [it ->].
    destruct (get_impressions_returns x2) as [it2 ->]. discriminate.
  - destruct (build_entry_four rt sc x0 x1 x2 x3 rest) as (di & ii & Hd & Hi & ->).
    cbn [snd]. destruct (get_clicks x2 x3) as [ki|e] eqn:K.
    + cbn [date country impressions clicks get_country val].
      destruct (val di) as [d'|] eqn:Vd; [|discriminate].
      destruct (val ii) as [i'|] eqn:Vi; [|discriminate].
      destruct (val ki) as [k'|] eqn:Vk; [|discriminate].
      intros [= <- <- <- <-].
      exists x0, x1, x2, x3, rest. split; [reflexivity|].
      rewrite get_impressions_spec in Hi.
      destruct (py_int x2) as [n|e] eqn:P; injection Hi as <-; [|discriminate].
      destruct (Z.leb_spec 0 n); [|discriminate]. simpl in Vi. injection Vi as <-.
      assert (Hdate : di = {| val := Some d'; msg := "OK" |}).
      { rewrite get_date_spec in Hd.
        destruct (strptime x0) as [[[y mo] da]|e]; injection Hd as <-; [|discriminate].
        simpl in Vd. injection Vd as <-. reflexivity. }
      assert (Hclicks : ki = {| val := Some k'; msg := "OK" |}).
      { destruct ki as [vk mk]. simpl in Vk. subst vk.
        destruct (get_clicks_value _ _ _ _ K) as [-> _]. reflexivity. }
      subst di ki. auto.
    + destruct e; discriminate.
Qed.

(** A row that passes and is inserted is an accepted row. *)
Lemma valid_row_accepted (rt : runtime) (sc : gmap string string) (counter : Z)
    (line : string) (r : row) (table table' : list row) :
  snd (process_row rt sc counter line) = Valid r ->
  insert table r = Ret table' ->
  table' = table ++ [r] /\ accepted r.
Proof.
  destruct r as [[[d c] i] k]. intros Hrow Hins.
  destruct (process_row_valid _ _ _ _ _ _ _ _ Hrow)
    as (x0 & x1 & x2 & x3 & rest & _ & _ & _ & Hi & Hi0 & Hk).
  destruct (get_clicks_value _ _ _ _ Hk) as (_ & n & ctr & operand & Hn & Hctr & Hop & Hround).
  assert (n = i) as -> by congruence.
  pose proof (clicks_sign _ _ _ _ _ Hctr Hop Hi0 Hround) as Hk0.
  revert Hins. unfold insert, int64.
  destruct (Z.leb_spec (- 2 ^ 63) i), (Z.ltb_spec i (2 ^ 63)),
    (Z.leb_spec (- 2 ^ 63) k), (Z.ltb_spec k (2 ^ 63)); simpl; try discriminate.
  intros [= <-]. repeat split; assumption.
Qed.

(** One turn of the loop that does not raise either inserts an accepted
    row or prints one diagnostic, numbered with the line, and counts one
    error. *)
Lemma step_accounts (rt : runtime) (sc : gmap string string) (counter : Z)
    (w w' : world) (error_count error_count' : Z) (line : string) :
  step rt sc counter (w, error_count) line = Ret (w', error_count') ->
  (exists r, metrics w' = metrics w ++ [r] /\ accepted r /\
             stderr w' = stderr w /\ error_count' = error_count) \/
  (exists reason, metrics w' = metrics w /\
                  stderr w' = stderr w ++ [error_in_line counter reason] /\
                  error_count' = error_count + 1).
Proof.
  unfold step.
  destruct (snd (process_row rt sc counter line)) as [r|diagnostic|e] eqn:E;
    [| |discriminate].
  - unfold bind. destruct (insert (metrics w) r) as [m|e] eqn:I; [|discriminate].
    intros [= <- <-]. left. exists r.
    destruct (valid_row_accepted _ _ _ _ _ _ _ E I) as [-> Hacc]. auto.
  - intros [= <- <-]. right.
    assert (exists reason, diagnostic = error_in_line counter reason) as [reason ->].
    { revert E. unfold process_row.
      destruct (build_entry rt sc (split "," line)) as [calls [en|e]]; cbn [snd].
      - destruct (val (date en)), (val (country en)), (val (impressions en)),
          (val (clicks en)); intros [= <-]; eauto.
      - destruct e; intros [= <-]; eauto. }
    exists reason. auto.
Qed.

(** The loop, whether it ends or raises, has only added accepted rows
    to the table. *)
Lemma read_lines_rows (rt : runtime) (sc : gmap string string) (ls : list string)
    (counter : Z) (w0 w : world) (c0 : Z) (r : res Z) :
  read_lines rt sc ls counter (w0, c0) = (w, r) ->
  exists rows, metrics w = metrics w0 ++ rows /\ Forall accepted rows.
Proof.
  revert counter w0 c0.
  induction ls as [|line rest IH]; intros counter w0 c0; cbn [read_lines fst snd].
  - intros [= <- _]. exists []. rewrite app_nil_r. auto.
  - destruct (step rt sc counter (w0, c0) line) as [[w1 c1]|e] eqn:S.
    + intros H. destruct (IH _ _ _ H) as (rows & Hrows & Hacc).
      destruct (step_accounts _ _ _ _ _ _ _ _ S)
        as [(r0 & Hm & Hr0 & _)|(reason & Hm & _)]; rewrite Hm in Hrows.
      * exists (r0 :: rows). rewrite <- app_assoc in Hrows. auto.
      * exists rows. auto.
    + intros [= <- _]. exists []. rewrite app_nil_r. auto.
Qed.

(** The loop that ends has, for each line, added a row or printed a
    diagnostic and counted an error. *)
Lemma read_lines_accounts (rt : runtime) (sc : gmap string string) (ls : list string)
    (counter : Z) (w0 w : world) (c0 c : Z) :
  read_lines rt sc ls counter (w0, c0) = (w, Ret c) ->
  exists rows diagnostics,
    metrics w = metrics w0 ++ rows /\
    stderr w = stderr w0 ++ diagnostics /\
    c = c0 + Z.of_nat (length diagnostics) /\
    (length rows + length diagnostics = length ls)%nat /\
    Forall accepted rows /\
    Forall (fun diagnostic =>
              exists k reason, diagnostic = error_in_line k reason /\
                               counter <= k < counter + Z.of_nat (length ls))
           diagnostics.
Proof.
  revert counter w0 c0.
  induction ls as [|line rest IH]; intros counter w0 c0; cbn [read_lines fst snd].
  - intros [= <- <-]. exists [], []. rewrite !app_nil_r. simpl.
    repeat split; auto; lia.
  - destruct (step rt sc counter (w0, c0) line) as [[w1 c1]|e] eqn:S; [|discriminate].
    intros H.
    destruct (IH _ _ _ H) as (rows & diags & Hrows & Hdiags & Hc & Hlen & Hacc & Hnum).
    assert (Hnum' : Forall (fun diagnostic =>
              exists k reason, diagnostic = error_in_line k reason /\
                               counter <= k < counter + Z.of_nat (length (line :: rest)))
           diags).
    { eapply List.Forall_impl; [|exact Hnum]. intros a (k & reason & -> & Hk).
      exists k, reason. split; [reflexivity|]. cbn [length]. lia. }
    destruct (step_accounts _ _ _ _ _ _ _ _ S)
      as [(r0 & Hm & Hr0 & He & ->)|(reason & Hm & He & ->)];
      rewrite Hm in Hrows; rewrite He in Hdiags.
    + exists (r0 :: rows), diags. rewrite <- app_assoc in Hrows.
      repeat split; auto. cbn [length]. lia.
    + exists rows, (error_in_line counter reason :: diags).
      rewrite <- app_assoc in Hdiags.
      repeat split; auto; cbn [length]; try lia.
      constructor; [|exact Hnum'].
      exists counter, reason. split; [reflexivity|]. lia.
Qed.

(** X4. Whatever the file holds and however [read_data] ends, the rows
    it has added to the table are accepted rows: impressions and clicks
    that are not negative and fit SQLite's integers.  A table of
    accepted rows stays one. *)
Theorem table_stays_accepted (rt : runtime) (f : decoded) (cur w : world)
    (r : res string) :
  Forall accepted (metrics cur) ->
  read_data rt f cur = (w, r) ->
  Forall accepted (metrics w).
Proof.
  intros Hcur. unfold read_data.
  destruct (read_lines rt (map_state_country rt) (lines f) 1 (cur, 0)) as [w1 r1] eqn:R.
  destruct (read_lines_rows _ _ _ _ _ _ _ _ R) as (rows & Hrows & Hacc).
  assert (Forall accepted (metrics w1))
    by (rewrite Hrows; apply Forall_app; auto).
  destruct r1 as [c|e]; [destruct (complete f)|]; intros [= <- _]; assumption.
Qed.

Lemma table_stays_accepted_witness :
  Forall accepted
    (metrics (fst (read_data sample_runtime
                     (open_file sample_runtime utf_8 (utf8_bytes two_lines)) create_db))).
Proof.
  refine (table_stays_accepted sample_runtime
            (open_file sample_runtime utf_8 (utf8_bytes two_lines)) create_db _ _ _ _).
  - constructor.
  - apply surjective_pairing.
Defined.

(** [read_data] returns for a file that decodes to its end only, and
    then every line has added an accepted row or printed a diagnostic. *)
Lemma read_data_returns (rt : runtime) (f : decoded) (cur w : world)
    (error_msg : string) :
  read_data rt f cur = (w, Ret error_msg) ->
  complete f = true /\
  exists rows diagnostics,
    metrics w = metrics cur ++ rows /\
    stderr w = stderr cur ++ diagnostics /\
    (length rows + length diagnostics = length (lines f))%nat /\
    error_msg = "Total number of invalid lines in the input file: "
                  +:+ str_of_Z (Z.of_nat (length diagnostics)) /\
    Forall accepted rows /\
    Forall (fun diagnostic =>
              exists k reason, diagnostic = error_in_line k reason /\
                               1 <= k <= Z.of_nat (length (lines f)))
           diagnostics.
Proof.
  unfold read_data.
  destruct (read_lines rt (map_state_country rt) (lines f) 1 (cur, 0)) as [w1 [c|e]] eqn:R;
    [|discriminate].
  destruct (complete f); [|discriminate]. intros [= <- <-]. split; [reflexivity|].
  destruct (read_lines_accounts _ _ _ _ _ _ _ _ R)
    as (rows & diags & Hrows & Hdiags & -> & Hlen & Hacc & Hnum).
  exists rows, diags. repeat split; auto.
  eapply List.Forall_impl; [|exact Hnum]. intros a (k & reason & -> & Hk).
  exists k, reason. split; [reflexivity|lia].
Qed.

(** X5. When [read_data] returns, every line of the file has either
    added one row to the table or printed one diagnostic: the summary
    names the number of diagnostics printed, rows and diagnostics come
    after what was there before, and each diagnostic carries the number
    of a line of the file, counted from 1. *)
Theorem every_line_accounted (rt : runtime) (f : decoded) (cur w : world)
    (error_msg : string) :
  read_data rt f cur = (w, Ret error_msg) ->
  exists rows diagnostics,
    metrics w = metrics cur ++ rows /\
    stderr w = stderr cur ++ diagnostics /\
    (length rows + length diagnostics = length (lines f))%nat /\
    error_msg = "Total number of invalid lines in the input file: "
                  +:+ str_of_Z (Z.of_nat (length diagnostics)) /\
    Forall (fun diagnostic =>
              exists k reason, diagnostic = error_in_line k reason /\
                               1 <= k <= Z.of_nat (length (lines f)))
           diagnostics.
Proof.
  intros H.
  destruct (read_data_returns _ _ _ _ _ H)
    as (_ & rows & diags & H1 & H2 & H3 & H4 & _ & H5).
  exists rows, diags. auto.
Qed.

Lemma every_line_accounted_witness :
  exists rows diagnostics,
    [("2019-01-01", "USA", 100, 10)] = [] ++ rows /\
    ["Error in line 2: missing column"] = [] ++ diagnostics /\
    (length rows + length diagnostics = 2)%nat /\
    "Total number of invalid lines in the input file: 1"
      = "Total number of invalid lines in the input file: "
          +:+ str_of_Z (Z.of_nat (length diagnostics)) /\
    Forall (fun diagnostic =>
              exists k reason, diagnostic = error_in_line k reason /\ 1 <= k <= 2)
           diagnostics.
Proof.
  refine (every_line_accounted sample_runtime
            {| lines := ["01/01/2019,Texas,100,10%" +:+ line_feed; "01/01/2019,Texas"];
               complete := true |}
            create_db
            {| metrics := [("2019-01-01", "USA", 100, 10)];
               stderr := ["Error in line 2: missing column"] |}
            "Total number of invalid lines in the input file: 1" _).
  vm_compute. reflexivity.
Defined.

(** ** Totals of the report *)

Lemma sum_step_Some (p : sum_state) (v s' : Z) :
  sum_step p v = Some s' -> exists s, p = Some s /\ s' = s + v.
Proof.
  destruct p as [s|]; simpl; [|discriminate].
  destruct (int64 (s + v)); [|discriminate]. intros [= <-]. eauto.
Qed.

Lemma total_of_group_by (column : group -> sum_state) (value : row -> Z)
    (r : row) (groups : list group) (t' : Z) :
  (forall g, column (group_add g r) = sum_step (column g) (value r)) ->
  (forall k, column {| group_key := k; sum_impressions := sum_init;
                       sum_clicks := sum_init |} = sum_init) ->
  total_of column (group_by r groups) = Some t' ->
  exists t, total_of column groups = Some t /\ t' = t + value r.
Proof.
  intros Hadd Hnew. revert t'.
  induction groups as [|g rest IH]; intros t'; cbn [group_by].
  - unfold group_new. cbn [total_of fold_right]. rewrite Hadd, Hnew.
    destruct (sum_step sum_init (value r)) as [s'|] eqn:E; [|discriminate].
    apply sum_step_Some in E as (s & [= <-] & ->). intros [= <-].
    exists 0. split; [reflexivity|lia].
  - destruct (key_compare (row_key r) (group_key g)).
    + change (total_of column (group_add g r :: rest))
        with (match column (group_add g r), total_of column rest with
              | Some v, Some t => Some (v + t)
              | _, _ => None
              end).
      change (total_of column (g :: rest))
        with (match column g, total_of column rest with
              | Some v, Some t => Some (v + t)
              | _, _ => None
              end).
      rewrite Hadd.
      destruct (sum_step (column g) (value r)) as [s'|] eqn:E; [|discriminate].
      apply sum_step_Some in E as (s & -> & ->).
      destruct (total_of column rest) as [t|]; [|discriminate].
      intros [= <-]. exists (s + t). split; [reflexivity|lia].
    + change (total_of column (group_new r :: g :: rest))
        with (match column (group_new r), total_of column (g :: rest) with
              | Some v, Some t => Some (v + t)
              | _, _ => None
              end).
      unfold group_new. rewrite Hadd, Hnew.
      destruct (sum_step sum_init (value r)) as [s'|] eqn:E; [|discriminate].
      apply sum_step_Some in E as (s & [= <-] & ->).
      destruct (total_of column (g :: rest)) as [t|]; [|discriminate].
      intros [= <-]. exists t. split; [reflexivity|lia].
    + change (total_of column (g :: group_by r rest))
        with (match column g, total_of column (group_by r rest) with
              | Some v, Some t => Some (v + t)
              | _, _ => None
              end).
      change (total_of column (g :: rest))
        with (match column g, total_of column rest with
              | Some v, Some t => Some (v + t)
              | _, _ => None
              end).
      destruct (column g) as [v|]; [|discriminate].
      destruct (total_of column (group_by r rest)) as [t1|] eqn:E; [|discriminate].
      destruct (IH _ eq_refl) as (t & -> & ->).
      intros [= <-]. exists (v + t). split; [reflexivity|lia].
Qed.

Lemma sum_list_snoc (l : list Z) (v : Z) : sum_list (l ++ [v]) = sum_list l + v.
Proof. unfold sum_list. induction l as [|a l IH]; simpl in *; lia. Qed.

Lemma total_of_groups (column : group -> sum_state) (value : row -> Z)
    (metrics : list row) (t : Z) :
  (forall g r, column (group_add g r) = sum_step (column g) (value r)) ->
  (forall k, column {| group_key := k; sum_impressions := sum_init;
                       sum_clicks := sum_init |} = sum_init) ->
  total_of column (groups_of metrics) = Some t ->
  t = sum_list (map value metrics).
Proof.
  intros Hadd Hnew. revert t.
  induction metrics as [|r l IH] using rev_ind; intros t.
  - simpl. congruence.
  - unfold groups_of. rewrite fold_left_app. cbn [fold_left].
    fold (groups_of l). intros H.
    apply (total_of_group_by column value) in H as (t0 & H0 & ->); auto.
    rewrite map_app. cbn [map]. rewrite sum_list_snoc, <- (IH _ H0). reflexivity.
Qed.

Lemma total_of_report (groups : list group) (data : list row) :
  map_res group_result groups = Ret data ->
  total_of sum_impressions groups = Some (sum_list (map impressions_of data)) /\
  total_of sum_clicks groups = Some (sum_list (map clicks_of data)).
Proof.
  intros H. apply map_res_Ret in H.
  induction H as [|g r gs rs Hg _ [IHi IHc]]; [split; reflexivity|].
  apply group_result_Ret in Hg as (_ & Hi & Hc).
  cbn [total_of fold_right map]. fold (total_of sum_impressions gs).
  fold (total_of sum_clicks gs). rewrite Hi, Hc, IHi, IHc. split; reflexivity.
Qed.

(** X6. A report that [process_data] returns holds, over all its
    entries, the impressions of all rows of the table, and their clicks:
    grouping moves counts between rows and loses none. *)
Theorem report_keeps_totals (metrics data : list row) :
  process_data metrics = Ret data ->
  sum_list (map impressions_of data) = sum_list (map impressions_of metrics) /\
  sum_list (map clicks_of data) = sum_list (map clicks_of metrics).
Proof.
  unfold process_data. fold (groups_of metrics). intros H.
  apply total_of_report in H as [Hi Hc]. split.
  - apply (total_of_groups sum_impressions impressions_of metrics); auto.
    intros g [[[d c] i] k]. reflexivity.
  - apply (total_of_groups sum_clicks clicks_of metrics); auto.
    intros g [[[d c] i] k]. reflexivity.
Qed.

Lemma report_keeps_totals_witness :
  sum_list [7; 150; 5] = sum_list (map impressions_of sample_rows) /\
  sum_list [0; 20; 1] = sum_list (map clicks_of sample_rows).
Proof.
  exact (report_keeps_totals sample_rows
           [("2019-01-01", "CAN", 7, 0); ("2019-01-01", "USA", 150, 20);
            ("2019-01-02", "USA", 5, 1)] eq_refl).
Defined.

(** ** The run as a whole *)

Lemma read_data_raises (rt : runtime) (f : decoded) (cur w : world) (e : exn) :
  read_data rt f cur = (w, Raise e) ->
  e = OverflowError \/ (e = UnicodeError /\ complete f = false).
Proof.
  unfold read_data.
  destruct (read_lines rt (map_state_country rt) (lines f) 1 (cur, 0)) as [w1 [c|e1]] eqn:R.
  - destruct (complete f); [discriminate|]. intros [= _ <-]. auto.
  - intros [= _ <-]. left. exact (read_lines_raises _ _ _ _ _ _ _ R).
Qed.

Lemma group_result_raises (g : group) (e : exn) :
  group_result g = Raise e -> e = OperationalError.
Proof.
  unfold group_result, bind, sum_finalize.
  destruct (sum_impressions g), (sum_clicks g); congruence.
Qed.

Lemma map_res_raises {A B : Type} (f : A -> res B) (l : list A) (e : exn) :
  map_res f l = Raise e -> exists a, In a l /\ f a = Raise e.
Proof.
  induction l as [|a l IH]; simpl; [discriminate|]. unfold bind.
  destruct (f a) as [b|e1] eqn:E.
  - destruct (map_res f l) as [bs|e2]; [discriminate|].
    intros [= <-]. destruct (IH eq_refl) as (a' & H1 & H2). eauto.
  - intros [= <-]. eauto.
Qed.

Lemma process_data_raises (metrics : list row) (e : exn) :
  process_data metrics = Raise e -> e = OperationalError.
Proof.
  unfold process_data. intros H.
  apply map_res_raises in H as (g & _ & H). exact (group_result_raises _ _ H).
Qed.

(** X7. Once [get_file_paths] has returned and the input file is open,
    what [main] does with the content of the file (lines 247 to 265)
    ends in a traceback for two reasons only, both integer overflows:
    [OverflowError], from a line whose counts do not fit a float or
    SQLite's integers, and SQLite's [OperationalError], from a sum that
    leaves the 64-bit range.  The [ValueError], [AssertionError],
    [IndexError] and [UnicodeError] that the normalizers, the column
    subscripts and the decoders raise on the content of a file are all
    caught. *)
Theorem main_traceback (rt : runtime) (file : list Byte.byte) (e : exn) :
  main rt file = Traceback e -> e = OverflowError \/ e = OperationalError.
Proof.
  unfold main, finish.
  destruct (read_data rt (open_file rt utf_8 file) create_db) as [w [m|e1]] eqn:R1.
  - destruct (process_data (metrics w)) as [data|e2] eqn:P; [discriminate|].
    intros [= <-]. right. exact (process_data_raises _ _ P).
  - destruct (read_data_raises _ _ _ _ _ R1) as [->|[-> _]]; [intros [= <-]; auto|].
    destruct (read_data rt (open_file rt utf_16 file) w) as [w' [m|e2]] eqn:R2.
    + destruct (process_data (metrics w')) as [data|e3] eqn:P; [discriminate|].
      intros [= <-]. right. exact (process_data_raises _ _ P).
    + destruct (read_data_raises _ _ _ _ _ R2) as [->|[-> _]];
        [intros [= <-]; auto|discriminate].
Qed.

Lemma main_traceback_witness :
  OverflowError = OverflowError \/ OverflowError = OperationalError.
Proof.
  refine (main_traceback sample_runtime
            (utf8_bytes "01/15/2019,California,9223372036854775808,10%")
            OverflowError _).
  vm_compute. reflexivity.
Defined.

Lemma report_sorted (metrics data : list row) :
  process_data metrics = Ret data -> StronglySorted key_lt (map row_key data).
Proof.
  unfold process_data. fold (groups_of metrics). intros H.
  apply map_res_Ret in H.
  assert (Hk : map row_key data = map group_key (groups_of metrics)).
  { induction H as [|g r gs rs Hg _ IH]; simpl; [reflexivity|].
    apply group_result_Ret in Hg as [-> _]. f_equal. exact IH. }
  rewrite Hk. apply groups_of_spec.
Qed.

(** X8. A run that ends with a report has read one decoding of the
    file, the UTF-8 one or the UTF-16 one, to its end and from an empty
    table: its lines are the accepted rows and the diagnostics printed,
    the summary names the number of diagnostics, the report is the
    aggregation of those rows in ascending key order, with their total
    impressions and clicks, and the output file holds one line for each
    entry of the report. *)
Theorem processed_run (rt : runtime) (file : list Byte.byte)
    (data : list row) (output : list string) (error_msg : string)
    (diagnostics : list string) :
  main rt file = Processed data output error_msg diagnostics ->
  exists f rows,
    (f = open_file rt utf_8 file \/ f = open_file rt utf_16 file) /\
    complete f = true /\
    (length rows + length diagnostics = length (lines f))%nat /\
    Forall accepted rows /\
    error_msg = "Total number of invalid lines in the input file: "
                  +:+ str_of_Z (Z.of_nat (length diagnostics)) /\
    process_data rows = Ret data /\
    StronglySorted key_lt (map row_key data) /\
    sum_list (map impressions_of data) = sum_list (map impressions_of rows) /\
    sum_list (map clicks_of data) = sum_list (map clicks_of rows) /\
    output = write_data data /\ length output = length data.
Proof.
  assert (Hfinish : forall f w msg,
            read_data rt f create_db = (w, Ret msg) ->
            finish w msg = Processed data output error_msg diagnostics ->
            exists rows,
              complete f = true /\
              (length rows + length diagnostics = length (lines f))%nat /\
              Forall accepted rows /\
              error_msg = "Total number of invalid lines in the input file: "
                            +:+ str_of_Z (Z.of_nat (length diagnostics)) /\
              process_data rows = Ret data /\
              StronglySorted key_lt (map row_key data) /\
              sum_list (map impressions_of data) = sum_list (map impressions_of rows) /\
              sum_list (map clicks_of data) = sum_list (map clicks_of rows) /\
              output = write_data data /\ length output = length data).
  { intros f w msg R. unfold finish.
    destruct (process_data (metrics w)) as [data'|e] eqn:P; [|discriminate].
    intros [= <- <- <- <-].
    destruct (read_data_returns _ _ _ _ _ R)
      as (Hc & rows & diags & Hrows & Hdiags & Hlen & Hmsg & Hacc & _).
    simpl in Hrows, Hdiags. rewrite Hrows in P. rewrite Hdiags.
    exists rows. repeat split; auto.
    - exact (report_sorted _ _ P).
    - pose proof P as P'. unfold process_data in P'. fold (groups_of rows) in P'.
      apply total_of_report in P' as [Hi _].
      apply (total_of_groups sum_impressions impressions_of rows); auto.
      intros g [[[d c] i] k]. reflexivity.
    - pose proof P as P'. unfold process_data in P'. fold (groups_of rows) in P'.
      apply total_of_report in P' as [_ Hk].
      apply (total_of_groups sum_clicks clicks_of rows); auto.
      intros g [[[d c] i] k]. reflexivity.
    - unfold write_data. apply length_map. }
  unfold main.
  destruct (read_data rt (open_file rt utf_8 file) create_db) as [w [m|e1]] eqn:R1.
  - intros F. destruct (Hfinish _ _ _ R1 F) as (rows & H).
    exists (open_file rt utf_8 file), rows. tauto.
  - destruct (read_data_raises _ _ _ _ _ R1) as [->|[-> Hc8]]; [discriminate|].
    destruct (read_data rt (open_file rt utf_16 file) w) as [w' [m|e2]] eqn:R2.
    + intros F.
      destruct (read_data_returns _ _ _ _ _ R2) as [Hc16 _].
      pose proof (utf16_complete_utf8_empty rt file Hc8 Hc16) as E8.
      rewrite E8, read_data_no_lines in R1. injection R1 as <-.
      destruct (Hfinish _ _ _ R2 F) as (rows & H).
      exists (open_file rt utf_16 file), rows. tauto.
    + destruct e2; discriminate.
Qed.

Lemma processed_run_witness :
  exists f rows,
    (f = open_file sample_runtime utf_8 (utf16_bytes two_lines) \/
     f = open_file sample_runtime utf_16 (utf16_bytes two_lines)) /\
    complete f = true /\
    (length rows + length (@nil string) = length (lines f))%nat /\
    Forall accepted rows /\
    "Total number of invalid lines in the input file: 0"
      = "Total number of invalid lines in the input file: "
          +:+ str_of_Z (Z.of_nat (length (@nil string))) /\
    process_data rows
      = Ret [("2019-01-01", "USA", 150, 20)] /\
    StronglySorted key_lt (map row_key [("2019-01-01", "USA", 150, 20)]) /\
    sum_list (map impressions_of [("2019-01-01", "USA", 150, 20)])
      = sum_list (map impressions_of rows) /\
    sum_list (map clicks_of [("2019-01-01", "USA", 150, 20)])
      = sum_list (map clicks_of rows) /\
    ["2019-01-01,USA,150,20" +:+ line_feed]
      = write_data [("2019-01-01", "USA", 150, 20)] /\
    length ["2019-01-01,USA,150,20" +:+ line_feed]
      = length [("2019-01-01", "USA", 150, 20)].
Proof.
  refine (processed_run sample_runtime (utf16_bytes two_lines)
            [("2019-01-01", "USA", 150, 20)]
            ["2019-01-01,USA,150,20" +:+ line_feed]
            "Total number of invalid lines in the input file: 0" [] _).
  vm_compute. reflexivity.
Defined.

(** ** The subdivision map *)

Lemma fold_insert_absent (l : list (string * string)) (m : gmap string string)
    (k : string) :
  ~ In k (map fst l) ->
  fold_left (fun state_country '(name, alpha_3) => <[name := alpha_3]> state_country) l m
    !! k = m !! k.
Proof.
  revert m. induction l as [|[name code] l IH]; intros m H; [reflexivity|].
  cbn [fold_left]. rewrite IH by (intros ?; apply H; right; assumption).
  apply lookup_insert_ne. intros ->. apply H. left. reflexivity.
Qed.

Lemma fold_insert_last (before after : list (string * string)) (m : gmap string string)
    (k code : string) :
  ~ In k (map fst after) ->
  fold_left (fun state_country '(name, alpha_3) => <[name := alpha_3]> state_country)
            (before ++ (k, code) :: after) m
    !! k = Some code.
Proof.
  intros H. rewrite fold_left_app. cbn [fold_left].
  rewrite fold_insert_absent by exact H. apply lookup_insert_eq.
Qed.

(** X9. A subdivision name that [pycountry] lists more than once maps
    to the country of its last listing, and [get_country] returns that
    code; a name that is not listed gets the code [XXX]. *)
Theorem last_subdivision_wins (rt : runtime) (state : string) :
  (forall before code after,
     subdivisions rt = before ++ (state, code) :: after ->
     ~ In state (map fst after) ->
     get_country state (map_state_country rt) = {| val := Some code; msg := "OK" |}) /\
  (~ In state (map fst (subdivisions rt)) ->
   get_country state (map_state_country rt) = {| val := Some "XXX"; msg := "OK" |}).
Proof.
  unfold get_country, map_state_country. split.
  - intros before code after -> H. rewrite (fold_insert_last _ _ _ _ _ H). reflexivity.
  - intros H. rewrite (fold_insert_absent _ _ _ H), lookup_empty. reflexivity.
Qed.

Lemma last_subdivision_wins_witness :
  get_country "Punjab" (map_state_country listed_twice)
  = {| val := Some "PAK"; msg := "OK" |}.
Proof.
  refine (proj1 (last_subdivision_wins listed_twice "Punjab")
            [("Punjab", "IND"); ("Texas", "USA")] "PAK" [] eq_refl _).
  intros [].
Defined.

(** ** The order of the normalized dates *)

Lemma digit_char_compare (a b : Z) :
  0 <= a <= 9 -> 0 <= b <= 9 ->
  Ascii.compare (digit_char a) (digit_char b) = (a ?= b).
Proof.
  intros Ha Hb.
  assert (A : a = 0 \/ a = 1 \/ a = 2 \/ a = 3 \/ a = 4 \/ a = 5 \/ a = 6 \/ a = 7
              \/ a = 8 \/ a = 9) by lia.
  assert (B : b = 0 \/ b = 1 \/ b = 2 \/ b = 3 \/ b = 4 \/ b = 5 \/ b = 6 \/ b = 7
              \/ b = 8 \/ b = 9) by lia.
  clear Ha Hb.
  repeat (destruct A as [->|A]); [..|subst a];
    repeat (destruct B as [->|B]); try subst b; reflexivity.
Qed.

Lemma compare_lex (k a1 a2 b1 b2 : Z) :
  0 <= b1 < k -> 0 <= b2 < k ->
  (k * a1 + b1 ?= k * a2 + b2) = match a1 ?= a2 with
                                 | Eq => b1 ?= b2
                                 | c => c
                                 end.
Proof.
  intros H1 H2. destruct (Z.compare_spec a1 a2) as [->|H|H].
  - apply Z.add_compare_mono_l.
  - apply Z.compare_lt_iff. nia.
  - apply Z.compare_gt_iff. nia.
Qed.

Lemma two_digits_compare (m1 m2 : Z) (s1 s2 : string) :
  0 <= m1 < 100 -> 0 <= m2 < 100 ->
  String.compare (two_digits m1 +:+ s1) (two_digits m2 +:+ s2)
  = match m1 ?= m2 with
    | Eq => String.compare s1 s2
    | c => c
    end.
Proof.
  intros H1 H2. unfold two_digits. rewrite !app_cons, !app_nil.
  cbn [String.compare].
  pose proof (Z.div_mod m1 10 ltac:(lia)) as E1.
  pose proof (Z.div_mod m2 10 ltac:(lia)) as E2.
  pose proof (Z.mod_pos_bound m1 10 ltac:(lia)).
  pose proof (Z.mod_pos_bound m2 10 ltac:(lia)).
  assert (0 <= m1 / 10 <= 9) by (split; [apply Z.div_pos; lia|apply Z.lt_succ_r, Z.div_lt_upper_bound; lia]).
  assert (0 <= m2 / 10 <= 9) by (split; [apply Z.div_pos; lia|apply Z.lt_succ_r, Z.div_lt_upper_bound; lia]).
  rewrite !digit_char_compare by lia.
  rewrite E1 at 3. rewrite E2 at 3.
  rewrite (compare_lex 10) by lia.
  destruct (m1 / 10 ?= m2 / 10); [|reflexivity..].
  destruct (m1 mod 10 ?= m2 mod 10); reflexivity.
Qed.

Lemma four_digits_compare (y1 y2 : Z) (s1 s2 : string) :
  0 <= y1 < 10000 -> 0 <= y2 < 10000 ->
  String.compare (four_digits y1 +:+ s1) (four_digits y2 +:+ s2)
  = match y1 ?= y2 with
    | Eq => String.compare s1 s2
    | c => c
    end.
Proof.
  intros H1 H2. unfold four_digits. rewrite !app_cons.
  cbn [String.compare].
  pose proof (Z.mod_pos_bound y1 100 ltac:(lia)).
  pose proof (Z.mod_pos_bound y2 100 ltac:(lia)).
  rewrite two_digits_compare by lia.
  set (a1 := y1 / 1000). set (a2 := y2 / 1000).
  set (b1 := y1 / 100 mod 10). set (b2 := y2 / 100 mod 10).
  set (c1 := y1 mod 100). set (c2 := y2 mod 100).
  assert (0 <= a1 <= 9) by (unfold a1; split; [apply Z.div_pos; lia|apply Z.lt_succ_r, Z.div_lt_upper_bound; lia]).
  assert (0 <= a2 <= 9) by (unfold a2; split; [apply Z.div_pos; lia|apply Z.lt_succ_r, Z.div_lt_upper_bound; lia]).
  assert (0 <= b1 <= 9) by (unfold b1; pose proof (Z.mod_pos_bound (y1 / 100) 10); lia).
  assert (0 <= b2 <= 9) by (unfold b2; pose proof (Z.mod_pos_bound (y2 / 100) 10); lia).
  assert (E1 : y1 = 1000 * a1 + (100 * b1 + c1)).
  { unfold a1, b1, c1.
    pose proof (Z.div_mod y1 100 ltac:(lia)). pose proof (Z.div_mod (y1 / 100) 10 ltac:(lia)).
    replace (y1 / 1000) with (y1 / 100 / 10) by (rewrite Z.div_div by lia; reflexivity).
    lia. }
  assert (E2 : y2 = 1000 * a2 + (100 * b2 + c2)).
  { unfold a2, b2, c2.
    pose proof (Z.div_mod y2 100 ltac:(lia)). pose proof (Z.div_mod (y2 / 100) 10 ltac:(lia)).
    replace (y2 / 1000) with (y2 / 100 / 10) by (rewrite Z.div_div by lia; reflexivity).
    lia. }
  rewrite !digit_char_compare by lia.
  rewrite E1 at 1. rewrite E2 at 1.
  fold c1 c2 in H, H0.
  rewrite (compare_lex 1000) by lia. rewrite (compare_lex 100) by lia.
  destruct (a1 ?= a2); [|reflexivity..].
  destruct (b1 ?= b2); [|reflexivity..].
  destruct (c1 ?= c2); reflexivity.
Qed.

Lemma year_of_range (t : string) (y : Z) : year_of t = Some y -> 0 <= y < 10000.
Proof.
  destruct t as [|a [|b [|c [|d [|e r]]]]]; try discriminate. simpl.
  destruct (is_digit a) eqn:Ha, (is_digit b) eqn:Hb, (is_digit c) eqn:Hc,
    (is_digit d) eqn:Hd; try discriminate.
  intros [= <-].
  pose proof (digit_val_range a Ha). pose proof (digit_val_range b Hb).
  pose proof (digit_val_range c Hc). pose proof (digit_val_range d Hd). lia.
Qed.

Lemma strptime_range (raw : string) (y m d : Z) :
  strptime raw = Ret (y, m, d) -> 1 <= y < 10000 /\ 1 <= m <= 12 /\ 1 <= d <= 31.
Proof.
  intros H. apply strptime_sound in H as (tm & td & ty & _ & _ & _ & Hy & Hm & Hd & Hy1).
  apply year_of_range in Hy. pose proof (days_in_month_le y m). lia.
Qed.

Lemma strftime_digits (rt : runtime) (y m d : Z) :
  strftime_pads_year rt = true \/ 1000 <= y ->
  0 <= y < 10000 ->
  strftime rt (y, m, d)
  = four_digits y +:+ "-" +:+ two_digits m +:+ "-" +:+ two_digits d +:+ "".
Proof.
  intros Hpad Hy. unfold strftime.
  replace (if strftime_pads_year rt then four_digits y else str_of_Z y)
    with (four_digits y).
  - unfold two_digits at 2. rewrite !app_cons, !app_nil. reflexivity.
  - destruct (strftime_pads_year rt); [reflexivity|].
    symmetry. apply year_needs_no_padding. destruct Hpad; [discriminate|lia].
Qed.

Lemma dash_compare (s1 s2 : string) :
  String.compare ("-" +:+ s1) ("-" +:+ s2) = String.compare s1 s2.
Proof. reflexivity. Qed.

(** X10. The dates of the report sort as the calendar does: of two
    texts that [get_date] accepts, with years from 1000 on (or with a C
    library that pads the year to four digits), the normalized dates
    compare as texts the way the days compare by year, month and day.
    So [ORDER BY date] lists the report in chronological order. *)
Theorem dates_sort_by_calendar (rt : runtime) (raw1 raw2 : string)
    (y1 m1 d1 y2 m2 d2 : Z) :
  strptime raw1 = Ret (y1, m1, d1) ->
  strptime raw2 = Ret (y2, m2, d2) ->
  strftime_pads_year rt = true \/ (1000 <= y1 /\ 1000 <= y2) ->
  exists date1 date2,
    get_date rt raw1 = Ret {| val := Some date1; msg := "OK" |} /\
    get_date rt raw2 = Ret {| val := Some date2; msg := "OK" |} /\
    String.compare date1 date2 = calendar_compare (y1, m1, d1) (y2, m2, d2).
Proof.
  intros H1 H2 Hpad.
  exists (strftime rt (y1, m1, d1)), (strftime rt (y2, m2, d2)).
  rewrite !get_date_spec, H1, H2. split; [reflexivity|]. split; [reflexivity|].
  apply strptime_range in H1 as (Hy1 & Hm1 & Hd1).
  apply strptime_range in H2 as (Hy2 & Hm2 & Hd2).
  rewrite !strftime_digits by (try tauto; lia).
  rewrite four_digits_compare by lia. cbn [calendar_compare].
  destruct (y1 ?= y2); [|reflexivity..].
  rewrite dash_compare, two_digits_compare by lia.
  destruct (m1 ?= m2); [|reflexivity..].
  rewrite dash_compare, two_digits_compare by lia.
  destruct (d1 ?= d2); reflexivity.
Qed.

Lemma dates_sort_by_calendar_witness :
  exists date1 date2,
    get_date sample_runtime "12/31/2018" = Ret {| val := Some date1; msg := "OK" |} /\
    get_date sample_runtime "1/5/2019" = Ret {| val := Some date2; msg := "OK" |} /\
    String.compare date1 date2 = calendar_compare (2018, 12, 31) (2019, 1, 5).
Proof.
  refine (dates_sort_by_calendar sample_runtime "12/31/2018" "1/5/2019"
            2018 12 31 2019 1 5 eq_refl eq_refl _).
  right. lia.
Defined.

(** ** The lines of the output file *)

Lemma split_free_of (sep : ascii) (s : string) :
  free_of sep s = true -> split sep s = [s].
Proof.
  induction s as [|a s IH]; [reflexivity|]. simpl. intros H.
  apply andb_prop in H as [Ha Hs]. apply negb_true_iff in Ha.
  rewrite Ha, (IH Hs). reflexivity.
Qed.

Lemma split_field (sep : ascii) (s t : string) :
  free_of sep s = true -> split sep (s +:+ String sep t) = s :: split sep t.
Proof.
  induction s as [|a s IH]; intros H.
  - rewrite app_nil. cbn [split]. rewrite Ascii.eqb_refl. reflexivity.
  - cbn [free_of] in H. apply andb_prop in H as [Ha Hs]. apply negb_true_iff in Ha.
    rewrite app_cons. cbn [split]. rewrite Ha, (IH Hs). reflexivity.
Qed.

Lemma free_of_app (c : ascii) (s t : string) :
  free_of c (s +:+ t) = free_of c s && free_of c t.
Proof.
  induction s as [|a s IH]; [reflexivity|].
  change (free_of c (String a s +:+ t)) with (negb (Ascii.eqb a c) && free_of c (s +:+ t)).
  rewrite IH. simpl. apply andb_assoc.
Qed.

Lemma uint_free_of_comma (d : Decimal.uint) :
  free_of "," (NilEmpty.string_of_uint d) = true.
Proof. induction d; simpl; try rewrite IHd; reflexivity. Qed.

Lemma str_free_of_comma (n : Z) : free_of "," (str_of_Z n) = true.
Proof.
  unfold str_of_Z. destruct n as [|p|p]; [reflexivity|..];
    cbn [Z.to_int NilZero.string_of_int];
    destruct (uint_text p) as [-> _]; [|simpl]; apply uint_free_of_comma.
Qed.

Lemma append_empty (s : string) : s +:+ "" = s.
Proof. induction s as [|a s IH]; [reflexivity|]. rewrite app_cons, IH. reflexivity. Qed.

(** X11. The output file reads back: when date and country hold no
    comma, each line that [write_data] writes splits at its commas into
    four fields, the date, the country and two texts that [int] reads as
    the impressions and the clicks of the report entry, the line feed
    after the clicks notwithstanding.  There is one line for each entry,
    in the order of the report.  The counts are of [max_str_digits]
    digits at most, as every sum that SQLite returns is. *)
Theorem written_lines_read_back (data : list row) :
  Forall (fun r => free_of "," (fst (row_key r)) = true /\
                   free_of "," (snd (row_key r)) = true) data ->
  Forall (fun r => fits_str_digits (impressions_of r) /\
                   fits_str_digits (clicks_of r)) data ->
  Forall2 (fun r line =>
             exists x2 x3,
               split "," line = [fst (row_key r); snd (row_key r); x2; x3] /\
               py_int x2 = Ret (impressions_of r) /\
               py_int x3 = Ret (clicks_of r))
          data (write_data data).
Proof.
  induction 1 as [|[[[d c] i] k] data [Hd Hc] _ IH]; [constructor|].
  intros Hfit. apply List.Forall_cons_iff in Hfit as [[Hi Hk] Hfit].
  cbn [impressions_of clicks_of] in Hi, Hk.
  cbn [write_data map]. constructor; [|exact (IH Hfit)].
  exists (str_of_Z i), (str_of_Z k +:+ line_feed). cbn [row_key fst snd] in *.
  split; [|split].
  - rewrite !app_cons, !app_nil.
    rewrite (split_field "," d) by exact Hd. rewrite (split_field "," c) by exact Hc.
    rewrite (split_field "," (str_of_Z i)) by apply str_free_of_comma.
    rewrite split_free_of; [reflexivity|].
    rewrite free_of_app, str_free_of_comma. reflexivity.
  - rewrite <- (append_empty (str_of_Z i)). apply py_int_str; [reflexivity|exact Hi].
  - apply py_int_str; [reflexivity|exact Hk].
Qed.

Lemma written_lines_read_back_witness :
  Forall2 (fun r line =>
             exists x2 x3,
               split "," line = [fst (row_key r); snd (row_key r); x2; x3] /\
               py_int x2 = Ret (impressions_of r) /\
               py_int x3 = Ret (clicks_of r))
          sample_rows (write_data sample_rows).
Proof.
  apply (written_lines_read_back sample_rows).
  - repeat constructor.
  - repeat constructor; apply int64_fits_str_digits; reflexivity.
Defined.

(** ** The paths of [get_file_paths] *)

Lemma contains_file_nums (files : list string) (user_input : string) :
  contains (file_nums files) user_input = true ->
  exists n, (n < length files)%nat /\ user_input = str_of_Z (Z.of_nat n).
Proof.
  unfold contains, file_nums. intros H.
  apply existsb_exists in H as (x & Hx & E). apply String.eqb_eq in E. subst x.
  apply List.in_map_iff in Hx as (n & <- & Hn). apply in_seq in Hn.
  exists n. split; [lia|reflexivity].
Qed.

(** The loop ends with a number only at the first line that is the
    text of a listed number, and no line before it is [q]. *)
Lemma index_fits_str_digits (files : list string) (n : nat) :
  Z.of_nat (length files) <= 10 ^ max_str_digits -> (n < length files)%nat ->
  fits_str_digits (Z.of_nat n).
Proof. unfold fits_str_digits. intros H Hn. rewrite Z.abs_eq by lia. lia. Qed.

Lemma select_answered (files : list string) (inputs : list string) (file_no : Z) :
  Z.of_nat (length files) <= 10 ^ max_str_digits ->
  select (file_nums files) inputs = Answered file_no ->
  exists n skipped rest,
    file_no = Z.of_nat n /\ (n < length files)%nat /\
    inputs = skipped ++ str_of_Z file_no :: rest /\
    Forall (fun u => contains (file_nums files) u = false /\ u <> "q"%string) skipped.
Proof.
  intros Hlen.
  induction inputs as [|u inputs IH]; cbn [select]; [discriminate|].
  destruct (contains (file_nums files) u) eqn:C.
  - destruct (contains_file_nums _ _ C) as (n & Hn & ->).
    rewrite <- (append_empty (str_of_Z (Z.of_nat n))), py_int_str
      by (try reflexivity; exact (index_fits_str_digits files n Hlen Hn)).
    intros [= <-]. exists n, [], inputs. rewrite append_empty.
    repeat split; auto.
  - destruct (String.eqb_spec u "q") as [->|Hq]; [discriminate|].
    intros H. destruct (IH H) as (n & skipped & rest & -> & Hn & -> & Hs).
    exists n, (u :: skipped), rest. repeat split; auto.
Qed.

Lemma select_never_fails (files : list string) (inputs : list string) (e : exn) :
  Z.of_nat (length files) <= 10 ^ max_str_digits ->
  select (file_nums files) inputs <> Failed e.
Proof.
  intros Hlen.
  induction inputs as [|u inputs IH]; cbn [select]; [discriminate|].
  destruct (contains (file_nums files) u) eqn:C.
  - destruct (contains_file_nums _ _ C) as (n & Hn & ->).
    rewrite <- (append_empty (str_of_Z (Z.of_nat n))), py_int_str
      by (try reflexivity; exact (index_fits_str_digits files n Hlen Hn)).
    discriminate.
  - destruct (String.eqb u "q"); [discriminate|exact IH].
Qed.

Lemma subscript_listed {A : Type} (l : list A) (n : nat) :
  (n < length l)%nat -> exists a, nth_error l n = Some a /\ subscript l (Z.of_nat n) = Ret a.
Proof.
  intros H. unfold subscript, item.
  destruct (Z.ltb_spec (Z.of_nat n) 0); [lia|].
  destruct (Z.ltb_spec (Z.of_nat n) 0); [lia|]. rewrite Nat2Z.id.
  destruct (nth_error l n) as [a|] eqn:E; [eauto|].
  apply nth_error_None in E. lia.
Qed.

(** X12. With a directory listing that does not change between the two
    calls of [os.listdir], [get_file_paths] raises no exception, and
    when it returns it has taken the first line typed that is the number
    of a listed file, written as [str] writes it, every line before
    being neither such a number nor [q]: the paths are those of the file
    listed under that number.  The directory holds no more files than
    [str] and [int] can number, 10 ^ 4300. *)
Theorem selection_is_listed (st : settings) (files : list string)
    (inputs : list string) :
  Z.of_nat (length files) <= 10 ^ max_str_digits ->
  (forall e, get_file_paths st files files inputs <> Failed e) /\
  (forall input_path output_path,
     get_file_paths st files files inputs = Answered (input_path, output_path) ->
     exists n in_filename skipped rest,
       nth_error files n = Some in_filename /\
       inputs = skipped ++ str_of_Z (Z.of_nat n) :: rest /\
       Forall (fun u => contains (file_nums files) u = false /\ u <> "q"%string) skipped /\
       input_path = path_join (INPUT_DIR_PATH st) in_filename /\
       output_path = path_join (OUTPUT_DIR_PATH st)
                       (out_filename (OUTPUT_FILE_NAME_SUFFIX st) in_filename)).
Proof.
  intros Hlen. unfold get_file_paths.
  destruct (select (file_nums files) inputs) as [file_no| | |e0] eqn:S.
  - destruct (select_answered _ _ _ Hlen S) as (n & skipped & rest & -> & Hn & Hin & Hs).
    destruct (subscript_listed files n Hn) as (a & Hnth & ->).
    split; [discriminate|].
    intros input_path output_path [= <- <-].
    exists n, a, skipped, rest. auto.
  - split; discriminate.
  - split; discriminate.
  - destruct (select_never_fails _ _ _ Hlen S).
Qed.

Lemma selection_is_listed_witness :
  exists n in_filename skipped rest,
    nth_error ["a.csv"; "b.csv"] n = Some in_filename /\
    ["2"; " 1"; "1"; "q"] = skipped ++ str_of_Z (Z.of_nat n) :: rest /\
    Forall (fun u => contains (file_nums ["a.csv"; "b.csv"]) u = false /\ u <> "q"%string)
           skipped /\
    "input/b.csv" = path_join (INPUT_DIR_PATH sample_settings) in_filename /\
    "output/b_out.csv"
      = path_join (OUTPUT_DIR_PATH sample_settings)
          (out_filename (OUTPUT_FILE_NAME_SUFFIX sample_settings) in_filename).
Proof.
  refine (proj2 (selection_is_listed sample_settings ["a.csv"; "b.csv"]
                   ["2"; " 1"; "1"; "q"] _)
            "input/b.csv" "output/b_out.csv" eq_refl).
  apply Z.le_trans with (10 ^ 1); [discriminate|].
  apply Z.pow_le_mono_r; [reflexivity|discriminate].
Defined.

Lemma rfind_None (c : ascii) (s : string) : rfind c s = None -> free_of c s = true.
Proof.
  induction s as [|a s IH]; [reflexivity|]. simpl.
  destruct (rfind c s) as [i|]; [discriminate|].
  destruct (Ascii.eqb a c); [discriminate|]. intros _. apply IH. reflexivity.
Qed.

Lemma rfind_Some (c : ascii) (s : string) (i : nat) :
  rfind c s = Some i ->
  exists stem e, s = stem +:+ String c e /\ String.length stem = i /\ free_of c e = true.
Proof.
  revert i. induction s as [|a s IH]; intros i; [discriminate|]. simpl.
  destruct (rfind c s) as [j|] eqn:R.
  - intros [= <-]. destruct (IH j eq_refl) as (stem & e & -> & <- & He).
    exists (String a stem), e. auto.
  - destruct (Ascii.eqb_spec a c) as [->|]; [|discriminate]. intros [= <-].
    exists EmptyString, s. split; [reflexivity|]. split; [reflexivity|].
    apply rfind_None. exact R.
Qed.

Lemma substring_all (s : string) : String.substring 0 (String.length s) s = s.
Proof. induction s as [|a s IH]; [reflexivity|]. simpl. rewrite IH. reflexivity. Qed.

Lemma slice_from_app (s t : string) : slice_from (s +:+ t) (String.length s) = t.
Proof.
  unfold slice_from. induction s as [|a s IH].
  - rewrite app_nil. cbn [String.length]. rewrite Nat.sub_0_r. apply substring_all.
  - rewrite app_cons. cbn [String.length String.substring]. exact IH.
Qed.

(** X13. The name of the output file is the name of the input file
    with the suffix put before its last extension: before the last dot
    of the name, or at its end when it has no dot.  The rest of the name
    is kept as it is. *)
Theorem suffix_before_extension (suffix in_filename : string) :
  exists stem ext,
    in_filename = stem +:+ ext /\
    out_filename suffix in_filename = stem +:+ suffix +:+ ext /\
    ((ext = EmptyString /\ free_of "." in_filename = true) \/
     (exists e, ext = String "." e /\ free_of "." e = true)).
Proof.
  unfold out_filename. destruct (rfind "." in_filename) as [ext_pos|] eqn:R.
  - destruct (rfind_Some _ _ _ R) as (stem & e & -> & <- & He).
    exists stem, (String "." e). rewrite slice_to_app, slice_from_app. eauto 6.
  - exists in_filename, EmptyString. rewrite !append_empty.
    split; [reflexivity|]. split; [reflexivity|]. left.
    split; [reflexivity|]. apply rfind_None. exact R.
Qed.

(** ** Decimal impressions, and sums that overflow *)

(** X14. [get_impressions] accepts every integer that is not negative
    and has [max_str_digits] digits at most, 4300, in the decimal text
    [str] writes, with its value, also when white space follows; the
    text of such a negative integer gets the diagnostic of a negative
    value, not the one of a text that is no integer. *)
Theorem decimal_impressions (n : Z) (w : string) :
  blank w = true -> fits_str_digits n ->
  get_impressions (str_of_Z n +:+ w)
  = Ret (if 0 <=? n then {| val := Some n; msg := "OK" |}
         else {| val := None; msg := "value of number of impressions is negative" |}).
Proof.
  intros H Hn. rewrite get_impressions_spec, (py_int_str n w H Hn). reflexivity.
Qed.

Lemma decimal_impressions_witness :
  get_impressions (str_of_Z 1000 +:+ line_feed)
  = Ret {| val := Some 1000; msg := "OK" |}.
Proof.
  exact (decimal_impressions 1000 line_feed eq_refl
           (int64_fits_str_digits 1000 eq_refl)).
Defined.

Lemma get_clicks_escapes_witness :
  get_clicks (str_of_Z (10 ^ 400)) "50%" = Raise OverflowError.
Proof.
  apply (proj2 (get_clicks_escapes (str_of_Z (10 ^ 400)) "50%" OverflowError)).
  split; [reflexivity|].
  exists (10 ^ 400), (float_div (float_of_Z 50) (float_of_Z 100)).
  split; [vm_compute; reflexivity|]. split; [|vm_compute; reflexivity].
  exists 2%nat, (float_of_Z 50). repeat split; vm_compute; reflexivity.
Defined.

Lemma map_res_In_raises {A B : Type} (f : A -> res B) (l : list A) (a : A) (e : exn) :
  In a l -> f a = Raise e -> exists e', map_res f l = Raise e'.
Proof.
  induction l as [|b l IH]; [intros []|]. intros [->|H] Ha; simpl; unfold bind.
  - rewrite Ha. eauto.
  - destruct (f b); [|eauto]. destruct (IH H Ha) as [e' ->]. eauto.
Qed.

Lemma group_total_absent (column : row -> Z) (k : key) (metrics : list row) :
  ~ In k (map row_key metrics) -> group_total column k metrics = 0.
Proof.
  intros H. unfold group_total. rewrite rows_of_absent by exact H. reflexivity.
Qed.

(** X15. On a table of accepted rows [process_data] fails, with
    SQLite's [OperationalError], exactly when the impressions or the
    clicks of the rows of one date and country add up to 2^63 or more:
    one group that overflows fails the whole report. *)
Theorem report_fails_on_overflow (metrics : list row) :
  Forall accepted metrics ->
  process_data metrics = Raise OperationalError <->
  exists k, 2 ^ 63 <= group_total impressions_of k metrics \/
            2 ^ 63 <= group_total clicks_of k metrics.
Proof.
  intros Hacc. destruct (groups_of_spec metrics) as (_ & Hkeys & Hsums).
  unfold process_data. fold (groups_of metrics). split.
  - intros H. apply map_res_raises in H as (g & Hg & H).
    exists (group_key g).
    destruct (Hsums g Hg) as [Si Sc].
    destruct (accepted_columns (group_key g) metrics Hacc) as [Ai Ac].
    rewrite (sum_of_accepted _ Ai) in Si. rewrite (sum_of_accepted _ Ac) in Sc.
    unfold group_total. revert H. unfold group_result, bind, sum_finalize.
    rewrite Si, Sc.
    destruct (Z.ltb_spec (sum_list (map impressions_of (rows_of (group_key g) metrics)))
                (2 ^ 63)); [|auto].
    destruct (Z.ltb_spec (sum_list (map clicks_of (rows_of (group_key g) metrics)))
                (2 ^ 63)); [discriminate|auto].
  - intros [k Hk].
    assert (Hin : In k (map row_key metrics)).
    { destruct (in_dec (fun a b : key => decide (a = b)) k (map row_key metrics))
        as [Hin|Hout]; [exact Hin|].
      rewrite !(group_total_absent _ _ _ Hout) in Hk. rewrite two_pow_63 in Hk. lia. }
    apply Hkeys in Hin. apply List.in_map_iff in Hin as (g & <- & Hg).
    destruct (Hsums g Hg) as [Si Sc].
    destruct (accepted_columns (group_key g) metrics Hacc) as [Ai Ac].
    rewrite (sum_of_accepted _ Ai) in Si. rewrite (sum_of_accepted _ Ac) in Sc.
    assert (exists e, group_result g = Raise e) as [e He].
    { unfold group_result, bind, sum_finalize. rewrite Si, Sc.
      unfold group_total in Hk.
      destruct (Z.ltb_spec (sum_list (map impressions_of (rows_of (group_key g) metrics)))
                  (2 ^ 63)); [|eauto].
      destruct (Z.ltb_spec (sum_list (map clicks_of (rows_of (group_key g) metrics)))
                  (2 ^ 63)); [|eauto].
      lia. }
    destruct (map_res_In_raises _ _ _ _ Hg He) as [e' H].
    rewrite H. f_equal. apply (process_data_raises metrics).
    unfold process_data. fold (groups_of metrics). exact H.
Qed.

Lemma report_fails_on_overflow_witness :
  process_data [("2019-01-01", "USA", 2 ^ 62, 0); ("2019-01-01", "USA", 2 ^ 62, 0)]
  = Raise OperationalError.
Proof.
  refine (proj2 (report_fails_on_overflow
            [("2019-01-01", "USA", 2 ^ 62, 0); ("2019-01-01", "USA", 2 ^ 62, 0)] _) _).
  - repeat constructor; vm_compute; congruence.
  - exists ("2019-01-01", "USA")%string. left. vm_compute. congruence.
Defined.

(** ** The fallback to UTF-16 *)

(** A reading that ends in [UnicodeError] has processed every line the
    decoder yielded before it failed: their rows are in the table and
    their diagnostics are printed. *)
Lemma read_data_undecoded (rt : runtime) (f : decoded) (cur w : world) :
  read_data rt f cur = (w, Raise UnicodeError) ->
  complete f = false /\
  exists rows diagnostics,
    metrics w = metrics cur ++ rows /\
    stderr w = stderr cur ++ diagnostics /\
    (length rows + length diagnostics = length (lines f))%nat /\
    Forall accepted rows.
Proof.
  unfold read_data.
  destruct (read_lines rt (map_state_country rt) (lines f) 1 (cur, 0)) as [w1 [c|e]] eqn:R.
  - destruct (complete f); [discriminate|]. intros [= <-]. split; [reflexivity|].
    destruct (read_lines_accounts _ _ _ _ _ _ _ _ R)
      as (rows & diags & Hrows & Hdiags & _ & Hlen & Hacc & _).
    exists rows, diags. auto.
  - intros [= _ ->]. apply read_lines_raises in R. discriminate R.
Qed.

(** A file whose UTF-8 reading yields a line does not start with a byte
    order mark, and its UTF-16 reading fails before the first line. *)
Lemma utf8_line_utf16_empty (rt : runtime) (file : list Byte.byte) :
  lines (open_file rt utf_8 file) <> [] ->
  open_file rt utf_16 file = {| lines := []; complete := false |}.
Proof.
  destruct file as [|b0 [|b1 body]]; simpl; try congruence.
  destruct (Byte.eqb b0 Byte.xff), (Byte.eqb b0 Byte.xfe); simpl;
    congruence.
Qed.

(** C1, as stated, fails in its first sentence: the rows and the
    diagnostics of a UTF-8 reading that fails after 606 lines are not
    discarded.  The 303
    rows are in the table that the UTF-16 reading starts from, and the
    303 diagnostics stay printed when the run ends for want of an
    encoding. *)
Lemma partial_progress_kept :
  exists w,
    read_data sample_runtime (open_file sample_runtime utf_8 interrupted_file) create_db
      = (w, Raise UnicodeError) /\
    length (metrics w) = 303%nat /\ length (stderr w) = 303%nat /\
    nth_error (metrics w) 0 = Some ("2019-01-01", "USA", 100, 10) /\
    nth_error (stderr w) 0 = Some "Error in line 2: missing column"%string /\
    main sample_runtime interrupted_file
      = match read_data sample_runtime
                (open_file sample_runtime utf_16 interrupted_file) w with
        | (w', Ret error_msg) => finish w' error_msg
        | (w', Raise UnicodeError) => Invalid_encoding (stderr w')
        | (_, Raise e) => Traceback e
        end /\
    main sample_runtime interrupted_file = Invalid_encoding (stderr w).
Proof.
  eexists. split; [vm_compute; reflexivity|].
  repeat split; vm_compute; reflexivity.
Qed.

(** C1, amended. When the UTF-8 reading of a file ends in
    [UnicodeError], nothing is discarded: every line decoded before the
    failure has left its row in the table or its diagnostic on the error
    stream, and the UTF-16 reading of the whole file starts from that
    table.  If lines were read, the file has no byte order mark, the
    UTF-16 reading fails at once and the run ends without a report, the
    diagnostics still printed.  If the UTF-16 reading is complete, the
    file starts with a byte order mark, no line was read as UTF-8 and
    the table is empty: the run is then the run of any file whose UTF-8
    reading yields the same lines (same report, same output, same count
    of invalid lines, same diagnostics), and its report aggregates one
    row or counts one diagnostic for each line of the UTF-16 reading. *)
Theorem encoding_fallback (rt : runtime) (file : list Byte.byte) (w : world) :
  read_data rt (open_file rt utf_8 file) create_db = (w, Raise UnicodeError) ->
  (length (metrics w) + length (stderr w)
   = length (lines (open_file rt utf_8 file)))%nat /\
  main rt file
    = match read_data rt (open_file rt utf_16 file) w with
      | (w', Ret error_msg) => finish w' error_msg
      | (w', Raise UnicodeError) => Invalid_encoding (stderr w')
      | (_, Raise e) => Traceback e
      end /\
  (lines (open_file rt utf_8 file) <> [] ->
   main rt file = Invalid_encoding (stderr w)) /\
  (complete (open_file rt utf_16 file) = true ->
   w = create_db /\
   (forall file',
      open_file rt utf_8 file' = open_file rt utf_16 file ->
      main rt file = main rt file') /\
   (forall data output error_msg diagnostics,
      main rt file = Processed data output error_msg diagnostics ->
      exists rows,
        (length rows + length diagnostics
         = length (lines (open_file rt utf_16 file)))%nat /\
        process_data rows = Ret data /\
        output = write_data data /\
        error_msg = "Total number of invalid lines in the input file: "
                      +:+ str_of_Z (Z.of_nat (length diagnostics)))).
Proof.
  intros R.
  assert (Hmain : main rt file
                  = match read_data rt (open_file rt utf_16 file) w with
                    | (w', Ret error_msg) => finish w' error_msg
                    | (w', Raise UnicodeError) => Invalid_encoding (stderr w')
                    | (_, Raise e) => Traceback e
                    end)
    by (unfold main; rewrite R; reflexivity).
  destruct (read_data_undecoded _ _ _ _ R)
    as (H8 & rows & diags & Hrows & Hdiags & Hlen & _).
  simpl in Hrows, Hdiags.
  split; [rewrite Hrows, Hdiags; exact Hlen|]. split; [exact Hmain|]. split.
  - intros Hlines. rewrite Hmain, (utf8_line_utf16_empty rt file Hlines).
    rewrite read_data_no_lines. reflexivity.
  - intros H16.
    pose proof (utf16_complete_utf8_empty rt file H8 H16) as E8.
    assert (Hw : w = create_db)
      by (rewrite E8, read_data_no_lines in R; congruence).
    subst w. split; [reflexivity|].
    assert (Hrun : main rt file
                   = match read_data rt (open_file rt utf_16 file) create_db with
                     | (w', Ret error_msg) => finish w' error_msg
                     | (_, Raise e) => Traceback e
                     end).
    { rewrite Hmain.
      destruct (read_data rt (open_file rt utf_16 file) create_db) as [w' [m|e]] eqn:R16;
        [reflexivity|].
      rewrite (read_data_complete _ _ _ _ _ H16 R16). reflexivity. }
    split.
    + intros file' Hsame. rewrite Hrun. unfold main. rewrite Hsame.
      destruct (read_data rt (open_file rt utf_16 file) create_db) as [w' [m|e]] eqn:R16;
        [reflexivity|].
      rewrite (read_data_complete _ _ _ _ _ H16 R16). reflexivity.
    + intros data output error_msg diagnostics. rewrite Hrun.
      destruct (read_data rt (open_file rt utf_16 file) create_db) as [w' [m|e]] eqn:R16;
        [|discriminate].
      unfold finish.
      destruct (process_data (metrics w')) as [data'|e] eqn:P; [|discriminate].
      intros [= <- <- <- <-].
      destruct (read_data_returns _ _ _ _ _ R16)
        as (_ & rows16 & diags16 & Hr & Hd & Hl & Hm & _).
      simpl in Hr, Hd. exists rows16. rewrite Hd. rewrite Hr in P. auto.
Qed.

Lemma encoding_fallback_witness :
  main sample_runtime (utf16_bytes two_lines) = main sample_runtime (utf8_bytes two_lines).
Proof.
  refine (proj1 (proj2 (proj2 (proj2 (proj2
            (encoding_fallback sample_runtime (utf16_bytes two_lines) create_db _))) _))
            (utf8_bytes two_lines) _); reflexivity.
Defined.

(** ** Where the code leaves its specification *)

(** C5. The text [01/01/0999] is a date in the form [MM/DD/YYYY] with a
    valid month and day, whose reformatting is [0999-01-01]; the value
    that [get_date] returns is [999-01-01], the year in three digits: C
    libraries such as glibc do not pad the year of [%Y] to four
    digits. *)
Theorem year_below_1000_unpadded :
  is_mmddyyyy "01/01/0999" = true /\
  reformatted "01/01/0999" = "0999-01-01"%string /\
  strptime "01/01/0999" = Ret (999, 1, 1) /\
  get_date sample_runtime "01/01/0999"
    = Ret {| val := Some "999-01-01"; msg := "OK" |}.
Proof. repeat split; reflexivity. Qed.

(** C6. Two valid lines of the same date and country with 2 ^ 62
    impressions each are read without a diagnostic and inserted; both
    rows are accepted rows.  Their group adds up to 2 ^ 63, SQLite's
    [SUM] overflows, and instead of a report with that sum
    [process_data] raises [OperationalError], which ends the run in a
    traceback. *)
Theorem sum_overflow_fails_report :
  read_data sample_runtime
    (open_file sample_runtime utf_8 (utf8_bytes overflowing_lines)) create_db
  = ({| metrics := [("2019-01-01", "USA", 4611686018427387904, 0);
                    ("2019-01-01", "USA", 4611686018427387904, 0)];
        stderr := [] |},
     Ret "Total number of invalid lines in the input file: 0"%string) /\
  Forall accepted [("2019-01-01", "USA", 4611686018427387904, 0);
                   ("2019-01-01", "USA", 4611686018427387904, 0)] /\
  group_total impressions_of ("2019-01-01", "USA")%string
    [("2019-01-01", "USA", 4611686018427387904, 0);
     ("2019-01-01", "USA", 4611686018427387904, 0)] = 2 ^ 63 /\
  process_data [("2019-01-01", "USA", 4611686018427387904, 0);
                ("2019-01-01", "USA", 4611686018427387904, 0)]
  = Raise OperationalError /\
  main sample_runtime (utf8_bytes overflowing_lines) = Traceback OperationalError.
Proof.
  split; [vm_compute; reflexivity|]. split.
  - repeat constructor; vm_compute; congruence.
  - repeat split; vm_compute; reflexivity.
Qed.

(** Past the digit limit of [int] an impressions text is no integer:
    a one and 4299 zeros are read as 10 ^ 4299, a one and 4300 zeros
    are not read, and [get_impressions] and [get_clicks] return their
    items of an invalid format. *)
Lemma beyond_digit_limit :
  py_int ("1" +:+ repeated (Z.to_nat 4299) "0") = Ret (10 ^ 4299) /\
  py_int ("1" +:+ repeated (Z.to_nat 4300) "0") = Raise ValueError /\
  get_impressions ("1" +:+ repeated (Z.to_nat 4300) "0")
    = Ret {| val := None;
             msg := "value of number of impressions is not an integer" |} /\
  get_clicks ("1" +:+ repeated (Z.to_nat 4300) "0") "50%" = Ret unable.
Proof. repeat split; vm_compute; reflexivity. Qed.
